(** * FYS-STK4155 Project 3: the Franke data generator and the bias-variance sweep

    A shallow embedding of [src/data/franke.py], of the sweep drivers of
    [src/analysis/bias_variance.py] and of [FallData.create_csv] of
    [src/data/fall.py], with the properties of the design matrix, of the
    synthetic target function, of the rescaling and of the result table
    that the project's specification states, and further properties read
    off the code.

    Conventions.
    - Python integers are [Z]; [range] is stdpp's [seqZ].
    - A one-dimensional numpy array is a [list]; a two-dimensional one is a
      record carrying its shape next to its rows, as numpy does.
    - Code that can raise returns a [result]; code that also reads the global
      random source or the file system runs in the monad [M] over a [world].
    - Floating-point numbers are modelled by the real numbers where a property
      is about values, and by an abstract [Scalar] where only the shape of
      the computation matters. *)

From Stdlib Require Import ZArith List Reals Lra Lia.
From stdpp Require Import base tactics option list numbers strings pretty gmap.

Open Scope Z_scope.

(** ** Exceptions and the [result] monad *)

Inductive exn : Type :=
  | ValueError    (* numpy: shapes do not broadcast, empty reduction *)
  | IndexError    (* index out of bounds *)
  | External (tag : nat).  (* raised by a collaborator outside this code *)

Inductive result (A : Type) : Type :=
  | Ok (a : A)
  | Raise (e : exn).
Arguments Ok {A} a.
Arguments Raise {A} e.

#[global] Instance result_ret : MRet result := fun A a => Ok a.
#[global] Instance result_bind : MBind result := fun A B f m =>
  match m with
  | Ok a => f a
  | Raise e => Raise e
  end.

(** [for b in l: s = f(s, b)], stopping at the first exception. *)
Fixpoint foldM {St B : Type} (f : St -> B -> result St) (l : list B) (s : St)
  : result St :=
  match l with
  | [] => Ok s
  | b :: l' => s' ← f s b; foldM f l' s'
  end.

(** Python's [range(n)] and [range(a, b)]. *)
Definition range (n : Z) : list Z := seqZ 0 n.
Definition range2 (a b : Z) : list Z := seqZ a (b - a).

(** ** Arrays *)

(** What the design matrix needs of its entries: the constant one,
    the product, and a power with an integer exponent ([x ** k]). No law is
    assumed of them, so what is proved below of the design matrix holds of
    floating-point entries as well. *)
Class Scalar (A : Type) : Type := {
  sone : A;
  smul : A -> A -> A;
  spow : A -> Z -> A
}.

#[global] Instance Z_scalar : Scalar Z :=
  {| sone := 1; smul := Z.mul; spow := Z.pow |}.

Section Arrays.
Context {A : Type}.

(** A two-dimensional array: [shape = (nrows, ncols)], stored by rows. *)
Record ndarray2 : Type := {
  nrows : nat;
  ncols : nat;
  rows : list (list A)
}.

Definition wf_ndarray2 (X : ndarray2) : Prop :=
  length (rows X) = nrows X /\
  Forall (fun row => length row = ncols X) (rows X).

(** numpy's combination of two one-dimensional shapes: equal lengths
    combine pointwise, a length-one operand is stretched, anything else
    raises. *)
Definition broadcast2 (f : A -> A -> A) (u v : list A) : result (list A) :=
  if decide (length u = length v) then Ok (zip_with f u v)
  else match u, v with
       | [a], _ => Ok (f a <$> v)
       | _, [b] => Ok ((fun a => f a b) <$> u)
       | _, _ => Raise ValueError
       end.

(** The value assigned to a slice of length [n]: of that length, or of
    length one and repeated. *)
Definition broadcast_to (n : nat) (v : list A) : result (list A) :=
  if decide (length v = n) then Ok v
  else match v with
       | [a] => Ok (replicate n a)
       | _ => Raise ValueError
       end.

(** A Python index into an axis of length [n]: negative indices count
    from the end, anything outside [-n, n) raises. *)
Definition norm_index (n : nat) (c : Z) : result nat :=
  if decide (0 <= c < Z.of_nat n) then Ok (Z.to_nat c)
  else if decide (- Z.of_nat n <= c < 0) then Ok (Z.to_nat (c + Z.of_nat n))
  else Raise IndexError.

(** [X[:, c] = v] *)
Definition setcol (X : ndarray2) (c : Z) (v : list A) : result ndarray2 :=
  k ← norm_index (ncols X) c;
  vals ← broadcast_to (nrows X) v;
  Ok {| nrows := nrows X;
        ncols := ncols X;
        rows := zip_with (fun row e => <[k := e]> row) (rows X) vals |}.

(** [X[:, c]] *)
Definition getcol (X : ndarray2) (c : Z) : result (list A) :=
  k ← norm_index (ncols X) c;
  Ok (omap (fun row => row !! k) (rows X)).

Context `{Scalar A}.

(** [np.ones((N, p))]; a negative dimension raises. *)
Definition np_ones (N p : Z) : result ndarray2 :=
  if decide (0 <= N /\ 0 <= p) then
    Ok {| nrows := Z.to_nat N;
          ncols := Z.to_nat p;
          rows := replicate (Z.to_nat N) (replicate (Z.to_nat p) sone) |}
  else Raise ValueError.

(** [x ** k] with an integer [k], elementwise. *)
Definition np_pow (x : list A) (k : Z) : list A := (fun a => spow a k) <$> x.

(** [u * v], elementwise with broadcasting. *)
Definition np_mul (u v : list A) : result (list A) := broadcast2 smul u v.

(** ** [FrankeData.get_number_of_parameters] and
       [FrankeData.generate_design_matrix]

    [int(a / 2)] is a true division followed by a truncation towards
    zero: [Z.quot]. (The division is exact here, and the detour through a
    float is exact as long as the product stays below 2^53.) The methods
    read [self.degree] only, which is passed as [degree]. *)
Definition get_number_of_parameters (degree : Z) : Z :=
  Z.quot ((degree + 1) * (degree + 2)) 2.

Definition generate_design_matrix (degree : Z) (x y : list A)
  : result ndarray2 :=
  let N := Z.of_nat (length x) in
  let p := get_number_of_parameters degree in
  X ← np_ones N p;
  foldM (fun X i =>
    let q := Z.quot ((i + 1) * (i + 2)) 2 in
    foldM (fun X j =>
      col ← np_mul (np_pow x (i - j + 1)) (np_pow y j);
      setcol X (q + j) col)
      (range (i + 2)) X)
    (range degree) X.

(** The product [x^a * y^b] taken pointwise: what one column of the design
  matrix is said to hold. *)
Definition monomial (a b : Z) (x y : list A) : list A :=
  zip_with (fun u v => smul (spow u a) (spow v b)) x y.

End Arrays.
Arguments ndarray2 A : clear implicits.

(** The triangular number the specification gives as the first column of
    level [i]. *)
Definition tri (i : Z) : Z := (i + 1) * (i + 2) / 2.

(** The pairs [(i, j)] the loop nest of [generate_design_matrix] visits, in
    order. *)
Definition visited (degree : Z) : list (Z * Z) :=
  i ← range degree; (fun j => (i, j)) <$> range (i + 2).

(** ** Real-valued arrays

    The arithmetic of [FrankeFunction], written as numpy evaluates it: an
    operation between an array and a number acts on every element, an
    operation between two arrays broadcasts. *)

Open Scope R_scope.

#[global] Instance R_scalar : Scalar R :=
  {| sone := 1; smul := Rmult; spow := powerRZ |}.

Definition np_scale (c : R) (x : list R) : list R := Rmult c <$> x.
Definition np_plus (x : list R) (c : R) : list R := (fun a => a + c) <$> x.
Definition np_minus (x : list R) (c : R) : list R := (fun a => a - c) <$> x.
Definition np_square (x : list R) : list R := (fun a => a ^ 2) <$> x.
Definition np_neg (x : list R) : list R := Ropp <$> x.
Definition np_div_by (x : list R) (c : R) : list R := (fun a => a / c) <$> x.
Definition np_exp (x : list R) : list R := exp <$> x.
Definition np_add (u v : list R) : result (list R) := broadcast2 Rplus u v.
Definition np_sub (u v : list R) : result (list R) := broadcast2 Rminus u v.

(** ** [FrankeData.FrankeFunction] (lines 101-121) *)

Definition FrankeFunction (x y : list R) : result (list R) :=
  e1 ← np_sub (np_neg (np_scale 0.25 (np_square (np_minus (np_scale 9 x) 2))))
              (np_scale 0.25 (np_square (np_minus (np_scale 9 y) 2)));
  let term1 := np_scale 0.75 (np_exp e1) in
  e2 ← np_sub (np_div_by (np_neg (np_square (np_plus (np_scale 9 x) 1))) 49)
              (np_scale 0.1 (np_plus (np_scale 9 y) 1));
  let term2 := np_scale 0.75 (np_exp e2) in
  e3 ← np_sub (np_div_by (np_neg (np_square (np_minus (np_scale 9 x) 7))) 4)
              (np_scale 0.25 (np_square (np_minus (np_scale 9 y) 3)));
  let term3 := np_scale 0.5 (np_exp e3) in
  e4 ← np_sub (np_neg (np_square (np_minus (np_scale 9 x) 4)))
              (np_square (np_minus (np_scale 9 y) 7));
  let term4 := np_scale (-0.2) (np_exp e4) in
  s12 ← np_add term1 term2;
  s123 ← np_add s12 term3;
  np_add s123 term4.

(** The four-term sum as the specification writes it, at one point. *)
Definition franke_formula (x y : R) : R :=
  0.75 * exp (- ((9 * x - 2) ^ 2) / 4 - ((9 * y - 2) ^ 2) / 4)
  + 0.75 * exp (- ((9 * x + 1) ^ 2) / 49 - 0.1 * (9 * y + 1))
  + 0.5 * exp (- ((9 * x - 7) ^ 2) / 4 - ((9 * y - 3) ^ 2) / 4)
  - 0.2 * exp (- ((9 * x - 4) ^ 2) - (9 * y - 7) ^ 2).

(** ** The global random source and the state monad

    [np.random] is a process-wide generator. Its state is threaded
    explicitly; the two draws the code uses are the operations of the
    class. [random_sample] is one draw of [np.random.rand], which numpy
    documents to lie in the half-open interval from 0 to 1;
    [normal_sample loc scale] is one draw of [np.random.normal]. An array
    of draws is filled element by element. *)

Class RandomSource : Type := {
  rng : Type;
  random_sample : rng -> R * rng;
  normal_sample : R -> R -> rng -> R * rng;
  random_sample_range : forall g, 0 <= fst (random_sample g) < 1
}.

Definition M (St A : Type) : Type := St -> result A * St.

#[global] Instance M_ret {St} : MRet (M St) := fun A a s => (Ok a, s).
#[global] Instance M_bind {St} : MBind (M St) := fun A B f m s =>
  match m s with
  | (Ok a, s') => f a s'
  | (Raise e, s') => (Raise e, s')
  end.

(** A computation that does not touch the state. *)
Definition pure {St A} (r : result A) : M St A := fun s => (r, s).

(** [n] successive draws. *)
Fixpoint draws {St} (draw : St -> R * St) (n : nat) (g : St) : list R * St :=
  match n with
  | O => ([], g)
  | S n' => let (a, g1) := draw g in
            let (l, g2) := draws draw n' g1 in
            (a :: l, g2)
  end.

Section Random.
Context `{RandomSource}.

(** [np.random.rand(n)]; a negative size raises. *)
Definition np_random_rand (n : Z) : M rng (list R) := fun g =>
  if decide (0 <= n)%Z
  then let (l, g') := draws random_sample (Z.to_nat n) g in (Ok l, g')
  else (Raise ValueError, g).

(** [np.random.normal(loc, scale, size)] for a one-dimensional size; a
    negative scale raises. *)
Definition np_random_normal (loc scale : R) (size : nat) : M rng (list R) :=
  fun g =>
  if Rlt_dec scale 0 then (Raise ValueError, g)
  else let (l, g') := draws (normal_sample loc scale) size g in (Ok l, g').
End Random.

(** [a.reshape(n, c)]: rows of [c] consecutive elements; raises unless the
    sizes agree. *)
Fixpoint chunks {A} (c : nat) (n : nat) (l : list A) : list (list A) :=
  match n with
  | O => []
  | S n' => take c l :: chunks c n' (drop c l)
  end.

Definition reshape2 {A} (l : list A) (n c : Z) : result (ndarray2 A) :=
  if decide ((0 <= n)%Z /\ (0 <= c)%Z /\ (n * c)%Z = Z.of_nat (length l))
  then Ok {| nrows := Z.to_nat n; ncols := Z.to_nat c;
             rows := chunks (Z.to_nat c) (Z.to_nat n) l |}
  else Raise ValueError.

(** ** Noise (lines 123-161) *)

Definition DEFAULT_NOISE_LEVEL : R := 0.2.

Section Noise.
Context `{RandomSource}.

(** [generate_noise(N, noise_level=DEFAULT_NOISE_LEVEL)]; [N] is the
    shape of a one-dimensional array, an omitted [noise_level] is [None]. *)
Definition generate_noise (N : nat) (noise_level : option R)
  : M rng (list R) :=
  let noise_level := default DEFAULT_NOISE_LEVEL noise_level in
  noise ← np_random_normal 0 noise_level N;
  mret noise.

Definition NoisyFrankeFunction (x y : list R) (noise_level : R)
  : M rng (list R) :=
  noise ← generate_noise (length x) (Some noise_level);
  f ← pure (FrankeFunction x y);
  pure (np_add f noise).
End Noise.

(** ** The base class [Data]

    [data/abstract_data.py] is not among the sources; what [FrankeData]
    uses of it is taken from the specification. *)

(** [np.max(z)]; an empty array raises. *)
Definition np_max (z : list R) : result R :=
  match z with
  | [] => Raise ValueError
  | a :: l => Ok (foldl Rmax a l)
  end.

(** Modelled from the spec: [Data.scale_data] of the missing
    [data/abstract_data.py]; "optional post-hoc rescaling maps outputs by
    [z / max(z)]". Where the maximum is zero the quotient is outside the
    real numbers (numpy yields infinities or NaN); the properties below
    assume a positive maximum where they depend on its value. *)
Definition scale_data (z : list R) : result (list R) :=
  m ← np_max z;
  Ok (np_div_by z m).

(** What a dataset container holds after [store_data]: the train view and,
    when a split was requested, the test view. *)
Record Data : Type := {
  X_train : ndarray2 R;
  z_train : list R;
  X_test : option (ndarray2 R);
  z_test : option (list R)
}.

Record FrankeData : Type := {
  degree : Z;
  data : Data
}.

(** The collaborators outside this code: the splitter used by the base
    class, the regressor and the bootstrap estimator of the sweep (both
    draw from the global random source and may raise; neither is handed
    the file system), the configuration module, and Python's formatting of
    a float. *)
Class Collaborators `{RandomSource} : Type := {
  train_test_split :
    ndarray2 R -> list R -> R -> bool ->
    M rng (ndarray2 R * ndarray2 R * list R * list R);
  regressor : Type;
  OrdinaryLeastSquares : M rng regressor;
  bootstrap_bias_variance :
    regressor -> FrankeData -> Z -> M rng (R * R * R * R);
  DATA_SIZE : Z;
  BIAS_VARIANCE_TEST_SIZE : option R;
  BIAS_VARIANCE_BOOTSTRAP_SIZE : Z;
  float_str : R -> string
}.

Section Franke.
Context `{Collaborators}.

(** Modelled from the spec: [Data.store_data] of the missing
    [data/abstract_data.py]; "if a test fraction is given, partitions
    into train/test; if test fraction is absent, all data is train and
    there is no test view". *)
Definition Data_store_data (X : ndarray2 R) (z : list R)
    (test_size : option R) (stratify : bool) : M rng Data :=
  match test_size with
  | None =>
      mret {| X_train := X; z_train := z; X_test := None; z_test := None |}
  | Some t =>
      '(Xtr, Xte, ztr, zte) ← train_test_split X z t stratify;
      mret {| X_train := Xtr; z_train := ztr;
              X_test := Some Xte; z_test := Some zte |}
  end.

(** [FrankeData.store_data] (lines 52-70); [np.ravel] leaves a
    one-dimensional array as it is. *)
Definition store_data (self_degree : Z) (x y z : list R)
    (test_size : option R) : M rng Data :=
  X ← pure (generate_design_matrix self_degree x y);
  Data_store_data X z test_size false.

(** The keyword arguments of [FrankeData.__init__] and their defaults. *)
Record kwargs : Type := {
  kw_degree : Z;
  kw_random_noise : bool;
  kw_scale_data : bool;
  kw_test_size : option R;
  kw_noise_level : R
}.

Definition default_kwargs : kwargs :=
  {| kw_degree := 1;
     kw_random_noise := true;
     kw_scale_data := true;
     kw_test_size := None;
     kw_noise_level := DEFAULT_NOISE_LEVEL |}.

(** [FrankeData.__init__] (lines 34-50). *)
Definition FrankeData_init (N : Z) (kw : kwargs) : M rng FrankeData :=
  flat ← np_random_rand (N * 2);
  xy ← pure (reshape2 flat N 2);
  x ← pure (getcol xy 0);
  y ← pure (getcol xy 1);
  z ← (if kw_random_noise kw
       then NoisyFrankeFunction x y (kw_noise_level kw)
       else pure (FrankeFunction x y));
  z ← (if kw_scale_data kw then pure (scale_data z) else mret z);
  d ← store_data (kw_degree kw) x y z (kw_test_size kw);
  mret {| degree := kw_degree kw; data := d |}.
End Franke.

(** ** The file system and [write_to_file] (lines 28-34)

    A file system maps a path to the text of the file. Opening with mode
    ["w"] creates or truncates; a write appends. Failures of the operating
    system are outside the model. *)

Open Scope string_scope.

Abbreviation filesystem := (gmap string string).

Definition nl : string := String (Ascii.ascii_of_nat 10) EmptyString.

Definition open_w (path : string) : M filesystem unit :=
  fun fs => (Ok tt, <[path := ""]> fs).

Definition f_write (path s : string) : M filesystem unit :=
  fun fs => (Ok tt, <[path := default "" (fs !! path) +:+ s]> fs).

(** [l[i]] *)
Definition py_index {A} (l : list A) (i : Z) : result A :=
  k ← norm_index (length l) i;
  match l !! k with
  | Some a => Ok a
  | None => Raise IndexError
  end.

(** [for b in l: f(b)] in a stateful computation. *)
Fixpoint forM_ {St B} (l : list B) (f : B -> M St unit) : M St unit :=
  match l with
  | [] => mret tt
  | b :: l' => _ ← f b; forM_ l' f
  end.

(** [for b in l: acc = f(acc, b)] in a stateful computation. *)
Fixpoint foldM_M {St Acc B} (f : Acc -> B -> M St Acc) (l : list B) (acc : Acc)
  : M St Acc :=
  match l with
  | [] => mret acc
  | b :: l' => acc' ← f acc b; foldM_M f l' acc'
  end.

Section WriteToFile.
(** The swept values and the metrics are formatted by an f-string;
    [str_x] and [str_v] are Python's formatting of the two kinds. *)
Context {X V : Type} (str_x : X -> string) (str_v : V -> string).

Definition write_to_file (filename : string) (x : list X)
    (mses_train mses_test biases variances : list V) (x_label : string)
  : M filesystem unit :=
  let f := "output/data/" +:+ filename in
  _ ← open_w f;
  _ ← f_write f (x_label +:+ ",mse_train,mse_test,bias,variance" +:+ nl);
  forM_ (range (Z.of_nat (length x))) (fun i =>
    xi ← pure (py_index x i);
    a ← pure (py_index mses_train i);
    b ← pure (py_index mses_test i);
    c ← pure (py_index biases i);
    d ← pure (py_index variances i);
    f_write f (str_x xi +:+ "," +:+ str_v a +:+ "," +:+ str_v b +:+ ","
               +:+ str_v c +:+ "," +:+ str_v d +:+ nl)).

(** The table as the specification describes it: a header line, then
    one line per swept value. *)
Definition header_line (x_label : string) : string :=
  x_label +:+ ",mse_train,mse_test,bias,variance" +:+ nl.

Definition row_line (xi : X) (a b c d : V) : string :=
  str_x xi +:+ "," +:+ str_v a +:+ "," +:+ str_v b +:+ ","
  +:+ str_v c +:+ "," +:+ str_v d +:+ nl.

Fixpoint table_rows (x : list X) (mses_train mses_test biases variances : list V)
  : list string :=
  match x, mses_train, mses_test, biases, variances with
  | xi :: x', a :: l1, b :: l2, c :: l3, d :: l4 =>
      row_line xi a b c d :: table_rows x' l1 l2 l3 l4
  | _, _, _, _, _ => []
  end.

Definition table_text (x_label : string) (x : list X)
    (mses_train mses_test biases variances : list V) : string :=
  header_line x_label
  +:+ foldr String.append "" (table_rows x mses_train mses_test biases variances).
End WriteToFile.

(** ** The sweep driver [bias_variance_analysis_ols] (lines 37-62) *)

Section Sweep.
Context `{Collaborators}.

(** The state of a run: the global random source and the file system. *)
Record world : Type := {
  w_rng : rng;
  w_fs : filesystem
}.

Definition lift_rng {A} (m : M rng A) : M world A := fun w =>
  let (r, g) := m (w_rng w) in (r, {| w_rng := g; w_fs := w_fs w |}).

Definition lift_fs {A} (m : M filesystem A) : M world A := fun w =>
  let (r, fs) := m (w_fs w) in (r, {| w_rng := w_rng w; w_fs := fs |}).

(** The four lists the loop appends to, in the order of line 38. *)
Definition accumulators : Type := list R * list R * list R * list R.

(** The keyword arguments of the call on lines 42-44: [degree] and
    [test_size] are given, the others keep their defaults. *)
Definition ols_kwargs (degree : Z) : kwargs :=
  {| kw_degree := degree;
     kw_random_noise := kw_random_noise default_kwargs;
     kw_scale_data := kw_scale_data default_kwargs;
     kw_test_size := BIAS_VARIANCE_TEST_SIZE;
     kw_noise_level := kw_noise_level default_kwargs |}.

(** The body of the loop (lines 42-51). *)
Definition ols_step (acc : accumulators) (degree : Z) : M world accumulators :=
  let '(mses_train, mses_test, biases, variances) := acc in
  data ← lift_rng (FrankeData_init DATA_SIZE (ols_kwargs degree));
  reg ← lift_rng OrdinaryLeastSquares;
  '(bias, variance, mse_train, mse_test) ←
    lift_rng (bootstrap_bias_variance reg data BIAS_VARIANCE_BOOTSTRAP_SIZE);
  mret ((mses_train ++ [mse_train])%list, (mses_test ++ [mse_test])%list,
        (biases ++ [bias])%list, (variances ++ [variance])%list).

Definition bias_variance_analysis_ols : M world unit :=
  let degrees := range2 1 16 in
  '(mses_train, mses_test, biases, variances) ←
    foldM_M ols_step degrees ([], [], [], []);
  lift_fs (write_to_file pretty float_str "bias_variance_ols.csv" degrees
             mses_train mses_test biases variances "degree").
End Sweep.

(** ** The sweep, call by call *)

(** A sequence of calls of [f], one per element of the list and in its
    order, each starting in the state the previous one left. *)
Fixpoint mapM_M {St A B} (f : A -> M St B) (l : list A) : M St (list B) :=
  match l with
  | [] => mret []
  | a :: l' => b ← f a; bs ← mapM_M f l'; mret (b :: bs)
  end.

Inductive runs {St A B} (f : A -> M St B)
  : list A -> St -> list B -> St -> Prop :=
  | runs_nil (s : St) : runs f [] s [] s
  | runs_cons (a : A) (l : list A) (s s1 s2 : St) (b : B) (bs : list B) :
      f a s = (Ok b, s1) -> runs f l s1 bs s2 ->
      runs f (a :: l) s (b :: bs) s2.

Section Estimate.
Context `{Collaborators}.

(** One pass of the loop of [bias_variance_analysis_ols] up to the call
    of the estimator (lines 42-47): the dataset, the regressor, the
    estimate. *)
Definition estimate (degree : Z) : M rng (R * R * R * R) :=
  data ← FrankeData_init DATA_SIZE (ols_kwargs degree);
  reg ← OrdinaryLeastSquares;
  bootstrap_bias_variance reg data BIAS_VARIANCE_BOOTSTRAP_SIZE.
End Estimate.

(** The four scalars of an estimate, in the order the estimator returns
    them. *)
Definition bias_of (r : R * R * R * R) : R := r.1.1.1.
Definition variance_of (r : R * R * R * R) : R := r.1.1.2.
Definition mse_train_of (r : R * R * R * R) : R := r.1.2.
Definition mse_test_of (r : R * R * R * R) : R := r.2.

(** ** Notions the properties are stated with *)

Open Scope R_scope.

(** [np.min(z)] *)
Definition np_min (z : list R) : result R :=
  match z with
  | [] => Raise ValueError
  | a :: l => Ok (foldl Rmin a l)
  end.

(** A min-max normalisation, which the rescaling is said not to be. *)
Definition minmax_normalize (lo hi : R) (z : list R) : list R :=
  (fun a => (a - lo) / (hi - lo)) <$> z.

(** [np.mean] and [np.std] (the population standard deviation). *)
Definition np_sum (l : list R) : R := foldr Rplus 0 l.
Definition np_mean (l : list R) : R := np_sum l / INR (length l).
Definition np_var (l : list R) : R :=
  np_mean ((fun a => (a - np_mean l) ^ 2) <$> l).
Definition np_std (l : list R) : R := sqrt (np_var l).

(** A random source that replays a tape: a uniform draw is the next entry
    (0 where the entry lies outside the unit interval or the tape has run
    out), a normal draw is [loc + scale * entry]. *)
Definition clamp01 (u : R) : R :=
  if Rle_dec 0 u then (if Rlt_dec u 1 then u else 0) else 0.

Definition tape_pop (t : list R) : R * list R :=
  match t with
  | [] => (0, [])
  | h :: t' => (h, t')
  end.

Lemma clamp01_range (u : R) : 0 <= clamp01 u < 1.
Proof. unfold clamp01. destruct (Rle_dec 0 u), (Rlt_dec u 1); lra. Qed.

Definition tape_source : RandomSource :=
  {| rng := list R;
     random_sample := fun t => (clamp01 (tape_pop t).1, (tape_pop t).2);
     normal_sample := fun loc scale t =>
       (loc + scale * (tape_pop t).1, (tape_pop t).2);
     random_sample_range := fun t => clamp01_range (tape_pop t).1 |}.

(** Collaborators for examples: a splitter that hands everything to both
    views, and an estimator that reports the degree of the dataset it was
    given and raises on degree [bad]. *)
Definition toy_collaborators `{RandomSource} (bad : Z) (size : Z)
  : Collaborators :=
  {| train_test_split := fun X z _ _ => mret (X, X, z, z);
     regressor := unit;
     OrdinaryLeastSquares := mret tt;
     bootstrap_bias_variance := fun _ d _ =>
       if decide (degree d = bad) then pure (Raise (External 0))
       else mret (IZR (degree d), 0, 0, 0);
     DATA_SIZE := size;
     BIAS_VARIANCE_TEST_SIZE := None;
     BIAS_VARIANCE_BOOTSTRAP_SIZE := 1;
     float_str := fun _ => "r"%string |}.

Close Scope R_scope.

(** ** The other sweeps and [main] (lines 65-162)

    The three remaining sweeps build one dataset before the loop and a
    fresh regressor per swept value. The regressors are scikit-learn's;
    their constructors are collaborators like the estimator. The
    [hidden_layer_sizes] argument is a generator expression, handed over
    as the sequence it yields. [tqdm] iterates over the list it wraps. *)

Open Scope Z_scope.

(** Python's [range(a, b, s)]; a zero step raises. *)
Definition range3 (a b s : Z) : result (list Z) :=
  if decide (s = 0) then Raise ValueError
  else Ok ((fun k => a + k * s) <$>
           seqZ 0 (if decide (0 < s) then (b - a + s - 1) / s
                   else (a - b - s - 1) / (- s))).

Class SklearnModels `{Collaborators} : Type := {
  MLPRegressor : list Z -> Z -> M rng regressor;
  GradientBoostingRegressor : Z -> M rng regressor
}.

Section OtherSweeps.
Context `{SklearnModels}.

(** The keyword arguments of [FrankeData(config.DATA_SIZE,
    test_size=config.BIAS_VARIANCE_TEST_SIZE)]. *)
Definition shared_kwargs : kwargs :=
  {| kw_degree := kw_degree default_kwargs;
     kw_random_noise := kw_random_noise default_kwargs;
     kw_scale_data := kw_scale_data default_kwargs;
     kw_test_size := BIAS_VARIANCE_TEST_SIZE;
     kw_noise_level := kw_noise_level default_kwargs |}.

(** Lines 65-90. *)
Definition bias_variance_analysis_mlp_layer_size : M world unit :=
  data ← lift_rng (FrankeData_init DATA_SIZE shared_kwargs);
  layer_sizes ← pure (range3 10 100 10);
  '(mses_train, mses_test, biases, variances) ←
    foldM_M (fun (acc : accumulators) layer_size =>
      let '(mses_train, mses_test, biases, variances) := acc in
      reg ← lift_rng (MLPRegressor
               ((fun _ => layer_size) <$> range 3) 1000);
      '(bias, variance, mse_train, mse_test) ←
        lift_rng (bootstrap_bias_variance reg data BIAS_VARIANCE_BOOTSTRAP_SIZE);
      mret ((mses_train ++ [mse_train])%list, (mses_test ++ [mse_test])%list,
            (biases ++ [bias])%list, (variances ++ [variance])%list))
      layer_sizes ([], [], [], []);
  lift_fs (write_to_file pretty float_str "bias_variance_mlp_layer_size.csv"
             layer_sizes mses_train mses_test biases variances "layer size").

(** Lines 93-118. *)
Definition bias_variance_analysis_mlp_number_of_layers : M world unit :=
  data ← lift_rng (FrankeData_init DATA_SIZE shared_kwargs);
  let number_of_layers_list := range2 1 6 in
  '(mses_train, mses_test, biases, variances) ←
    foldM_M (fun (acc : accumulators) number_of_layers =>
      let '(mses_train, mses_test, biases, variances) := acc in
      reg ← lift_rng (MLPRegressor
               ((fun _ => 50) <$> range number_of_layers) 1000);
      '(bias, variance, mse_train, mse_test) ←
        lift_rng (bootstrap_bias_variance reg data BIAS_VARIANCE_BOOTSTRAP_SIZE);
      mret ((mses_train ++ [mse_train])%list, (mses_test ++ [mse_test])%list,
            (biases ++ [bias])%list, (variances ++ [variance])%list))
      number_of_layers_list ([], [], [], []);
  lift_fs (write_to_file pretty float_str
             "bias_variance_mlp_number_of_layers.csv"
             number_of_layers_list mses_train mses_test biases variances
             "number of layers").

(** Lines 121-124. *)
Definition bias_variance_analysis_mlp : M world unit :=
  _ ← bias_variance_analysis_mlp_layer_size;
  bias_variance_analysis_mlp_number_of_layers.

(** Lines 127-153. *)
Definition bias_variance_analysis_ensamble : M world unit :=
  data ← lift_rng (FrankeData_init DATA_SIZE shared_kwargs);
  let depths := range2 1 11 in
  '(mses_train, mses_test, biases, variances) ←
    foldM_M (fun (acc : accumulators) depth =>
      let '(mses_train, mses_test, biases, variances) := acc in
      reg ← lift_rng (GradientBoostingRegressor depth);
      '(bias, variance, mse_train, mse_test) ←
        lift_rng (bootstrap_bias_variance reg data BIAS_VARIANCE_BOOTSTRAP_SIZE);
      mret ((mses_train ++ [mse_train])%list, (mses_test ++ [mse_test])%list,
            (biases ++ [bias])%list, (variances ++ [variance])%list))
      depths ([], [], [], []);
  lift_fs (write_to_file pretty float_str "bias_variance_ensamble.csv"
             depths mses_train mses_test biases variances "depth").

(** A process: what it has printed, and the world. *)
Record process : Type := {
  p_stdout : string;
  p_world : world
}.

(** [print(s)] *)
Definition print (s : string) : M process unit := fun p =>
  (Ok tt, {| p_stdout := p_stdout p +:+ s +:+ nl; p_world := p_world p |}).

Definition lift_world {A} (m : M world A) : M process A := fun p =>
  let (r, w) := m (p_world p) in (r, {| p_stdout := p_stdout p; p_world := w |}).

(** Lines 156-161; the other two sweeps are commented out. *)
Definition main : M process unit :=
  _ ← print ("Running with boostrap size: "
             +:+ pretty BIAS_VARIANCE_BOOTSTRAP_SIZE);
  lift_world bias_variance_analysis_ols.

(** One call of the estimator on a dataset shared by the whole sweep,
    with the regressor [make v] builds for the swept value [v]. *)
Definition estimate_on (data : FrankeData) (make : Z -> M rng regressor)
    (v : Z) : M rng (R * R * R * R) :=
  reg ← make v;
  bootstrap_bias_variance reg data BIAS_VARIANCE_BOOTSTRAP_SIZE.
(** The outcome of such a sweep, in terms of the dataset and of the
    sequence of estimates. *)
Definition shared_outcome (make : Z -> M rng regressor) (values : list Z)
    (filename x_label : string) (w : world) : result unit * world :=
  match FrankeData_init DATA_SIZE shared_kwargs (w_rng w) with
  | (Ok data, g1) =>
      match mapM_M (estimate_on data make) values g1 with
      | (Ok rs, g') =>
          (Ok tt,
           {| w_rng := g';
              w_fs := <["output/data/" +:+ filename :=
                        table_text pretty float_str x_label values
                          (mse_train_of <$> rs) (mse_test_of <$> rs)
                          (bias_of <$> rs) (variance_of <$> rs)]> (w_fs w) |})
      | (Raise e, g') => (Raise e, {| w_rng := g'; w_fs := w_fs w |})
      end
  | (Raise e, g1) => (Raise e, {| w_rng := g1; w_fs := w_fs w |})
  end.

(** What is said of a sweep [run] over [values] that shares one dataset:
    the dataset is built first, from the state at entry; then comes one
    call of the estimator per value, in order, on that dataset; the table
    is written last. If anything raises, no file has changed. *)
Definition shared_sweep_spec (run : M world unit)
    (make : Z -> M rng regressor) (values : list Z)
    (filename x_label : string) : Prop :=
  forall w : world,
    (forall e w', run w = (Raise e, w') -> w_fs w' = w_fs w) /\
    (forall e g1,
       FrankeData_init DATA_SIZE shared_kwargs (w_rng w) = (Raise e, g1) ->
       run w = (Raise e, {| w_rng := g1; w_fs := w_fs w |})) /\
    (forall data g1,
       FrankeData_init DATA_SIZE shared_kwargs (w_rng w) = (Ok data, g1) ->
       (forall rs g2,
          runs (estimate_on data make) values g1 rs g2 ->
          run w
          = (Ok tt,
             {| w_rng := g2;
                w_fs := <["output/data/" +:+ filename :=
                          table_text pretty float_str x_label values
                            (mse_train_of <$> rs) (mse_test_of <$> rs)
                            (bias_of <$> rs) (variance_of <$> rs)]> (w_fs w) |})
          /\ length (table_rows pretty float_str values
                       (mse_train_of <$> rs) (mse_test_of <$> rs)
                       (bias_of <$> rs) (variance_of <$> rs))
             = length values) /\
       (forall pre v post rs g2 e g3,
          values = (pre ++ v :: post)%list ->
          runs (estimate_on data make) pre g1 rs g2 ->
          estimate_on data make v g2 = (Raise e, g3) ->
          run w = (Raise e, {| w_rng := g3; w_fs := w_fs w |}))).
End OtherSweeps.

(** Regressor constructors for examples: they build the one regressor
    [toy_collaborators] knows. *)
Definition toy_models `{RandomSource} (bad size : Z)
  : @SklearnModels _ (toy_collaborators bad size) :=
  {| MLPRegressor := fun _ _ g => (Ok (tt : @regressor _ (toy_collaborators bad size)), g);
     GradientBoostingRegressor := fun _ g => (Ok (tt : @regressor _ (toy_collaborators bad size)), g) |}.

(** ** [FallData.create_csv] (src/data/fall.py, lines 90-122)

    The method lists a directory, pairs the file names of the "fall" and
    of the "adl" recordings by their two-digit number, and writes the
    pairs, shuffled, to [fall_labels.csv] in that directory. It does not
    use [self]. *)

(** Python's module-level generator of [random]: [random.seed(k)] with an
    integer sets a state that depends on [k] only, [random.shuffle]
    rearranges a list in place. *)
Class PyRandom : Type := {
  py_random : Type;
  seed_state : Z -> py_random;
  shuffle : forall {A : Type}, list A -> py_random -> list A * py_random;
  shuffle_Permutation : forall A (l : list A) s, (shuffle l s).1 ≡ₚ l
}.

(** [os.listdir]: the names in a directory, in the order the operating
    system gives them, or the exception it raises. *)
Class OperatingSystem : Type := {
  os_listdir : string -> filesystem -> result (list string)
}.

(** [s.endswith(suffix)] *)
Fixpoint endswith (s suffix : string) : bool :=
  String.eqb s suffix ||
  match s with
  | "" => false
  | String _ s' => endswith s' suffix
  end.

(** [os.path.join(a, b)] of [posixpath]. *)
Definition os_path_join (a b : string) : string :=
  if String.prefix "/" b then b
  else if String.eqb a "" || endswith a "/" then a +:+ b
  else a +:+ "/" +:+ b.

(** [sub in s] *)
Fixpoint contains (sub s : string) : bool :=
  String.prefix sub s ||
  match s with
  | "" => false
  | String _ s' => contains sub s'
  end.

(** [f"{n:02d}"] *)
Definition format_02d (n : Z) : string :=
  let s := pretty n in
  if (String.length s <? 2)%nat then "0" +:+ s else s.

(** [sorted] on strings, which Python compares by code points. *)
Fixpoint insort (s : string) (l : list string) : list string :=
  match l with
  | [] => [s]
  | h :: t => if String.leb s h then s :: l else h :: insort s t
  end.

Definition sorted (l : list string) : list string := foldr insort [] l.

(** [str(b)] *)
Definition str_bool (b : bool) : string := if b then "True" else "False".

(** The rows built by the two nested loops of lines 106-114. *)
Definition csv_lines (all_files : list string) : list (list string) :=
  filter_name ← ["fall"; "adl"];
  let files := filter (fun f => String.prefix filter_name f) all_files in
  (fun i =>
     (sorted (filter (fun file => contains (format_02d (i + 1)) file)
                files)
      ++ [str_bool (String.eqb filter_name "fall")])%list)
  <$> range (Z.of_nat (length files) / 2).

Section CreateCsv.
Context `{PyRandom} `{OperatingSystem}.

Record fall_world : Type := {
  fw_random : py_random;
  fw_fs : filesystem
}.

Definition random_seed_call (k : Z) : M fall_world unit := fun w =>
  (Ok tt, {| fw_random := seed_state k; fw_fs := fw_fs w |}).

Definition random_shuffle {A} (l : list A) : M fall_world (list A) := fun w =>
  let '(l', s) := shuffle l (fw_random w) in
  (Ok l', {| fw_random := s; fw_fs := fw_fs w |}).

Definition listdir (path : string) : M fall_world (list string) := fun w =>
  (os_listdir path (fw_fs w), w).

Definition lift_file {A} (m : M filesystem A) : M fall_world A := fun w =>
  let '(r, fs) := m (fw_fs w) in
  (r, {| fw_random := fw_random w; fw_fs := fs |}).

(** [random_seed] is [None] or an integer; the default is [42]. *)
Definition create_csv (filepath : string) (random_seed : option Z)
  : M fall_world unit :=
  _ ← match random_seed with
      | Some k => if decide (k = 0) then mret tt else random_seed_call k
      | None => mret tt
      end;
  all_files ← listdir filepath;
  let lines := csv_lines all_files in
  let f := os_path_join filepath "fall_labels.csv" in
  _ ← lift_file (open_w f);
  _ ← lift_file (f_write f ("filename_x,filename_y,isfall" +:+ nl));
  lines ← random_shuffle lines;
  forM_ lines (fun line => lift_file (f_write f (String.concat "," line +:+ nl))).

(** The text of the rows, in the order given. *)
Definition csv_text (lines : list (list string)) : string :=
  foldr String.append ""
    ((fun line => String.concat "," line +:+ nl) <$> lines).
End CreateCsv.

(** A generator for examples: the state is a counter, an even state leaves
    the list as it is and an odd one reverses it. *)
Lemma toy_shuffle_Permutation {A} (l : list A) (s : Z) :
  (if Z.even s then l else reverse l) ≡ₚ l.
Proof. destruct (Z.even s); [done|apply reverse_Permutation]. Qed.

Definition toy_random : PyRandom :=
  {| py_random := Z;
     seed_state := fun k => k;
     shuffle := fun A l s => (if Z.even s then l else reverse l, s + 1);
     shuffle_Permutation := fun A l s => toy_shuffle_Permutation l s |}.

(** An operating system for examples: the directories are given by a table,
    a path outside it raises (errno 2). *)
Definition toy_os (dirs : gmap string (list string)) : OperatingSystem :=
  {| os_listdir := fun path _ =>
       match dirs !! path with
       | Some names => Ok names
       | None => Raise (External 2)
       end |}.

(** A directory listing for examples. *)
Definition example_dir : list string :=
  ["fall-01-cam0-rgb"; "adl-01-cam0-rgb"; "fall-01-cam0-d"; "notes.txt";
   "adl-01-cam0-d"; "fall-02-cam0-rgb"; "fall-02-cam0-d"].

Close Scope Z_scope.

(** * Properties *)

Open Scope Z_scope.

(** ** Loops *)

Lemma foldM_app {St B} (f : St -> B -> result St) (l1 l2 : list B) (s : St) :
  foldM f (l1 ++ l2)%list s = (s' ← foldM f l1 s; foldM f l2 s').
Proof.
  revert s. induction l1 as [|b l1 IH]; intros s; simpl; [done|].
  destruct (f s b) as [s'|e]; simpl; [apply IH | done].
Qed.

Lemma foldM_ext {St B} (f g : St -> B -> result St) (l : list B) (s : St) :
  (forall s b, b ∈ l -> f s b = g s b) -> foldM f l s = foldM g l s.
Proof.
  revert s. induction l as [|b l IH]; intros s Hfg; simpl; [done|].
  rewrite Hfg by left.
  destruct (g s b) as [s'|e]; simpl; [|done].
  apply IH. intros s0 b0 Hb0. apply Hfg. by right.
Qed.

Lemma foldM_fmap {St B C} (f : St -> C -> result St) (h : B -> C)
    (l : list B) (s : St) :
  foldM f (h <$> l) s = foldM (fun s b => f s (h b)) l s.
Proof.
  revert s. induction l as [|b l IH]; intros s; simpl; [done|].
  destruct (f s (h b)) as [s'|e]; simpl; [apply IH | done].
Qed.

(** A loop nest is one loop over the pairs of indices it visits. *)
Lemma foldM_nested {St B C} (f : St -> B -> C -> result St) (inner : B -> list C)
    (l : list B) (s : St) :
  foldM (fun s b => foldM (fun s c => f s b c) (inner b) s) l s
  = foldM (fun s bc => f s bc.1 bc.2)
          (b ← l; (fun c => (b, c)) <$> inner b) s.
Proof.
  revert s. induction l as [|b l IH]; intros s; simpl; [done|].
  rewrite foldM_app, foldM_fmap. simpl.
  destruct (foldM _ (inner b) s) as [s'|e]; simpl; [apply IH | done].
Qed.

(** ** The triangular numbering of the columns *)

Lemma quot_tri (i : Z) : -2 <= i -> Z.quot ((i + 1) * (i + 2)) 2 = tri i.
Proof.
  intros Hi. unfold tri. apply Z.quot_div_nonneg; [nia | lia].
Qed.

Lemma tri_double (i : Z) : 2 * tri i = (i + 1) * (i + 2).
Proof.
  unfold tri.
  assert (Hev : ((i + 1) * (i + 2)) mod 2 = 0).
  { rewrite Z.mul_mod by lia.
    assert (Hc : i mod 2 = 0 \/ i mod 2 = 1)
      by (pose proof (Z.mod_pos_bound i 2); lia).
    destruct Hc as [Hc|Hc].
    - replace ((i + 2) mod 2) with 0; [by rewrite Z.mul_0_r|].
      rewrite <- (Z.mul_1_l 2) at 1. rewrite Z.mod_add by lia. lia.
    - replace ((i + 1) mod 2) with 0; [done|].
      rewrite Z.add_mod by lia. rewrite Hc. done. }
  pose proof (Z.div_mod ((i + 1) * (i + 2)) 2). lia.
Qed.

Lemma tri_succ (i : Z) : tri (i + 1) = tri i + i + 2.
Proof.
  pose proof (tri_double i). pose proof (tri_double (i + 1)). nia.
Qed.

Lemma tri_mono (i i' : Z) : -1 <= i -> i < i' -> tri i + i + 2 <= tri i'.
Proof.
  intros Hi Hlt.
  pose proof (tri_double i). pose proof (tri_double i'). nia.
Qed.

Lemma range_snoc (n : Z) : 0 <= n -> range (n + 1) = (range n ++ [n])%list.
Proof.
  intros Hn. unfold range. rewrite seqZ_app by lia. simpl.
  f_equal.
Qed.

Lemma visited_snoc (d : Z) :
  0 <= d ->
  visited (d + 1) = (visited d ++ ((fun j => (d, j)) <$> range (d + 2)))%list.
Proof.
  intros Hd. unfold visited. rewrite range_snoc by done.
  rewrite bind_app. simpl. by rewrite app_nil_r.
Qed.

(** The columns written are 1, 2, ..., p - 1, each once and in this order. *)
Lemma visited_columns (d : Z) :
  0 <= d ->
  (fun ij => tri ij.1 + ij.2) <$> visited d = seqZ 1 (tri d - 1).
Proof.
  intros Hd. pattern d. apply natlike_ind; [| |done]; clear d Hd.
  - reflexivity.
  - intros d Hd IH. change (Z.succ d) with (d + 1).
    rewrite visited_snoc by done. rewrite fmap_app, IH.
    rewrite <- list_fmap_compose. simpl.
    assert (Ht : 1 <= tri d) by (pose proof (tri_double d); nia).
    replace (tri (d + 1) - 1) with ((tri d - 1) + (d + 2))
      by (rewrite tri_succ; lia).
    rewrite seqZ_app by lia. f_equal.
    replace (1 + (tri d - 1)) with (tri d + 0) by lia.
    rewrite <- (fmap_add_seqZ (tri d) 0). done.
Qed.

Lemma elem_of_visited (d i j : Z) :
  (i, j) ∈ visited d <-> 0 <= i < d /\ 0 <= j <= i + 1.
Proof.
  unfold visited. rewrite list_elem_of_bind. split.
  - intros (i' & Hj & Hi). apply list_elem_of_fmap in Hj as (j' & Heq & Hj).
    inversion Heq; subst. unfold range in *.
    apply elem_of_seqZ in Hj, Hi. lia.
  - intros [Hi Hj]. exists i. unfold range. split.
    + apply list_elem_of_fmap. exists j. split; [done|]. apply elem_of_seqZ. lia.
    + apply elem_of_seqZ. lia.
Qed.

(** ** Column assignment *)

Section ArrayFacts.
Context {A : Type}.
Implicit Types (X : ndarray2 A) (v : list A) (c : Z).

Lemma norm_index_in_range (n : nat) c :
  0 <= c < Z.of_nat n -> norm_index n c = Ok (Z.to_nat c).
Proof. intros Hc. unfold norm_index. by rewrite decide_True. Qed.

Lemma broadcast_to_same (n : nat) v :
  length v = n -> broadcast_to n v = Ok v.
Proof. intros Hv. unfold broadcast_to. by rewrite decide_True. Qed.

Lemma broadcast2_same (f : A -> A -> A) (u v : list A) :
  length u = length v -> broadcast2 f u v = Ok (zip_with f u v).
Proof. intros Huv. unfold broadcast2. by rewrite decide_True. Qed.

Lemma omap_lookup_insert_eq (k : nat) (rs : list (list A)) v :
  length rs = length v ->
  Forall (fun row => (k < length row)%nat) rs ->
  omap (fun row => row !! k) (zip_with (fun row e => <[k := e]> row) rs v) = v.
Proof.
  revert v. induction rs as [|row rs IH]; intros [|e v] Hlen Hrs;
    simplify_eq/=; [done|].
  apply Forall_cons in Hrs as [Hrow Hrs].
  rewrite list_lookup_insert_eq by done. f_equal. by apply IH.
Qed.

Lemma omap_lookup_insert_ne (k k' : nat) (rs : list (list A)) v :
  length rs = length v -> k <> k' ->
  omap (fun row => row !! k') (zip_with (fun row e => <[k := e]> row) rs v)
  = omap (fun row => row !! k') rs.
Proof.
  revert v. induction rs as [|row rs IH]; intros [|e v] Hlen Hne;
    simplify_eq/=; [done|].
  rewrite list_lookup_insert_ne by done.
  rewrite (IH v) by done. done.
Qed.

Lemma setcol_spec X c v :
  wf_ndarray2 X -> 0 <= c < Z.of_nat (ncols X) -> length v = nrows X ->
  exists X', setcol X c v = Ok X' /\ wf_ndarray2 X' /\
    nrows X' = nrows X /\ ncols X' = ncols X /\
    getcol X' c = Ok v /\
    (forall c', 0 <= c' < Z.of_nat (ncols X) -> c' <> c ->
                getcol X' c' = getcol X c').
Proof.
  intros [Hrows Hcols] Hc Hv. unfold setcol.
  rewrite norm_index_in_range by done. simpl.
  rewrite broadcast_to_same by done. simpl.
  eexists. split; [done|]. unfold wf_ndarray2, getcol; simpl.
  repeat split.
  - rewrite length_zip_with. lia.
  - clear Hrows Hv. revert v. induction Hcols as [|row rs Hrow _ IH];
      intros [|e v]; simpl; constructor.
    + by rewrite length_insert.
    + apply IH.
  - rewrite norm_index_in_range by done. simpl. f_equal.
    apply omap_lookup_insert_eq; [congruence|].
    eapply Forall_impl; [exact Hcols|]. simpl. intros row ->. lia.
  - intros c' Hc' Hne. rewrite norm_index_in_range by done. simpl. f_equal.
    apply omap_lookup_insert_ne; [congruence | lia].
Qed.

(** A sequence of assignments to distinct columns in range: it succeeds,
    every column written holds what was written to it, and the others
    are as before. *)
Lemma foldM_setcol (ws : list (Z * list A)) X :
  wf_ndarray2 X ->
  Forall (fun w => 0 <= w.1 < Z.of_nat (ncols X) /\ length w.2 = nrows X) ws ->
  NoDup (ws.*1) ->
  exists X', foldM (fun X w => setcol X w.1 w.2) ws X = Ok X' /\
    wf_ndarray2 X' /\ nrows X' = nrows X /\ ncols X' = ncols X /\
    (forall w, w ∈ ws -> getcol X' w.1 = Ok w.2) /\
    (forall c, 0 <= c < Z.of_nat (ncols X) -> c ∉ ws.*1 ->
               getcol X' c = getcol X c).
Proof.
  revert X. induction ws as [|[c0 v0] ws IH]; intros X Hwf Hws Hnd.
  - exists X. simpl. repeat split; try done; try apply Hwf.
    intros w Hw. by apply elem_of_nil in Hw.
  - apply Forall_cons in Hws as [[Hc0 Hv0] Hws]. simpl in *.
    apply NoDup_cons in Hnd as [Hc0' Hnd].
    destruct (setcol_spec X c0 v0) as (X1 & -> & Hwf1 & Hn1 & Hp1 & Hg1 & Ho1);
      [done..|].
    simpl.
    destruct (IH X1) as (X' & -> & Hwf' & Hn' & Hp' & Hg' & Ho');
      [done| |done|].
    { eapply Forall_impl; [exact Hws|]. simpl. intros w. rewrite Hp1, Hn1. done. }
    exists X'. repeat split; try apply Hwf'; try congruence.
    + intros w Hw. apply elem_of_cons in Hw as [->|Hw]; [|by apply Hg'].
      simpl. rewrite Ho' by (rewrite ?Hp1; done). done.
    + intros c Hc Hnot. apply not_elem_of_cons in Hnot as [Hne Hnot].
      rewrite Ho' by (rewrite ?Hp1; done). by apply Ho1.
Qed.

Context `{Scalar A}.

Lemma np_ones_spec (N : nat) (p : Z) :
  0 <= p ->
  exists X, np_ones (Z.of_nat N) p = Ok X /\ wf_ndarray2 X /\
    nrows X = N /\ ncols X = Z.to_nat p /\
    rows X = replicate N (replicate (Z.to_nat p) sone) /\
    (forall c, 0 <= c < p -> getcol X c = Ok (replicate N sone)).
Proof.
  intros Hp. unfold np_ones. rewrite decide_True by lia.
  eexists. split; [done|]. unfold wf_ndarray2, getcol; simpl.
  rewrite Nat2Z.id. repeat split.
  - by rewrite length_replicate.
  - apply Forall_replicate. by rewrite length_replicate.
  - intros c Hc. rewrite norm_index_in_range by lia. simpl. f_equal.
    clear Hp. induction N as [|N IH]; simpl; [done|].
    rewrite lookup_replicate_2 by lia. simpl. by f_equal.
Qed.

Lemma np_mul_pow (x y : list A) (a b : Z) :
  length x = length y ->
  np_mul (np_pow x a) (np_pow y b) = Ok (monomial a b x y).
Proof.
  intros Hxy. unfold np_mul, np_pow, monomial.
  rewrite broadcast2_same by (by rewrite !length_fmap).
  f_equal. by rewrite zip_with_fmap_l, zip_with_fmap_r.
Qed.

Lemma length_monomial (a b : Z) (x y : list A) :
  length x = length y -> length (monomial a b x y) = length x.
Proof. intros Hxy. unfold monomial. rewrite length_zip_with. lia. Qed.

(** The design matrix of equal-length arrays, for any degree from 0. *)
Lemma generate_design_matrix_spec (degree : Z) (x y : list A) :
  length x = length y -> 0 <= degree ->
  exists X, generate_design_matrix degree x y = Ok X /\
    wf_ndarray2 X /\ nrows X = length x /\
    Z.of_nat (ncols X) = tri degree /\
    getcol X 0 = Ok (replicate (length x) sone) /\
    (forall i j, 0 <= i < degree -> 0 <= j <= i + 1 ->
       getcol X (tri i + j) = Ok (monomial (i - j + 1) j x y)).
Proof.
  intros Hxy Hd. unfold generate_design_matrix, get_number_of_parameters.
  rewrite quot_tri by lia.
  assert (Hp : 1 <= tri degree) by (pose proof (tri_double degree); nia).
  destruct (np_ones_spec (length x) (tri degree))
    as (X0 & -> & Hwf0 & Hn0 & Hp0 & _ & Hones); [lia|]. simpl.
  rewrite (foldM_nested
    (fun X i j => col ← np_mul (np_pow x (i - j + 1)) (np_pow y j);
                  setcol X (Z.quot ((i + 1) * (i + 2)) 2 + j) col)
    (fun i => range (i + 2))).
  fold (visited degree).
  pose (w := fun ij : Z * Z => (tri ij.1 + ij.2, monomial (ij.1 - ij.2 + 1) ij.2 x y)).
  rewrite (foldM_ext _ (fun X ij => setcol X (w ij).1 (w ij).2)).
  2:{ intros X [i j] Hij. apply elem_of_visited in Hij. simpl.
      rewrite np_mul_pow by done. simpl. rewrite quot_tri by lia. done. }
  rewrite <- (foldM_fmap (fun X w => setcol X w.1 w.2) w).
  assert (Hcols : (w <$> visited degree).*1 = seqZ 1 (tri degree - 1)).
  { rewrite <- list_fmap_compose. rewrite <- visited_columns by done. done. }
  destruct (foldM_setcol (w <$> visited degree) X0)
    as (X & -> & Hwf & Hn & Hpc & Hget & Hother); [done| | |].
  - apply Forall_forall. intros wc Hwc.
    assert (Hc : wc.1 ∈ (w <$> visited degree).*1) by (by apply list_elem_of_fmap_2).
    rewrite Hcols in Hc. apply elem_of_seqZ in Hc.
    apply list_elem_of_fmap in Hwc as ([i j] & -> & Hij).
    apply elem_of_visited in Hij. simpl.
    rewrite length_monomial by done. rewrite Hp0, Hn0.
    unfold w in Hc. simpl in Hc. lia.
  - rewrite Hcols. apply NoDup_seqZ.
  - exists X. repeat split; try apply Hwf; try lia.
    + rewrite Hother; [apply Hones; lia | lia |].
      rewrite Hcols. rewrite elem_of_seqZ. lia.
    + intros i j Hi Hj.
      apply (Hget (w (i, j))). apply list_elem_of_fmap_2.
      apply elem_of_visited. lia.
Qed.
End ArrayFacts.

(** ** The design matrix *)

(** C1. For arrays [x], [y] of one length and a degree of at least 1,
    [generate_design_matrix] returns a matrix that starts from ones (column
    0 is never written) and in which, for every level [i] from 0 to
    [degree - 1] with first column [q = (i+1)(i+2)/2] and every [j] from 0
    to [i+1], column [q + j] is [x^(i-j+1) * y^j]. Every column from 1 on is
    such a column; a column further right has a total degree [i + 1] at
    least as large, and within one level the exponent of [x] strictly
    decreases from left to right. *)
Theorem design_matrix_triangular_scheme {A} `{Scalar A}
    (x y : list A) (degree : Z) :
  length x = length y -> 1 <= degree ->
  exists X, generate_design_matrix degree x y = Ok X /\
    getcol X 0 = Ok (replicate (length x) sone) /\
    (forall i j, 0 <= i < degree -> 0 <= j <= i + 1 ->
       getcol X ((i + 1) * (i + 2) / 2 + j)
       = Ok (monomial (i - j + 1) j x y)) /\
    (forall c, 1 <= c < Z.of_nat (ncols X) ->
       exists i j, 0 <= i < degree /\ 0 <= j <= i + 1 /\
                   c = (i + 1) * (i + 2) / 2 + j) /\
    (forall i j i' j',
       0 <= i < degree -> 0 <= j <= i + 1 ->
       0 <= i' < degree -> 0 <= j' <= i' + 1 ->
       (i + 1) * (i + 2) / 2 + j < (i' + 1) * (i' + 2) / 2 + j' ->
       i + 1 <= i' + 1 /\ (i = i' -> i' - j' + 1 < i - j + 1)).
Proof.
  intros Hxy Hd.
  destruct (generate_design_matrix_spec degree x y)
    as (X & HX & Hwf & Hn & Hp & Hc0 & Hcols); [done | lia |].
  exists X. split; [done|]. split; [done|]. split; [exact Hcols|]. split.
  - intros c Hc.
    assert (Hin : c ∈ seqZ 1 (tri degree - 1)) by (apply elem_of_seqZ; lia).
    rewrite <- visited_columns in Hin by lia.
    apply list_elem_of_fmap in Hin as ([i j] & -> & Hij).
    apply elem_of_visited in Hij. exists i, j. simpl. unfold tri. lia.
  - intros i j i' j' Hi Hj Hi' Hj'. fold (tri i) (tri i'). intros Hlt.
    assert (Hle : i <= i').
    { destruct (decide (i <= i')) as [|Hgt]; [done|].
      pose proof (tri_mono i' i). lia. }
    split; [lia|]. intros ->. lia.
Qed.

Lemma design_matrix_triangular_scheme_witness :
  length [2; 3] = length [5; 7] /\ 1 <= 2 /\
  exists X, generate_design_matrix 2 [2; 3] [5; 7] = Ok X /\
            getcol X 4 = Ok [2 ^ 1 * 5 ^ 1; 3 ^ 1 * 7 ^ 1].
Proof.
  split; [reflexivity|]. split; [lia|].
  destruct (design_matrix_triangular_scheme [2; 3] [5; 7] 2)
    as (X & HX & _ & Hcols & _); [reflexivity | lia |].
  exists X. split; [exact HX|].
  exact (Hcols 1 1 ltac:(lia) ltac:(lia)).
Defined.

(** C2. For arrays [x], [y] of common length [N] and a degree of at least
    0, the design matrix has shape [(N, (degree+1)(degree+2)/2)] and its
    column 0 is 1 everywhere; for degree 0 it is the [(N, 1)] matrix of
    ones. *)
Theorem design_matrix_shape {A} `{Scalar A}
    (x y : list A) (N : nat) (degree : Z) :
  length x = N -> length y = N -> 0 <= degree ->
  exists X, generate_design_matrix degree x y = Ok X /\
    wf_ndarray2 X /\
    nrows X = N /\
    Z.of_nat (ncols X) = (degree + 1) * (degree + 2) / 2 /\
    getcol X 0 = Ok (replicate N sone) /\
    (degree = 0 ->
     X = {| nrows := N; ncols := 1; rows := replicate N [sone] |}).
Proof.
  intros Hx Hy Hd.
  destruct (generate_design_matrix_spec degree x y)
    as (X & HX & Hwf & Hn & Hp & Hc0 & _); [congruence | done |].
  exists X. rewrite <- Hx. repeat split; try apply Hwf; try done.
  intros ->. revert HX.
  unfold generate_design_matrix, get_number_of_parameters, np_ones. simpl.
  change (Z.quot ((0 + 1) * (0 + 2)) 2) with 1.
  rewrite decide_True by lia. simpl. rewrite Nat2Z.id.
  intros [= <-]. done.
Qed.

Lemma design_matrix_shape_witness :
  length [2; 3] = 2%nat /\ length [5; 7] = 2%nat /\ 0 <= 0 /\
  exists X, generate_design_matrix 0 [2; 3] [5; 7] = Ok X /\
            X = {| nrows := 2; ncols := 1; rows := [[1]; [1]] |}.
Proof.
  split; [reflexivity|]. split; [reflexivity|]. split; [lia|].
  destruct (design_matrix_shape [2; 3] [5; 7] 2 0)
    as (X & HX & _ & _ & _ & _ & Hzero); [reflexivity | reflexivity | lia |].
  exists X. split; [exact HX|]. exact (Hzero eq_refl).
Defined.
Example design_matrix_degree2 :
  generate_design_matrix 2 [2; 3] [5; 7]
  = Ok {| nrows := 2; ncols := 6;
          rows := [[1; 2; 5; 4; 10; 25]; [1; 3; 7; 9; 21; 49]] |}.
Proof. reflexivity. Qed.

Example design_matrix_ragged :
  generate_design_matrix 1 [2; 3] [5; 7; 11] = Raise ValueError.
Proof. reflexivity. Qed.

(** ** The Franke function *)

Section Broadcast.
Context {A : Type}.
Implicit Types (f : A -> A -> A) (u v : list A).

Lemma broadcast2_left f (a : A) v :
  length v <> 1%nat -> broadcast2 f [a] v = Ok (f a <$> v).
Proof. intros Hv. unfold broadcast2. rewrite decide_False; [done | simpl; lia]. Qed.

Lemma broadcast2_right f u (b : A) :
  length u <> 1%nat -> broadcast2 f u [b] = Ok ((fun a => f a b) <$> u).
Proof.
  intros Hu. unfold broadcast2. rewrite decide_False by (simpl; lia).
  destruct u as [|a [|a' u]]; simpl in *; done.
Qed.

Lemma broadcast2_mismatch f u v :
  length u <> length v -> length u <> 1%nat -> length v <> 1%nat ->
  broadcast2 f u v = Raise ValueError.
Proof.
  intros Huv Hu Hv. unfold broadcast2. rewrite decide_False by done.
  destruct u as [|a [|a' u]], v as [|b [|b' v]]; simpl in *; done.
Qed.

(** The four ways two one-dimensional arrays meet. *)
Lemma broadcast_cases u v :
  length u = length v \/
  (exists a, u = [a] /\ length v <> 1%nat) \/
  (exists b, v = [b] /\ length u <> 1%nat) \/
  (length u <> length v /\ length u <> 1%nat /\ length v <> 1%nat).
Proof.
  destruct (decide (length u = length v)) as [|Hne]; [by left|]. right.
  destruct u as [|a [|a' u]].
  - destruct v as [|b [|b' v]]; simpl in *; [done| |].
    + right. left. by exists b.
    + right. right. simpl. lia.
  - left. exists a. split; [done|]. simpl in Hne. lia.
  - destruct v as [|b [|b' v]]; simpl in *.
    + right. right. lia.
    + right. left. exists b. split; [done|]. lia.
    + right. right. lia.
Qed.
End Broadcast.

Open Scope R_scope.

(** What the statements of [FrankeFunction] compute at one point. *)
Lemma franke_pointwise (a b : R) :
  0.75 * exp (- (0.25 * (9 * a - 2) ^ 2) - 0.25 * (9 * b - 2) ^ 2)
  + 0.75 * exp (- (9 * a + 1) ^ 2 / 49 - 0.1 * (9 * b + 1))
  + 0.5 * exp (- (9 * a - 7) ^ 2 / 4 - 0.25 * (9 * b - 3) ^ 2)
  + -0.2 * exp (- (9 * a - 4) ^ 2 - (9 * b - 7) ^ 2)
  = franke_formula a b.
Proof.
  unfold franke_formula.
  replace (- (0.25 * (9 * a - 2) ^ 2) - 0.25 * (9 * b - 2) ^ 2)
    with (- (9 * a - 2) ^ 2 / 4 - (9 * b - 2) ^ 2 / 4) by lra.
  replace (- (9 * a - 7) ^ 2 / 4 - 0.25 * (9 * b - 3) ^ 2)
    with (- (9 * a - 7) ^ 2 / 4 - (9 * b - 3) ^ 2 / 4) by lra.
  lra.
Qed.

Lemma result_bind_Ok {A B} (f : A -> result B) (a : A) : mbind f (Ok a) = f a.
Proof. reflexivity. Qed.

#[local] Arguments pow _ _ : simpl never.

Ltac franke_unfold :=
  unfold FrankeFunction, np_sub, np_add, np_neg, np_scale, np_square,
    np_minus, np_plus, np_div_by, np_exp; cbv zeta.

Ltac franke_lengths :=
  repeat (rewrite length_fmap || rewrite length_zip_with); simpl; lia.

Ltac franke_run lem :=
  repeat (rewrite lem by franke_lengths; rewrite ?result_bind_Ok; cbv beta).

Lemma FrankeFunction_broadcast (x y : list R) :
  FrankeFunction x y = broadcast2 franke_formula x y.
Proof.
  destruct (broadcast_cases x y)
    as [Heq|[(a & -> & Hy)|[(b & -> & Hx)|(Hne & Hx & Hy)]]].
  - franke_unfold. franke_run (@broadcast2_same R).
    f_equal. apply list_eq. intros i.
    repeat (rewrite lookup_zip_with || rewrite list_lookup_fmap).
    destruct (x !! i) as [a|], (y !! i) as [b|]; simpl; try done.
    f_equal. apply franke_pointwise.
  - franke_unfold. rewrite !list_fmap_singleton.
    franke_run (@broadcast2_left R). franke_run (@broadcast2_same R).
    f_equal. apply list_eq. intros i.
    repeat (rewrite lookup_zip_with || rewrite list_lookup_fmap).
    destruct (y !! i) as [b|]; simpl; try done.
    f_equal. apply franke_pointwise.
  - franke_unfold. rewrite !list_fmap_singleton.
    franke_run (@broadcast2_right R). franke_run (@broadcast2_same R).
    f_equal. apply list_eq. intros i.
    repeat (rewrite lookup_zip_with || rewrite list_lookup_fmap).
    destruct (x !! i) as [a|]; simpl; try done.
    f_equal. apply franke_pointwise.
  - franke_unfold.
    rewrite !broadcast2_mismatch by franke_lengths. done.
Qed.

(** C3. [FrankeFunction(x, y)] is the four-term sum of the specification,
    over the real numbers: pointwise for arrays of one length, and with
    numpy's broadcasting otherwise. *)
Theorem FrankeFunction_is_four_term_sum (x y : list R) :
  FrankeFunction x y = broadcast2 franke_formula x y /\
  (length x = length y ->
   FrankeFunction x y = Ok (zip_with franke_formula x y)) /\
  (forall a b, FrankeFunction [a] [b] = Ok [
     0.75 * exp (- ((9 * a - 2) ^ 2) / 4 - ((9 * b - 2) ^ 2) / 4)
     + 0.75 * exp (- ((9 * a + 1) ^ 2) / 49 - 0.1 * (9 * b + 1))
     + 0.5 * exp (- ((9 * a - 7) ^ 2) / 4 - ((9 * b - 3) ^ 2) / 4)
     - 0.2 * exp (- ((9 * a - 4) ^ 2) - (9 * b - 7) ^ 2)]).
Proof.
  split; [apply FrankeFunction_broadcast|]. split.
  - intros Hxy. rewrite FrankeFunction_broadcast. by apply broadcast2_same.
  - intros a b. rewrite FrankeFunction_broadcast. reflexivity.
Qed.

(** ** The rescaling *)

Lemma foldl_Rmax_spec (l : list R) (a : R) :
  foldl Rmax a l ∈ a :: l /\ (forall e, e ∈ a :: l -> e <= foldl Rmax a l).
Proof.
  revert a. induction l as [|b l IH]; intros a; simpl.
  - split; [by left|]. intros e He. apply list_elem_of_singleton in He. lra.
  - destruct (IH (Rmax a b)) as [Hin Hub]. split.
    + apply elem_of_cons in Hin as [Heq|Hin]; [|by do 2 right].
      rewrite Heq. unfold Rmax. destruct (Rle_dec a b); [right|]; by left.
    + intros e He.
      assert (Hm : Rmax a b <= foldl Rmax (Rmax a b) l) by (apply Hub; by left).
      apply elem_of_cons in He as [->|He].
      { pose proof (Rmax_l a b). lra. }
      apply elem_of_cons in He as [->|He].
      { pose proof (Rmax_r a b). lra. }
      apply Hub. by right.
Qed.

Lemma foldl_Rmin_spec (l : list R) (a : R) :
  foldl Rmin a l ∈ a :: l /\ (forall e, e ∈ a :: l -> foldl Rmin a l <= e).
Proof.
  revert a. induction l as [|b l IH]; intros a; simpl.
  - split; [by left|]. intros e He. apply list_elem_of_singleton in He. lra.
  - destruct (IH (Rmin a b)) as [Hin Hlb]. split.
    + apply elem_of_cons in Hin as [Heq|Hin]; [|by do 2 right].
      rewrite Heq. unfold Rmin. destruct (Rle_dec a b); [|right]; by left.
    + intros e He.
      assert (Hm : foldl Rmin (Rmin a b) l <= Rmin a b) by (apply Hlb; by left).
      apply elem_of_cons in He as [->|He].
      { pose proof (Rmin_l a b). lra. }
      apply elem_of_cons in He as [->|He].
      { pose proof (Rmin_r a b). lra. }
      apply Hlb. by right.
Qed.

Lemma np_max_spec (z : list R) (m : R) :
  np_max z = Ok m -> m ∈ z /\ (forall e, e ∈ z -> e <= m).
Proof.
  destruct z as [|a l]; simpl; [done|]. intros [= <-]. apply foldl_Rmax_spec.
Qed.

Lemma np_min_spec (z : list R) (lo : R) :
  np_min z = Ok lo -> lo ∈ z /\ (forall e, e ∈ z -> lo <= e).
Proof.
  destruct z as [|a l]; simpl; [done|]. intros [= <-]. apply foldl_Rmin_spec.
Qed.

Lemma np_max_nonempty (z : list R) :
  z <> [] -> exists m, np_max z = Ok m.
Proof. destruct z; [done|]. intros _. by eexists. Qed.

Lemma scale_data_eq (z : list R) (m : R) :
  np_max z = Ok m -> scale_data z = Ok ((fun a => a / m) <$> z).
Proof. intros Hm. unfold scale_data. rewrite Hm. reflexivity. Qed.

(** C5. The rescaling divides every element by the maximum of the array
    and does nothing else. For an array with a positive maximum [hi] and a
    negative minimum [lo] the results therefore fill the range from
    [lo / hi] to 1, both ends attained, with [lo / hi] negative (and below
    -1 exactly when [lo < - hi]); they are not the min-max normalisation
    of the array. *)
Theorem scale_data_divides_by_max (z : list R) (lo hi : R) :
  np_max z = Ok hi -> np_min z = Ok lo -> 0 < hi -> lo < 0 ->
  exists s, scale_data z = Ok s /\
    s = (fun a => a / hi) <$> z /\
    (forall e, e ∈ s -> lo / hi <= e <= 1) /\
    1 ∈ s /\ lo / hi ∈ s /\
    lo / hi < 0 /\
    (lo / hi < -1 <-> lo < - hi) /\
    s <> minmax_normalize lo hi z.
Proof.
  intros Hmax Hmin Hhi Hlo.
  destruct (np_max_spec z hi Hmax) as [Hhi_in Hub].
  destruct (np_min_spec z lo Hmin) as [Hlo_in Hlb].
  assert (Hinv : 0 < / hi) by (by apply Rinv_0_lt_compat).
  assert (Hneg : lo / hi < 0).
  { unfold Rdiv. replace 0 with (0 * / hi) by lra.
    by apply Rmult_lt_compat_r. }
  exists ((fun a => a / hi) <$> z). split; [by apply scale_data_eq|].
  split; [done|]. repeat split.
  - apply list_elem_of_fmap in H as (a & -> & Ha).
    unfold Rdiv. apply Rmult_le_compat_r; [lra | by apply Hlb].
  - apply list_elem_of_fmap in H as (a & -> & Ha).
    replace 1 with (hi / hi) by (field; lra).
    unfold Rdiv. apply Rmult_le_compat_r; [lra | by apply Hub].
  - apply list_elem_of_fmap. exists hi. split; [field; lra | done].
  - apply list_elem_of_fmap. by exists lo.
  - done.
  - intros Hlt. apply (Rmult_lt_compat_r hi) in Hlt; [|done].
    replace (lo / hi * hi) with lo in Hlt by (field; lra). lra.
  - intros Hlt. replace (-1) with (- hi / hi) by (field; lra).
    unfold Rdiv. by apply Rmult_lt_compat_r.
  - intros Heq.
    apply list_elem_of_lookup in Hlo_in as [k Hk].
    assert (Hk1 : ((fun a => a / hi) <$> z) !! k = Some (lo / hi))
      by (by rewrite list_lookup_fmap, Hk).
    rewrite Heq in Hk1. unfold minmax_normalize in Hk1.
    rewrite list_lookup_fmap, Hk in Hk1. simpl in Hk1.
    injection Hk1 as Hk1.
    replace ((lo - lo) / (hi - lo)) with 0 in Hk1 by (field; lra). lra.
Qed.

Lemma scale_data_divides_by_max_witness :
  exists s, scale_data [1; -2; 4] = Ok s /\ s = [1 / 4; -2 / 4; 4 / 4].
Proof.
  assert (Hmax : np_max [1; -2; 4] = Ok 4).
  { simpl. f_equal. unfold Rmax.
    repeat (destruct (Rle_dec _ _); try lra). }
  assert (Hmin : np_min [1; -2; 4] = Ok (-2)).
  { simpl. f_equal. unfold Rmin.
    repeat (destruct (Rle_dec _ _); try lra). }
  destruct (scale_data_divides_by_max [1; -2; 4] (-2) 4 Hmax Hmin
              ltac:(lra) ltac:(lra)) as (s & Hs & Heq & _).
  exists s. split; [exact Hs | exact Heq].
Defined.

(** ** Running stateful code *)

Lemma M_bind_Ok {St A B} (m : M St A) (f : A -> M St B) (s s' : St) (a : A) :
  m s = (Ok a, s') -> (m ≫= f) s = f a s'.
Proof. intros Hm. unfold mbind, M_bind. by rewrite Hm. Qed.

Lemma M_bind_pure_Ok {St A B} (f : A -> M St B) (s : St) (a : A) :
  (pure (Ok a) ≫= f) s = f a s.
Proof. reflexivity. Qed.

Lemma draws_length {St} (d : St -> R * St) (n : nat) (g : St) :
  length (draws d n g).1 = n.
Proof.
  revert g. induction n as [|n IH]; intros g; simpl; [done|].
  destruct (d g) as [a g1]. specialize (IH g1).
  destruct (draws d n g1) as [l g2]. simpl in *. by rewrite IH.
Qed.

Lemma draws_Forall {St} (d : St -> R * St) (P : R -> Prop) (n : nat) (g : St) :
  (forall g, P (d g).1) -> Forall P (draws d n g).1.
Proof.
  intros HP. revert g. induction n as [|n IH]; intros g; simpl; [constructor|].
  specialize (HP g). destruct (d g) as [a g1]. specialize (IH g1).
  destruct (draws d n g1) as [l g2]. simpl in *. by constructor.
Qed.

Section RandomFacts.
Context `{RandomSource}.

Lemma np_random_rand_Ok (n : Z) (g : rng) :
  (0 <= n)%Z ->
  np_random_rand n g
  = (Ok (draws random_sample (Z.to_nat n) g).1,
     (draws random_sample (Z.to_nat n) g).2).
Proof.
  intros Hn. unfold np_random_rand. rewrite decide_True by done.
  by destruct (draws _ _ _).
Qed.

Lemma np_random_normal_Ok (loc scale : R) (n : nat) (g : rng) :
  0 <= scale ->
  np_random_normal loc scale n g
  = (Ok (draws (normal_sample loc scale) n g).1,
     (draws (normal_sample loc scale) n g).2).
Proof.
  intros Hs. unfold np_random_normal.
  destruct (Rlt_dec scale 0); [lra|]. by destruct (draws _ _ _).
Qed.

Lemma generate_noise_Ok (n : nat) (sigma : R) (g : rng) :
  0 <= sigma ->
  generate_noise n (Some sigma) g
  = (Ok (draws (normal_sample 0 sigma) n g).1,
     (draws (normal_sample 0 sigma) n g).2).
Proof.
  intros Hs. unfold generate_noise. simpl.
  erewrite M_bind_Ok by (by apply np_random_normal_Ok). reflexivity.
Qed.

Lemma NoisyFrankeFunction_Ok (x y : list R) (sigma : R) (g : rng) :
  length x = length y -> 0 <= sigma ->
  NoisyFrankeFunction x y sigma g
  = (Ok (zip_with Rplus (zip_with franke_formula x y)
                        (draws (normal_sample 0 sigma) (length x) g).1),
     (draws (normal_sample 0 sigma) (length x) g).2).
Proof.
  intros Hxy Hs. unfold NoisyFrankeFunction.
  erewrite M_bind_Ok by (by apply generate_noise_Ok).
  rewrite FrankeFunction_broadcast, broadcast2_same by done.
  rewrite M_bind_pure_Ok. unfold pure, np_add.
  rewrite broadcast2_same; [done|].
  rewrite length_zip_with, draws_length. lia.
Qed.
End RandomFacts.

(** C4. For a noise level [sigma] (a standard deviation, so not
    negative), [NoisyFrankeFunction(x, y, sigma)] is [FrankeFunction(x, y)]
    plus a noise array of the shape of [x] whose entries are successive
    draws of [np.random.normal(0, sigma)] from the global source, one draw
    per element; for [x] and [y] of one shape the sum is taken element by
    element. The noise level used when none is given is 0.2. *)
Theorem NoisyFrankeFunction_adds_gaussian_noise `{RandomSource}
    (x y : list R) (sigma : R) (g : rng) :
  0 <= sigma ->
  exists noise g',
    draws (normal_sample 0 sigma) (length x) g = (noise, g') /\
    length noise = length x /\
    generate_noise (length x) (Some sigma) g = (Ok noise, g') /\
    NoisyFrankeFunction x y sigma g
    = (f ← FrankeFunction x y; np_add f noise, g') /\
    (length x = length y ->
     exists f, FrankeFunction x y = Ok f /\
       NoisyFrankeFunction x y sigma g = (Ok (zip_with Rplus f noise), g')) /\
    DEFAULT_NOISE_LEVEL = 0.2 /\
    generate_noise (length x) None g = generate_noise (length x) (Some 0.2) g.
Proof.
  intros Hs.
  exists (draws (normal_sample 0 sigma) (length x) g).1,
    (draws (normal_sample 0 sigma) (length x) g).2.
  split. { by destruct (draws _ _ _). }
  split. { apply draws_length. }
  split. { by apply generate_noise_Ok. }
  split.
  { unfold NoisyFrankeFunction.
    erewrite M_bind_Ok by (by apply generate_noise_Ok).
    unfold mbind at 1, M_bind, pure. by destruct (FrankeFunction x y). }
  split.
  { intros Hxy. exists (zip_with franke_formula x y). split.
    - rewrite FrankeFunction_broadcast. by apply broadcast2_same.
    - by apply NoisyFrankeFunction_Ok. }
  split; reflexivity.
Qed.

Lemma NoisyFrankeFunction_adds_gaussian_noise_witness :
  0 <= 0.2 /\
  exists f noise g',
    @NoisyFrankeFunction tape_source [0; 1] [1; 0] 0.2 [1; -1; 5]
    = (Ok (zip_with Rplus f noise), g') /\
    noise = [0 + 0.2 * 1; 0 + 0.2 * -1] /\ g' = [5].
Proof.
  split; [lra|].
  destruct (@NoisyFrankeFunction_adds_gaussian_noise tape_source
              [0; 1] [1; 0] 0.2 [1; -1; 5])
    as (noise & g' & Hd & _ & _ & _ & Hsum & _); [lra|].
  destruct (Hsum eq_refl) as (f & _ & Hrun).
  exists f, noise, g'. split; [exact Hrun|].
  simpl in Hd. injection Hd as <- <-. split; reflexivity.
Defined.

(** ** The constructor *)

(** The two columns of a flat array reshaped to [(n, 2)]: the entries at
    even and at odd positions. *)
Lemma chunks2_column (j : nat) (n : nat) (l : list R) :
  (j < 2)%nat -> length l = (2 * n)%nat ->
  length (omap (fun row => row !! j) (chunks 2 n l)) = n /\
  (forall k, (k < n)%nat ->
     omap (fun row => row !! j) (chunks 2 n l) !! k = l !! (2 * k + j)%nat).
Proof.
  intros Hj. revert l. induction n as [|n IH]; intros l Hl.
  - split; [done|]. intros k Hk. lia.
  - destruct l as [|a [|b l]]; simpl in Hl; try lia.
    destruct (IH l ltac:(lia)) as [IHlen IHk].
    assert (Hj' : j = 0%nat \/ j = 1%nat) by lia.
    change (chunks 2 (S n) (a :: b :: l)) with ([a; b] :: chunks 2 n l).
    destruct Hj' as [-> | ->].
    + split; [simpl; f_equal; exact IHlen|]. intros [|k] Hk; [done|].
      replace (2 * S k + 0)%nat with (S (S (2 * k + 0))) by lia.
      etrans; [exact (IHk k ltac:(lia))|]. done.
    + split; [simpl; f_equal; exact IHlen|]. intros [|k] Hk; [done|].
      replace (2 * S k + 1)%nat with (S (S (2 * k + 1))) by lia.
      etrans; [exact (IHk k ltac:(lia))|]. done.
Qed.

Lemma getcol_in_range {A} (X : ndarray2 A) (c : Z) :
  (0 <= c < Z.of_nat (ncols X))%Z ->
  getcol X c = Ok (omap (fun row => row !! Z.to_nat c) (rows X)).
Proof. intros Hc. unfold getcol. by rewrite norm_index_in_range. Qed.

Section InitFacts.
Context `{Collaborators}.

(** What a construction does, step by step: [2 N] uniform draws, laid out
    as [N] points; the targets; the design matrix; the hand-over to the
    base class. *)
Lemma FrankeData_init_steps (N : Z) (kw : kwargs) (g : rng) :
  (0 < N)%Z -> (0 <= kw_degree kw)%Z ->
  (kw_random_noise kw = true -> 0 <= kw_noise_level kw) ->
  let flat := (draws random_sample (Z.to_nat (N * 2)) g).1 in
  let g1 := (draws random_sample (Z.to_nat (N * 2)) g).2 in
  let noise :=
    (draws (normal_sample 0 (kw_noise_level kw)) (Z.to_nat N) g1).1 in
  let g2 := (draws (normal_sample 0 (kw_noise_level kw)) (Z.to_nat N) g1).2 in
  exists x y X z0 z,
    length x = Z.to_nat N /\ length y = Z.to_nat N /\
    (forall k, (k < Z.to_nat N)%nat ->
       x !! k = flat !! (2 * k)%nat /\ y !! k = flat !! (2 * k + 1)%nat) /\
    FrankeFunction x y = Ok (zip_with franke_formula x y) /\
    generate_design_matrix (kw_degree kw) x y = Ok X /\
    z0 = (if kw_random_noise kw
          then zip_with Rplus (zip_with franke_formula x y) noise
          else zip_with franke_formula x y) /\
    length z0 = Z.to_nat N /\
    (if kw_scale_data kw then scale_data z0 = Ok z else z = z0) /\
    FrankeData_init N kw g
    = (d ← Data_store_data X z (kw_test_size kw) false;
       mret {| degree := kw_degree kw; data := d |})
        (if kw_random_noise kw then g2 else g1).
Proof.
  intros HN Hdeg Hnl flat g1 noise g2.
  assert (Hflat : length flat = (2 * Z.to_nat N)%nat).
  { unfold flat. rewrite draws_length. lia. }
  pose (x := omap (fun row : list R => row !! 0%nat) (chunks 2 (Z.to_nat N) flat)).
  pose (y := omap (fun row : list R => row !! 1%nat) (chunks 2 (Z.to_nat N) flat)).
  destruct (chunks2_column 0 (Z.to_nat N) flat ltac:(lia) Hflat) as [Hxl Hxk].
  destruct (chunks2_column 1 (Z.to_nat N) flat ltac:(lia) Hflat) as [Hyl Hyk].
  fold x in Hxl, Hxk. fold y in Hyl, Hyk.
  assert (Hxy : length x = length y) by congruence.
  destruct (generate_design_matrix_spec (kw_degree kw) x y Hxy Hdeg)
    as (X & HX & _).
  pose (z0 := if kw_random_noise kw
              then zip_with Rplus (zip_with franke_formula x y) noise
              else zip_with franke_formula x y).
  assert (Hz0 : length z0 = Z.to_nat N).
  { unfold z0. destruct (kw_random_noise kw);
      rewrite ?length_zip_with; unfold noise; rewrite ?draws_length; lia. }
  assert (Hscale : exists z,
    if kw_scale_data kw then scale_data z0 = Ok z else z = z0).
  { destruct (kw_scale_data kw); [|by eexists].
    destruct (np_max_nonempty z0) as [m Hm].
    { intros Hnil. rewrite Hnil in Hz0. simpl in Hz0. lia. }
    eexists. by apply scale_data_eq. }
  destruct Hscale as [z Hz].
  assert (HF : FrankeFunction x y = Ok (zip_with franke_formula x y)).
  { rewrite FrankeFunction_broadcast. by apply broadcast2_same. }
  exists x, y, X, z0, z.
  split; [done|]. split; [done|].
  split. { intros k Hk. split; [rewrite Hxk | rewrite Hyk]; f_equal; lia. }
  split; [done|]. split; [done|]. split; [done|]. split; [done|].
  split; [done|].
  unfold FrankeData_init.
  erewrite M_bind_Ok by (apply np_random_rand_Ok; lia). fold flat g1.
  unfold reshape2. rewrite decide_True by lia.
  erewrite M_bind_Ok by reflexivity.
  rewrite !getcol_in_range by (simpl; lia). cbn [rows].
  erewrite M_bind_Ok by reflexivity.
  erewrite M_bind_Ok by reflexivity.
  change (Z.to_nat 0) with 0%nat. change (Z.to_nat 1) with 1%nat.
  change (Z.to_nat 2) with 2%nat. fold x y.
  assert (Htargets :
    (if kw_random_noise kw
     then NoisyFrankeFunction x y (kw_noise_level kw)
     else pure (FrankeFunction x y)) g1
    = (Ok z0, if kw_random_noise kw then g2 else g1)).
  { unfold z0. destruct (kw_random_noise kw).
    - rewrite NoisyFrankeFunction_Ok by auto. rewrite Hxl. done.
    - unfold pure. by rewrite HF. }
  erewrite M_bind_Ok by exact Htargets.
  assert (Hscaled :
    (if kw_scale_data kw then pure (scale_data z0) else mret z0)
      (if kw_random_noise kw then g2 else g1)
    = (Ok z, if kw_random_noise kw then g2 else g1)).
  { destruct (kw_scale_data kw); [unfold pure; by rewrite Hz | by subst z]. }
  erewrite M_bind_Ok by exact Hscaled.
  unfold store_data. rewrite HX. reflexivity.
Qed.

(** Without a test split the object holds the design matrix and the
    targets as they are. *)
Lemma FrankeData_init_run (N : Z) (kw : kwargs) (g : rng) :
  (0 < N)%Z -> (0 <= kw_degree kw)%Z -> kw_test_size kw = None ->
  (kw_random_noise kw = true -> 0 <= kw_noise_level kw) ->
  let flat := (draws random_sample (Z.to_nat (N * 2)) g).1 in
  let g1 := (draws random_sample (Z.to_nat (N * 2)) g).2 in
  let noise :=
    (draws (normal_sample 0 (kw_noise_level kw)) (Z.to_nat N) g1).1 in
  let g2 := (draws (normal_sample 0 (kw_noise_level kw)) (Z.to_nat N) g1).2 in
  exists x y X z0 z,
    length x = Z.to_nat N /\ length y = Z.to_nat N /\
    (forall k, (k < Z.to_nat N)%nat ->
       x !! k = flat !! (2 * k)%nat /\ y !! k = flat !! (2 * k + 1)%nat) /\
    FrankeFunction x y = Ok (zip_with franke_formula x y) /\
    generate_design_matrix (kw_degree kw) x y = Ok X /\
    z0 = (if kw_random_noise kw
          then zip_with Rplus (zip_with franke_formula x y) noise
          else zip_with franke_formula x y) /\
    length z0 = Z.to_nat N /\
    (if kw_scale_data kw then scale_data z0 = Ok z else z = z0) /\
    FrankeData_init N kw g
    = (Ok {| degree := kw_degree kw;
             data := {| X_train := X; z_train := z;
                        X_test := None; z_test := None |} |},
       if kw_random_noise kw then g2 else g1).
Proof.
  intros HN Hdeg Hts Hnl flat g1 noise g2.
  destruct (FrankeData_init_steps N kw g HN Hdeg Hnl)
    as (x & y & X & z0 & z & Hx & Hy & Hk & HF & HX & Hz0 & Hlen & Hz & Hrun).
  exists x, y, X, z0, z. repeat (split; [done|]).
  rewrite Hrun, Hts. reflexivity.
Qed.
End InitFacts.

Lemma scale_data_length (z0 z : list R) :
  scale_data z0 = Ok z -> length z = length z0.
Proof.
  unfold scale_data. destruct (np_max z0) as [m|e]; simpl; [|done].
  intros [= <-]. unfold np_div_by. by rewrite length_fmap.
Qed.

Lemma powerRZ_one (u : R) : powerRZ u 1 = u.
Proof. unfold powerRZ. change (Pos.to_nat 1) with 1%nat. apply pow_1. Qed.

Lemma monomial_1_0 (x y : list R) :
  length x = length y -> monomial 1 0 x y = x.
Proof.
  intros Hxy. unfold monomial. apply list_eq. intros k.
  rewrite lookup_zip_with.
  destruct (x !! k) as [u|] eqn:Hu; simpl; [|done].
  destruct (y !! k) as [v|] eqn:Hv; simpl.
  - f_equal. change (powerRZ u 1 * powerRZ v 0 = u). rewrite powerRZ_one, powerRZ_O. lra.
  - apply lookup_lt_Some in Hu. apply lookup_ge_None in Hv. lia.
Qed.

Lemma monomial_0_1 (x y : list R) :
  length x = length y -> monomial 0 1 x y = y.
Proof.
  intros Hxy. unfold monomial. apply list_eq. intros k.
  rewrite lookup_zip_with.
  destruct (x !! k) as [u|] eqn:Hu; simpl.
  - destruct (y !! k) as [v|] eqn:Hv; simpl; [|done].
    f_equal. change (powerRZ u 0 * powerRZ v 1 = v). rewrite powerRZ_one, powerRZ_O. lra.
  - apply lookup_ge_None in Hu. symmetry. apply lookup_ge_None. lia.
Qed.

Lemma clamp01_id (u : R) : 0 <= u < 1 -> clamp01 u = u.
Proof. intros Hu. unfold clamp01. destruct (Rle_dec 0 u), (Rlt_dec u 1); lra. Qed.

Section Points.
Context `{Collaborators}.

(** The sample points of a construction without a test split: [N] of
    them, read off the design matrix, each coordinate one uniform draw. *)
Lemma FrankeData_init_points (N : Z) (kw : kwargs) (g : rng) :
  (0 < N)%Z -> (1 <= kw_degree kw)%Z -> kw_test_size kw = None ->
  (kw_random_noise kw = true -> 0 <= kw_noise_level kw) ->
  let flat := (draws random_sample (Z.to_nat (N * 2)) g).1 in
  let g1 := (draws random_sample (Z.to_nat (N * 2)) g).2 in
  let g2 := (draws (normal_sample 0 (kw_noise_level kw)) (Z.to_nat N) g1).2 in
  exists obj x y,
    FrankeData_init N kw g = (Ok obj, if kw_random_noise kw then g2 else g1) /\
    nrows (X_train (data obj)) = Z.to_nat N /\
    length (z_train (data obj)) = Z.to_nat N /\
    X_test (data obj) = None /\
    getcol (X_train (data obj)) 1 = Ok x /\
    getcol (X_train (data obj)) 2 = Ok y /\
    length x = Z.to_nat N /\ length y = Z.to_nat N /\
    (forall k, (k < Z.to_nat N)%nat ->
       x !! k = flat !! (2 * k)%nat /\ y !! k = flat !! (2 * k + 1)%nat).
Proof.
  intros HN Hdeg Hts Hnl flat g1 g2.
  destruct (FrankeData_init_run N kw g HN ltac:(lia) Hts Hnl)
    as (x & y & X & z0 & z & Hx & Hy & Hk & _ & HX & _ & Hz0 & Hz & Hrun).
  assert (Hxy : length x = length y) by congruence.
  destruct (generate_design_matrix_spec (kw_degree kw) x y Hxy ltac:(lia))
    as (X' & HX' & _ & Hn & _ & _ & Hcols).
  rewrite HX in HX'. injection HX' as <-.
  eexists _, x, y. split; [exact Hrun|]. cbn [data X_train z_train X_test].
  split; [congruence|]. split.
  { destruct (kw_scale_data kw); [|by subst z].
    apply scale_data_length in Hz. congruence. }
  split; [done|].
  split. { pose proof (Hcols 0%Z 0%Z ltac:(lia) ltac:(lia)) as Hc.
           change (tri 0 + 0)%Z with 1%Z in Hc.
           change (0 - 0 + 1)%Z with 1%Z in Hc.
           by rewrite monomial_1_0 in Hc. }
  split. { pose proof (Hcols 0%Z 1%Z ltac:(lia) ltac:(lia)) as Hc.
           change (tri 0 + 1)%Z with 2%Z in Hc.
           change (0 - 1 + 1)%Z with 0%Z in Hc.
           by rewrite monomial_0_1 in Hc. }
  done.
Qed.
End Points.

(** C9. A construction with parameter [N > 0] yields exactly [N] sample
    points, not [N * N]: whatever the test split, the design matrix and
    the targets handed to the base class have [N] rows and [N] entries,
    and the two coordinates of point [k] are the draws number [2k] and
    [2k+1] that [np.random.rand] takes from the global source, each in the
    half-open unit interval. Without a test split (and with a degree of
    at least 1, where the coordinates are columns 1 and 2 of the design
    matrix) the same can be read off the object. The constructor takes no
    seed: what it returns depends on the state of the global source, which
    it advances, and there are runs in which a second construction with
    the same arguments returns a different dataset. *)
Theorem FrankeData_init_draws_N_points :
  (forall `{Collaborators} (N : Z) (kw : kwargs) (g : rng),
     (0 < N)%Z -> (0 <= kw_degree kw)%Z ->
     (kw_random_noise kw = true -> 0 <= kw_noise_level kw) ->
     exists x y X z g',
       length x = Z.to_nat N /\ length y = Z.to_nat N /\
       (forall k, (k < Z.to_nat N)%nat ->
          exists u v,
            x !! k = Some u /\ y !! k = Some v /\
            (draws random_sample (Z.to_nat (N * 2)) g).1 !! (2 * k)%nat = Some u /\
            (draws random_sample (Z.to_nat (N * 2)) g).1 !! (2 * k + 1)%nat = Some v /\
            0 <= u < 1 /\ 0 <= v < 1) /\
       generate_design_matrix (kw_degree kw) x y = Ok X /\
       nrows X = Z.to_nat N /\ length z = Z.to_nat N /\
       ((1 < N)%Z -> nrows X <> Z.to_nat (N * N)) /\
       FrankeData_init N kw g
       = (d ← Data_store_data X z (kw_test_size kw) false;
          mret {| degree := kw_degree kw; data := d |}) g') /\
  (forall `{Collaborators} (N : Z) (kw : kwargs) (g : rng),
     (0 < N)%Z -> (1 <= kw_degree kw)%Z -> kw_test_size kw = None ->
     (kw_random_noise kw = true -> 0 <= kw_noise_level kw) ->
     exists obj g' x y,
       FrankeData_init N kw g = (Ok obj, g') /\
       nrows (X_train (data obj)) = Z.to_nat N /\
       length (z_train (data obj)) = Z.to_nat N /\
       ((1 < N)%Z -> nrows (X_train (data obj)) <> Z.to_nat (N * N)) /\
       getcol (X_train (data obj)) 1 = Ok x /\
       getcol (X_train (data obj)) 2 = Ok y /\
       length x = Z.to_nat N /\ length y = Z.to_nat N /\
       (forall k, (k < Z.to_nat N)%nat ->
          exists u v,
            x !! k = Some u /\ y !! k = Some v /\
            (draws random_sample (Z.to_nat (N * 2)) g).1 !! (2 * k)%nat = Some u /\
            (draws random_sample (Z.to_nat (N * 2)) g).1 !! (2 * k + 1)%nat = Some v /\
            0 <= u < 1 /\ 0 <= v < 1)) /\
  (exists (RS : RandomSource) (C : @Collaborators RS) (N : Z) (kw : kwargs)
          (g g1 g2 : @rng RS) (obj1 obj2 : FrankeData),
     FrankeData_init N kw g = (Ok obj1, g1) /\
     FrankeData_init N kw g1 = (Ok obj2, g2) /\
     obj1 <> obj2).
Proof.
  split; [|split].
  - intros RS C N kw g HN Hdeg Hnl.
    destruct (FrankeData_init_steps N kw g HN Hdeg Hnl)
      as (x & y & X & z0 & z & Hx & Hy & Hk & _ & HX & _ & Hz0 & Hz & Hrun).
    assert (Hxy : length x = length y) by congruence.
    destruct (generate_design_matrix_spec (kw_degree kw) x y Hxy Hdeg)
      as (X' & HX' & _ & Hn & _).
    rewrite HX in HX'. injection HX' as <-.
    eexists x, y, X, z, _. split; [done|]. split; [done|].
    split.
    { intros k Hlt. destruct (Hk k Hlt) as [Hxk Hyk].
      pose proof (draws_Forall random_sample (fun u => 0 <= u < 1)
                    (Z.to_nat (N * 2)) g random_sample_range) as Hall.
      destruct (x !! k) as [u|] eqn:Hu;
        [|apply lookup_ge_None in Hu; lia].
      destruct (y !! k) as [v|] eqn:Hv;
        [|apply lookup_ge_None in Hv; lia].
      exists u, v. repeat split; try done.
      + eapply (Forall_lookup_1 _ _ _ _ Hall). by symmetry.
      + eapply (Forall_lookup_1 _ _ _ _ Hall). by symmetry.
      + eapply (Forall_lookup_1 _ _ _ _ Hall). by symmetry.
      + eapply (Forall_lookup_1 _ _ _ _ Hall). by symmetry. }
    split; [done|]. split; [congruence|].
    split.
    { destruct (kw_scale_data kw); [|by subst z].
      apply scale_data_length in Hz. congruence. }
    split; [intros HN1; rewrite Hn, Hx; nia|].
    exact Hrun.
  - intros RS C N kw g HN Hdeg Hts Hnl.
    destruct (FrankeData_init_points N kw g HN Hdeg Hts Hnl)
      as (obj & x & y & Hrun & Hrows & Hz & _ & Hcx & Hcy & Hx & Hy & Hk).
    eexists obj, _, x, y. split; [exact Hrun|].
    split; [done|]. split; [done|].
    split. { intros HN1. rewrite Hrows. nia. }
    split; [done|]. split; [done|]. split; [done|]. split; [done|].
    intros k Hlt. destruct (Hk k Hlt) as [Hxk Hyk].
    pose proof (draws_Forall random_sample (fun u => 0 <= u < 1)
                  (Z.to_nat (N * 2)) g random_sample_range) as Hall.
    destruct (x !! k) as [u|] eqn:Hu;
      [|apply lookup_ge_None in Hu; lia].
    destruct (y !! k) as [v|] eqn:Hv;
      [|apply lookup_ge_None in Hv; lia].
    exists u, v. repeat split; try done.
    + eapply (Forall_lookup_1 _ _ _ _ Hall). by symmetry.
    + eapply (Forall_lookup_1 _ _ _ _ Hall). by symmetry.
    + eapply (Forall_lookup_1 _ _ _ _ Hall). by symmetry.
    + eapply (Forall_lookup_1 _ _ _ _ Hall). by symmetry.
  - pose (C := @toy_collaborators tape_source 0 1).
    exists tape_source, C, 1%Z, default_kwargs,
      [1/4; 1/4; 0; 1/2; 1/2; 0], [1/2; 1/2; 0], [].
    destruct (@FrankeData_init_points tape_source C 1 default_kwargs
                [1/4; 1/4; 0; 1/2; 1/2; 0])
      as (obj1 & x1 & y1 & Hrun1 & _ & _ & _ & Hc1 & _ & _ & _ & Hk1);
      [lia | simpl; lia | done | intros _; simpl; unfold DEFAULT_NOISE_LEVEL; lra |].
    destruct (@FrankeData_init_points tape_source C 1 default_kwargs
                [1/2; 1/2; 0])
      as (obj2 & x2 & y2 & Hrun2 & _ & _ & _ & Hc2 & _ & _ & _ & Hk2);
      [lia | simpl; lia | done | intros _; simpl; unfold DEFAULT_NOISE_LEVEL; lra |].
    exists obj1, obj2. split; [exact Hrun1|]. split; [exact Hrun2|].
    intros Heq. rewrite Heq, Hc2 in Hc1. injection Hc1 as Hx.
    destruct (Hk1 0%nat ltac:(simpl; lia)) as [Hx1 _].
    destruct (Hk2 0%nat ltac:(simpl; lia)) as [Hx2 _].
    rewrite Hx, Hx1 in Hx2. simpl in Hx2. injection Hx2 as Hx2.
    rewrite !clamp01_id in Hx2 by lra. lra.
Qed.

Lemma FrankeData_init_draws_N_points_witness :
  (0 < 3)%Z /\ (1 <= kw_degree default_kwargs)%Z /\
  kw_test_size default_kwargs = None /\
  exists obj g',
    @FrankeData_init tape_source (@toy_collaborators tape_source 0 1)
      3 default_kwargs [] = (Ok obj, g') /\
    nrows (X_train (data obj)) = 3%nat.
Proof.
  split; [lia|]. split; [simpl; lia|]. split; [reflexivity|].
  destruct (proj1 (proj2 FrankeData_init_draws_N_points)
              tape_source (@toy_collaborators tape_source 0 1)
              3%Z default_kwargs [])
    as (obj & g' & x & y & Hrun & Hrows & _);
    [lia | simpl; lia | reflexivity
    | intros _; simpl; unfold DEFAULT_NOISE_LEVEL; lra |].
  exists obj, g'. split; [exact Hrun | exact Hrows].
Defined.

(** ** Noise first, rescaling second *)

(** The first bump of the Franke function has its centre at (2/9, 2/9). *)
Lemma franke_bump_bound : 0.9 < franke_formula (2/9) (2/9).
Proof.
  unfold franke_formula.
  replace (- (9 * (2 / 9) - 2) ^ 2 / 4 - (9 * (2 / 9) - 2) ^ 2 / 4) with 0
    by lra.
  rewrite exp_0.
  pose proof (exp_ineq1_le
    (- (9 * (2 / 9) + 1) ^ 2 / 49 - 0.1 * (9 * (2 / 9) + 1))) as H2.
  pose proof (exp_pos
    (- (9 * (2 / 9) - 7) ^ 2 / 4 - (9 * (2 / 9) - 3) ^ 2 / 4)) as H3.
  assert (H4 : exp (- (9 * (2 / 9) - 4) ^ 2 - (9 * (2 / 9) - 7) ^ 2) < 1).
  { rewrite <- exp_0. apply exp_increasing. lra. }
  lra.
Qed.

Lemma list2_eq (l : list R) (a b : R) :
  length l = 2%nat -> l !! 0%nat = Some a -> l !! 1%nat = Some b -> l = [a; b].
Proof.
  destruct l as [|a' [|b' [|c l]]]; simpl; try done.
  intros _ [= ->] [= ->]. done.
Qed.

Lemma Rmax_same (a : R) : Rmax a a = a.
Proof. unfold Rmax. by destruct (Rle_dec a a). Qed.

(** A run on a tape: two points at the centre of the first bump, noise
    [+0.2] and [-0.2]. *)
Lemma default_run_on_tape :
  let C := @toy_collaborators tape_source 0 2 in
  let F := franke_formula (2/9) (2/9) in
  exists obj,
    @FrankeData_init tape_source C 2 default_kwargs [2/9; 2/9; 2/9; 2/9; 1; -1]
    = (Ok obj, []) /\
    generate_design_matrix 1 [2/9; 2/9] [2/9; 2/9] = Ok (X_train (data obj)) /\
    z_train (data obj) = [(F + 0.2) / (F + 0.2); (F - 0.2) / (F + 0.2)].
Proof.
  intros C F.
  destruct (@FrankeData_init_run tape_source C 2 default_kwargs
              [2/9; 2/9; 2/9; 2/9; 1; -1])
    as (x & y & X & z0 & z & Hx & Hy & Hk & HF & HX & Hz0 & Hlen & Hz & Hrun);
    [lia | simpl; lia | done | intros _; simpl; unfold DEFAULT_NOISE_LEVEL; lra |].
  change (Z.to_nat (2 * 2)) with 4%nat in *.
  change (Z.to_nat 2) with 2%nat in *.
  destruct (Hk 0%nat ltac:(lia)) as [Hx0 Hy0].
  destruct (Hk 1%nat ltac:(lia)) as [Hx1 Hy1].
  simpl in Hx0, Hy0, Hx1, Hy1, Hz0, Hrun.
  rewrite clamp01_id in Hx0, Hy0, Hx1, Hy1 by lra.
  rewrite (list2_eq x _ _ Hx Hx0 Hx1) in *.
  rewrite (list2_eq y _ _ Hy Hy0 Hy1) in *.
  simpl in Hz0. fold F in Hz0. unfold DEFAULT_NOISE_LEVEL in Hz0.
  exists {| degree := 1; data := {| X_train := X; z_train := z;
                                    X_test := None; z_test := None |} |}.
  split; [exact Hrun|]. cbn [data z_train X_train].
  split; [exact HX|].
  simpl in Hz. subst z0. unfold scale_data in Hz. simpl in Hz.
  injection Hz as <-. pose proof franke_bump_bound as HFb. fold F in HFb.
  rewrite Rmax_left by lra. simpl. repeat f_equal; lra.
Qed.

(** C10. With [random_noise] and [scale_data] both on (the defaults) the
    rescaling is applied to the targets that already carry the noise: the
    stored targets are [(F + noise) / max (F + noise)], where [F] is the
    Franke function at the sample points. They are not the rescaled
    noiseless function plus noise, and the difference between them and the
    noiseless values need not have the standard deviation of the noise:
    there is a run with the default arguments in which the noise has mean 0
    and standard deviation exactly the noise level, and neither holds. *)
Theorem FrankeData_init_scales_noisy_targets :
  (forall `{Collaborators} (N : Z) (kw : kwargs) (g : rng),
     (0 < N)%Z -> (0 <= kw_degree kw)%Z -> kw_test_size kw = None ->
     kw_random_noise kw = true -> kw_scale_data kw = true ->
     0 <= kw_noise_level kw ->
     exists obj g' x y f noise m,
       FrankeData_init N kw g = (Ok obj, g') /\
       generate_design_matrix (kw_degree kw) x y = Ok (X_train (data obj)) /\
       FrankeFunction x y = Ok f /\
       noise = (draws (normal_sample 0 (kw_noise_level kw)) (Z.to_nat N)
                  (draws random_sample (Z.to_nat (N * 2)) g).2).1 /\
       np_max (zip_with Rplus f noise) = Ok m /\
       scale_data (zip_with Rplus f noise) = Ok (z_train (data obj)) /\
       z_train (data obj) = (fun a => a / m) <$> zip_with Rplus f noise) /\
  (exists (RS : RandomSource) (C : @Collaborators RS) (N : Z) (g g' : @rng RS)
          (obj : FrankeData) (x y f noise sf : list R),
     FrankeData_init N default_kwargs g = (Ok obj, g') /\
     generate_design_matrix 1 x y = Ok (X_train (data obj)) /\
     FrankeFunction x y = Ok f /\
     noise = (draws (normal_sample 0 DEFAULT_NOISE_LEVEL) (Z.to_nat N)
                (draws random_sample (Z.to_nat (N * 2)) g).2).1 /\
     np_mean noise = 0 /\
     np_std noise = DEFAULT_NOISE_LEVEL /\
     scale_data f = Ok sf /\
     z_train (data obj) <> zip_with Rplus sf noise /\
     np_std (zip_with Rminus (z_train (data obj)) f) <> DEFAULT_NOISE_LEVEL).
Proof.
  split.
  - intros RS C N kw g HN Hdeg Hts Hnoise Hscale Hnl.
    destruct (FrankeData_init_run N kw g HN Hdeg Hts (fun _ => Hnl))
      as (x & y & X & z0 & z & Hx & Hy & Hk & HF & HX & Hz0 & Hlen & Hz & Hrun).
    rewrite Hnoise in Hz0, Hrun. rewrite Hscale in Hz.
    destruct (np_max_nonempty z0) as [m Hm].
    { intros Hnil. rewrite Hnil in Hlen. simpl in Hlen. lia. }
    pose proof (scale_data_eq z0 m Hm) as Hz'. rewrite Hz in Hz'.
    injection Hz' as Hz'. subst z0.
    eexists _, _, x, y, _, _, m. split; [exact Hrun|]. cbn [data X_train z_train].
    split; [exact HX|]. split; [exact HF|]. split; [reflexivity|].
    split; [exact Hm|]. split; [exact Hz | exact Hz'].
  - pose (C := @toy_collaborators tape_source 0 2).
    destruct default_run_on_tape as (obj & Hrun & HX & Hz).
    pose proof franke_bump_bound as HFb.
    set (F := franke_formula (2/9) (2/9)) in *.
    exists tape_source, C, 2%Z, [2/9; 2/9; 2/9; 2/9; 1; -1], [], obj,
      [2/9; 2/9], [2/9; 2/9], [F; F],
      [0 + DEFAULT_NOISE_LEVEL * 1; 0 + DEFAULT_NOISE_LEVEL * -1],
      [F / F; F / F].
    split; [exact Hrun|]. split; [exact HX|].
    split. { rewrite FrankeFunction_broadcast. reflexivity. }
    split; [reflexivity|].
    unfold DEFAULT_NOISE_LEVEL.
    assert (Hvar : np_var [0 + 0.2 * 1; 0 + 0.2 * -1] = 0.2 * 0.2).
    { unfold np_var, np_mean, np_sum. simpl. lra. }
    split. { unfold np_mean, np_sum. simpl. lra. }
    split. { unfold np_std. rewrite Hvar. apply sqrt_square. lra. }
    split. { unfold scale_data. simpl. by rewrite Rmax_same. }
    rewrite Hz. split.
    + simpl. intros [= H1 _].
      replace ((F + 0.2) / (F + 0.2)) with 1 in H1 by (field; lra).
      replace (F / F) with 1 in H1 by (field; lra). lra.
    + assert (Ht : 0 < / (F + 0.2)) by (apply Rinv_0_lt_compat; lra).
      assert (Hinv : (F + 0.2) * / (F + 0.2) = 1) by (apply Rinv_r; lra).
      assert (Hres : np_var (zip_with Rminus
                 [(F + 0.2) / (F + 0.2); (F - 0.2) / (F + 0.2)] [F; F])
               = (0.2 * / (F + 0.2)) * (0.2 * / (F + 0.2))).
      { unfold np_var, np_mean, np_sum. simpl. field. lra. }
      unfold np_std. rewrite Hres. rewrite sqrt_square by nra. nra.
Qed.

Lemma FrankeData_init_scales_noisy_targets_witness :
  (0 < 2)%Z /\ kw_random_noise default_kwargs = true /\
  kw_scale_data default_kwargs = true /\
  exists obj g' z0,
    @FrankeData_init tape_source (@toy_collaborators tape_source 0 2)
      2 default_kwargs [] = (Ok obj, g') /\
    scale_data z0 = Ok (z_train (data obj)).
Proof.
  split; [lia|]. split; [reflexivity|]. split; [reflexivity|].
  destruct (proj1 FrankeData_init_scales_noisy_targets
              tape_source (@toy_collaborators tape_source 0 2)
              2%Z default_kwargs [])
    as (obj & g' & x & y & f & noise & m & Hrun & _ & _ & _ & _ & Hz & _);
    [lia | simpl; lia | reflexivity | reflexivity | reflexivity
    | simpl; unfold DEFAULT_NOISE_LEVEL; lra |].
  exists obj, g', (zip_with Rplus f noise). split; [exact Hrun | exact Hz].
Defined.

(** ** The result table *)

Lemma py_index_lookup {A} (l : list A) (k : nat) (a : A) :
  l !! k = Some a -> py_index l (Z.of_nat k) = Ok a.
Proof.
  intros Hk. unfold py_index.
  rewrite norm_index_in_range by (apply lookup_lt_Some in Hk; lia).
  rewrite result_bind_Ok, Nat2Z.id. by rewrite Hk.
Qed.

Lemma string_app_assoc (s1 s2 s3 : string) :
  (s1 +:+ s2) +:+ s3 = s1 +:+ (s2 +:+ s3).
Proof.
  induction s1 as [|ch s1 IH]; [done|].
  change (String ch ((s1 +:+ s2) +:+ s3) = String ch (s1 +:+ s2 +:+ s3)).
  by f_equal.
Qed.

Lemma string_app_nil_r (s : string) : s +:+ "" = s.
Proof.
  induction s as [|ch s IH]; [done|].
  change (String ch (s +:+ "") = String ch s). by f_equal.
Qed.

Section TableFacts.
Context {X V : Type} (str_x : X -> string) (str_v : V -> string).
Implicit Types (x : list X) (a b c d : list V).

Lemma table_rows_length x a b c d :
  (length x <= length a)%nat -> (length x <= length b)%nat ->
  (length x <= length c)%nat -> (length x <= length d)%nat ->
  length (table_rows str_x str_v x a b c d) = length x.
Proof.
  revert a b c d. induction x as [|xi x IH];
    intros [|ai a] [|bi b] [|ci c] [|di d]; simpl; try lia.
  intros. rewrite IH; lia.
Qed.

Lemma table_rows_lookup x a b c d (i : nat) xi ai bi ci di :
  x !! i = Some xi -> a !! i = Some ai -> b !! i = Some bi ->
  c !! i = Some ci -> d !! i = Some di ->
  table_rows str_x str_v x a b c d !! i
  = Some (row_line str_x str_v xi ai bi ci di).
Proof.
  revert x a b c d. induction i as [|i IH];
    intros [|x0 x] [|a0 a] [|b0 b] [|c0 c] [|d0 d]; simpl; try done.
  - by intros [= ->] [= ->] [= ->] [= ->] [= ->].
  - apply IH.
Qed.

Lemma table_rows_drop x a b c d (k : nat) xi ai bi ci di :
  x !! k = Some xi -> a !! k = Some ai -> b !! k = Some bi ->
  c !! k = Some ci -> d !! k = Some di ->
  table_rows str_x str_v (drop k x) (drop k a) (drop k b) (drop k c) (drop k d)
  = row_line str_x str_v xi ai bi ci di
    :: table_rows str_x str_v (drop (S k) x) (drop (S k) a) (drop (S k) b)
         (drop (S k) c) (drop (S k) d).
Proof.
  intros Hx Ha Hb Hc Hd.
  rewrite (drop_S x xi k Hx), (drop_S a ai k Ha), (drop_S b bi k Hb),
    (drop_S c ci k Hc), (drop_S d di k Hd). done.
Qed.

(** The loop over the rows, started at row [k] with the file already
    holding [content]. *)
Lemma write_rows_loop (f : string) x a b c d (n k : nat)
    (content : string) (fs : filesystem) :
  (k + n)%nat = length x ->
  (length x <= length a)%nat -> (length x <= length b)%nat ->
  (length x <= length c)%nat -> (length x <= length d)%nat ->
  fs !! f = Some content ->
  forM_ (seqZ (Z.of_nat k) (Z.of_nat n)) (fun i =>
      xi ← pure (py_index x i);
      ai ← pure (py_index a i);
      bi ← pure (py_index b i);
      ci ← pure (py_index c i);
      di ← pure (py_index d i);
      f_write f (str_x xi +:+ "," +:+ str_v ai +:+ "," +:+ str_v bi +:+ ","
                 +:+ str_v ci +:+ "," +:+ str_v di +:+ nl)) fs
  = (Ok tt,
     <[f := content +:+ foldr String.append ""
              (table_rows str_x str_v (drop k x) (drop k a) (drop k b)
                 (drop k c) (drop k d))]> fs).
Proof.
  revert k content fs. induction n as [|n IH];
    intros k content fs Hk Ha Hb Hc Hd Hfs.
  - simpl. rewrite (drop_ge x) by lia. simpl.
    rewrite string_app_nil_r. by rewrite insert_id.
  - rewrite seqZ_cons by lia.
    replace (Z.succ (Z.of_nat k)) with (Z.of_nat (S k)) by lia.
    replace (Z.pred (Z.of_nat (S n))) with (Z.of_nat n) by lia.
    destruct (lookup_lt_is_Some_2 x k ltac:(lia)) as [xi Hxi].
    destruct (lookup_lt_is_Some_2 a k ltac:(lia)) as [ai Hai].
    destruct (lookup_lt_is_Some_2 b k ltac:(lia)) as [bi Hbi].
    destruct (lookup_lt_is_Some_2 c k ltac:(lia)) as [ci Hci].
    destruct (lookup_lt_is_Some_2 d k ltac:(lia)) as [di Hdi].
    rewrite (table_rows_drop x a b c d k xi ai bi ci di) by done.
    cbn [forM_ foldr].
    erewrite M_bind_Ok; [|
      rewrite (py_index_lookup x k xi), (py_index_lookup a k ai),
        (py_index_lookup b k bi), (py_index_lookup c k ci),
        (py_index_lookup d k di) by done;
      reflexivity].
    unfold f_write at 1. rewrite Hfs. cbn [default].
    rewrite (IH (S k) (content +:+ row_line str_x str_v xi ai bi ci di));
      [|lia|done..|by rewrite lookup_insert_eq].
    rewrite insert_insert_eq. rewrite string_app_assoc. done.
Qed.

Lemma write_to_file_run (filename : string) x a b c d (x_label : string)
    (fs : filesystem) :
  (length x <= length a)%nat -> (length x <= length b)%nat ->
  (length x <= length c)%nat -> (length x <= length d)%nat ->
  write_to_file str_x str_v filename x a b c d x_label fs
  = (Ok tt,
     <["output/data/" +:+ filename := table_text str_x str_v x_label x a b c d]> fs).
Proof.
  intros Ha Hb Hc Hd. unfold write_to_file, table_text, header_line.
  cbv zeta. unfold open_w at 1.
  erewrite M_bind_Ok by reflexivity.
  erewrite M_bind_Ok by reflexivity.
  unfold range.
  rewrite (write_rows_loop _ x a b c d (length x) 0
             (x_label +:+ ",mse_train,mse_test,bias,variance" +:+ nl));
    [|lia|done..|].
  - rewrite !drop_0. by rewrite !insert_insert_eq.
  - rewrite lookup_insert_eq. rewrite lookup_insert_eq. done.
Qed.
End TableFacts.

(** C6. [write_to_file], given lists as long as [x] (as every sweep
    passes them), leaves one file, [output/data/<filename>], changed: its
    text is the header line [<x_label>,mse_train,mse_test,bias,variance]
    followed by one line per swept value, line [i] holding [x[i]],
    [mses_train[i]], [mses_test[i]], [biases[i]] and [variances[i]] as
    formatted by Python, separated by commas. *)
Theorem write_to_file_table {X V : Type}
    (str_x : X -> string) (str_v : V -> string)
    (filename : string) (x : list X) (mses_train mses_test biases variances : list V)
    (x_label : string) (fs : filesystem) :
  length mses_train = length x -> length mses_test = length x ->
  length biases = length x -> length variances = length x ->
  exists rows fs',
    write_to_file str_x str_v filename x mses_train mses_test biases
      variances x_label fs = (Ok tt, fs') /\
    fs' !! ("output/data/" +:+ filename)
    = Some ((x_label +:+ ",mse_train,mse_test,bias,variance" +:+ nl)
            +:+ foldr String.append "" rows) /\
    (forall f, f <> "output/data/" +:+ filename -> fs' !! f = fs !! f) /\
    length rows = length x /\
    (forall (i : nat) xi a b c d,
       x !! i = Some xi -> mses_train !! i = Some a ->
       mses_test !! i = Some b -> biases !! i = Some c ->
       variances !! i = Some d ->
       rows !! i = Some (str_x xi +:+ "," +:+ str_v a +:+ "," +:+ str_v b
                         +:+ "," +:+ str_v c +:+ "," +:+ str_v d +:+ nl)).
Proof.
  intros Ha Hb Hc Hd.
  exists (table_rows str_x str_v x mses_train mses_test biases variances).
  eexists. split; [apply write_to_file_run; lia|].
  split; [by rewrite lookup_insert_eq|].
  split; [intros f Hf; by rewrite lookup_insert_ne|].
  split; [apply table_rows_length; lia|].
  intros i xi a b c d Hx Ha' Hb' Hc' Hd'.
  by rewrite (table_rows_lookup str_x str_v _ _ _ _ _ i xi a b c d).
Qed.

Lemma write_to_file_table_witness :
  exists fs',
    write_to_file pretty pretty "t.csv" [1; 2]%Z [10; 20]%Z [30; 40]%Z
      [50; 60]%Z [70; 80]%Z "degree" ∅ = (Ok tt, fs') /\
    fs' !! "output/data/t.csv"
    = Some ("degree,mse_train,mse_test,bias,variance" +:+ nl
            +:+ "1,10,30,50,70" +:+ nl +:+ "2,20,40,60,80" +:+ nl).
Proof.
  destruct (write_to_file_table (pretty : Z -> string) (pretty : Z -> string)
              "t.csv" [1; 2]%Z [10; 20]%Z [30; 40]%Z [50; 60]%Z [70; 80]%Z
              "degree" ∅ eq_refl eq_refl eq_refl eq_refl)
    as (rows & fs' & Hrun & _).
  exists fs'. split; [exact Hrun|].
  vm_compute in Hrun. injection Hrun as <-. reflexivity.
Defined.

(** ** The sweep *)

Lemma mapM_M_runs {St A B} (f : A -> M St B) (l : list A) (s s' : St)
    (bs : list B) :
  mapM_M f l s = (Ok bs, s') <-> runs f l s bs s'.
Proof.
  split.
  - revert s bs. induction l as [|a l IH]; intros s bs; simpl.
    + intros [= <- <-]. constructor.
    + unfold mbind, M_bind.
      destruct (f a s) as [[b|e] s1] eqn:Hf; [|done].
      destruct (mapM_M f l s1) as [[bs'|e] s2] eqn:Hl; [|done].
      intros [= <- <-]. econstructor; [exact Hf|]. by apply IH.
  - induction 1 as [s|a l s s1 s2 b bs Hf _ IH]; simpl; [done|].
    unfold mbind, M_bind in *. by rewrite Hf, IH.
Qed.

Lemma runs_length {St A B} (f : A -> M St B) (l : list A) (s s' : St)
    (bs : list B) :
  runs f l s bs s' -> length bs = length l.
Proof. induction 1; simpl; congruence. Qed.

(** The first call that raises ends the sequence. *)
Lemma mapM_M_raise {St A B} (f : A -> M St B) (pre post : list A) (a : A)
    (s s1 s2 : St) (bs : list B) (e : exn) :
  runs f pre s bs s1 -> f a s1 = (Raise e, s2) ->
  mapM_M f (pre ++ a :: post)%list s = (Raise e, s2).
Proof.
  induction 1 as [s|a' l s s1' s2' b bs' Hf _ IH]; intros Ha; simpl.
  - unfold mbind, M_bind. by rewrite Ha.
  - unfold mbind, M_bind in *. rewrite Hf. by rewrite IH.
Qed.

Section SweepFacts.
Context `{Collaborators}.

Lemma ols_step_estimate (acc : accumulators) (deg : Z) (w : world) :
  ols_step acc deg w
  = match estimate deg (w_rng w) with
    | (Ok r, g') =>
        (Ok ((acc.1.1.1 ++ [mse_train_of r])%list,
             (acc.1.1.2 ++ [mse_test_of r])%list,
             (acc.1.2 ++ [bias_of r])%list,
             (acc.2 ++ [variance_of r])%list),
         {| w_rng := g'; w_fs := w_fs w |})
    | (Raise e, g') => (Raise e, {| w_rng := g'; w_fs := w_fs w |})
    end.
Proof.
  destruct acc as [[[tr te] bi] va]. unfold ols_step, estimate.
  unfold mbind, M_bind, lift_rng. simpl.
  destruct (FrankeData_init DATA_SIZE (ols_kwargs deg) (w_rng w))
    as [[d|e] ga]; [|done]. simpl.
  destruct (OrdinaryLeastSquares ga) as [[reg|e] gb]; [|done]. simpl.
  destruct (bootstrap_bias_variance reg d BIAS_VARIANCE_BOOTSTRAP_SIZE gb)
    as [[[[[bias var] mtr] mte]|e] gc]; done.
Qed.

Lemma sweep_loop (l : list Z) (acc : accumulators) (w : world) :
  foldM_M ols_step l acc w
  = match mapM_M estimate l (w_rng w) with
    | (Ok rs, g') =>
        (Ok ((acc.1.1.1 ++ (mse_train_of <$> rs))%list,
             (acc.1.1.2 ++ (mse_test_of <$> rs))%list,
             (acc.1.2 ++ (bias_of <$> rs))%list,
             (acc.2 ++ (variance_of <$> rs))%list),
         {| w_rng := g'; w_fs := w_fs w |})
    | (Raise e, g') => (Raise e, {| w_rng := g'; w_fs := w_fs w |})
    end.
Proof.
  revert acc w. induction l as [|deg l IH]; intros acc w.
  - destruct acc as [[[tr te] bi] va], w as [g fs]. simpl.
    by rewrite !app_nil_r.
  - cbn [foldM_M mapM_M]. unfold mbind, M_bind.
    rewrite ols_step_estimate.
    destruct (estimate deg (w_rng w)) as [[r|e] g1]; [|done].
    rewrite IH. cbn [w_rng w_fs fst snd].
    destruct (mapM_M estimate l g1) as [[rs|e] g2]; [|done].
    cbn [fmap list_fmap mret M_ret].
    by rewrite <- !app_assoc.
Qed.

(** The whole sweep in terms of the sequence of estimates. *)
Lemma sweep_run (w : world) :
  bias_variance_analysis_ols w
  = match mapM_M estimate (range2 1 16) (w_rng w) with
    | (Ok rs, g') =>
        (Ok tt,
         {| w_rng := g';
            w_fs := <["output/data/bias_variance_ols.csv" :=
                      table_text pretty float_str "degree" (range2 1 16)
                        (mse_train_of <$> rs) (mse_test_of <$> rs)
                        (bias_of <$> rs) (variance_of <$> rs)]> (w_fs w) |})
    | (Raise e, g') => (Raise e, {| w_rng := g'; w_fs := w_fs w |})
    end.
Proof.
  unfold bias_variance_analysis_ols. cbv zeta.
  unfold mbind, M_bind. rewrite sweep_loop.
  destruct (mapM_M estimate (range2 1 16) (w_rng w)) as [[rs|e] g'] eqn:Hrs;
    [|done].
  apply mapM_M_runs, runs_length in Hrs. cbn [fst snd app].
  unfold lift_fs. cbn [w_rng w_fs].
  rewrite write_to_file_run by (rewrite !length_fmap, Hrs; done).
  done.
Qed.
End SweepFacts.

Lemma range2_1_16 :
  range2 1 16 = [1; 2; 3; 4; 5; 6; 7; 8; 9; 10; 11; 12; 13; 14; 15]%Z.
Proof. reflexivity. Qed.

(** C8. The sweep visits the degrees 1, 2, ..., 15 in this order and is
    one call of the estimator per degree, each in the state the previous
    left, followed by the writing of the table. The lists handed to
    [write_to_file] are, position by position, the third (train MSE), the
    fourth (test MSE), the first (bias squared) and the second (variance)
    component of the estimates; so when the calls succeed, row [i] of the
    table holds degree [1 + i] and the four scalars of call [i]. *)
Theorem sweep_once_per_degree `{Collaborators} (w : world) :
  range2 1 16 = [1; 2; 3; 4; 5; 6; 7; 8; 9; 10; 11; 12; 13; 14; 15]%Z /\
  bias_variance_analysis_ols w
  = (rs ← lift_rng (mapM_M estimate (range2 1 16));
     lift_fs (write_to_file pretty float_str "bias_variance_ols.csv"
                (range2 1 16)
                (mse_train_of <$> rs) (mse_test_of <$> rs)
                (bias_of <$> rs) (variance_of <$> rs) "degree")) w /\
  (forall rs g', runs estimate (range2 1 16) (w_rng w) rs g' ->
     exists w' rows,
       bias_variance_analysis_ols w = (Ok tt, w') /\
       w_rng w' = g' /\
       length rs = 15%nat /\ length rows = 15%nat /\
       w_fs w' !! "output/data/bias_variance_ols.csv"
       = Some (("degree" +:+ ",mse_train,mse_test,bias,variance" +:+ nl)
               +:+ foldr String.append "" rows) /\
       (forall (i : nat) bias variance mse_train mse_test,
          rs !! i = Some (bias, variance, mse_train, mse_test) ->
          rows !! i
          = Some (pretty (1 + Z.of_nat i)%Z +:+ "," +:+ float_str mse_train
                  +:+ "," +:+ float_str mse_test +:+ "," +:+ float_str bias
                  +:+ "," +:+ float_str variance +:+ nl))).
Proof.
  split; [reflexivity|]. split.
  - rewrite sweep_run. unfold mbind, M_bind, lift_rng.
    destruct (mapM_M estimate (range2 1 16) (w_rng w)) as [[rs|e] g'] eqn:Hrs;
      [|done].
    apply mapM_M_runs, runs_length in Hrs.
    unfold lift_fs. cbn [w_rng w_fs].
    rewrite write_to_file_run by (rewrite !length_fmap, Hrs; done). done.
  - intros rs g' Hruns. rewrite sweep_run.
    pose proof (runs_length _ _ _ _ _ Hruns) as Hlen.
    apply mapM_M_runs in Hruns. rewrite Hruns.
    eexists _, (table_rows pretty float_str (range2 1 16)
                  (mse_train_of <$> rs) (mse_test_of <$> rs)
                  (bias_of <$> rs) (variance_of <$> rs)).
    split; [reflexivity|]. cbn [w_rng w_fs].
    split; [reflexivity|]. split; [by rewrite Hlen|].
    split. { rewrite table_rows_length; rewrite ?length_fmap, ?Hlen; done. }
    split. { by rewrite lookup_insert_eq. }
    intros i bias variance mse_train mse_test Hi.
    apply table_rows_lookup; rewrite ?list_lookup_fmap, ?Hi; try done.
    unfold range2. apply lookup_seqZ. apply lookup_lt_Some in Hi.
    rewrite Hlen in Hi. change (length (range2 1 16)) with 15%nat in Hi. lia.
Qed.

(** C7. The table is written only after every estimate is there. If a
    call of the estimator raises (the datasets and estimates before it
    having succeeded), the sweep raises the same exception and the file
    system is as it was; whenever the sweep raises, the file system is
    as it was; and when it returns, the file holds the complete table of
    15 rows. *)
Theorem sweep_writes_all_or_nothing `{Collaborators} (w : world) :
  (forall pre d post rs g1 dataset ga reg gb e g2,
     range2 1 16 = (pre ++ d :: post)%list ->
     runs estimate pre (w_rng w) rs g1 ->
     FrankeData_init DATA_SIZE (ols_kwargs d) g1 = (Ok dataset, ga) ->
     OrdinaryLeastSquares ga = (Ok reg, gb) ->
     bootstrap_bias_variance reg dataset BIAS_VARIANCE_BOOTSTRAP_SIZE gb
     = (Raise e, g2) ->
     bias_variance_analysis_ols w
     = (Raise e, {| w_rng := g2; w_fs := w_fs w |})) /\
  (forall e w', bias_variance_analysis_ols w = (Raise e, w') ->
     w_fs w' = w_fs w) /\
  (forall u w', bias_variance_analysis_ols w = (Ok u, w') ->
     exists rs,
       runs estimate (range2 1 16) (w_rng w) rs (w_rng w') /\
       length (table_rows pretty float_str (range2 1 16)
                 (mse_train_of <$> rs) (mse_test_of <$> rs)
                 (bias_of <$> rs) (variance_of <$> rs)) = 15%nat /\
       w_fs w'
       = <["output/data/bias_variance_ols.csv" :=
           table_text pretty float_str "degree" (range2 1 16)
             (mse_train_of <$> rs) (mse_test_of <$> rs)
             (bias_of <$> rs) (variance_of <$> rs)]> (w_fs w)).
Proof.
  split; [|split].
  - intros pre d post rs g1 dataset ga reg gb e g2 Hsplit Hpre Hdata Hreg Hest.
    rewrite sweep_run, Hsplit.
    rewrite (mapM_M_raise estimate pre post d (w_rng w) g1 g2 rs e Hpre);
      [done|].
    unfold estimate, mbind, M_bind. by rewrite Hdata, Hreg, Hest.
  - intros e w'. rewrite sweep_run.
    destruct (mapM_M estimate (range2 1 16) (w_rng w)) as [[rs|e'] g'];
      [done|]. by intros [= _ <-].
  - intros u w'. rewrite sweep_run.
    destruct (mapM_M estimate (range2 1 16) (w_rng w)) as [[rs|e'] g'] eqn:Hrs;
      [|done]. intros [= _ <-]. exists rs. cbn [w_rng w_fs].
    apply mapM_M_runs in Hrs. split; [done|]. split; [|done].
    apply runs_length in Hrs.
    rewrite table_rows_length; rewrite ?length_fmap, ?Hrs; done.
Qed.

(** ** The sweep on the tape source *)

Lemma toy_init (bad d : Z) :
  (0 <= d)%Z ->
  exists obj,
    @FrankeData_init tape_source (@toy_collaborators tape_source bad 1) 1
      (@ols_kwargs tape_source (@toy_collaborators tape_source bad 1) d) []
    = (Ok obj, []) /\ degree obj = d.
Proof.
  intros Hd.
  destruct (@FrankeData_init_run tape_source
              (@toy_collaborators tape_source bad 1) 1
              (@ols_kwargs tape_source (@toy_collaborators tape_source bad 1) d)
              [])
    as (x & y & X & z0 & z & _ & _ & _ & _ & _ & _ & _ & _ & Hrun);
    [lia | exact Hd | reflexivity
    | intros _; simpl; unfold DEFAULT_NOISE_LEVEL; lra |].
  eexists. split; [exact Hrun | reflexivity].
Qed.

Lemma toy_estimate (bad d : Z) :
  (0 <= d)%Z -> d <> bad ->
  @estimate tape_source (@toy_collaborators tape_source bad 1) d []
  = (Ok (IZR d, 0, 0, 0), []).
Proof.
  intros Hd Hbad. destruct (toy_init bad d Hd) as (obj & Hinit & Hdeg).
  unfold estimate. erewrite M_bind_Ok by exact Hinit.
  erewrite M_bind_Ok by reflexivity.
  cbn [bootstrap_bias_variance toy_collaborators].
  rewrite Hdeg. by rewrite decide_False.
Qed.

Lemma sweep_once_per_degree_witness :
  exists w' rows,
    @bias_variance_analysis_ols tape_source
      (@toy_collaborators tape_source 0 1) (@Build_world tape_source [] ∅)
    = (Ok tt, w') /\
    length rows = 15%nat /\
    rows !! 2%nat
    = Some (pretty (1 + Z.of_nat 2)%Z +:+ "," +:+ "r" +:+ "," +:+ "r"
            +:+ "," +:+ "r" +:+ "," +:+ "r" +:+ nl).
Proof.
  pose (C := @toy_collaborators tape_source 0 1).
  pose (rs := (fun d => (IZR d, 0, 0, 0)) <$>
              [1; 2; 3; 4; 5; 6; 7; 8; 9; 10; 11; 12; 13; 14; 15]%Z).
  assert (Hruns : runs (@estimate tape_source C) (range2 1 16) [] rs []).
  { rewrite range2_1_16. unfold rs. cbn [fmap list_fmap].
    repeat (eapply runs_cons; [apply toy_estimate; lia|]).
    apply runs_nil. }
  destruct (proj2 (proj2 (@sweep_once_per_degree tape_source C
                            (@Build_world tape_source [] ∅))) rs [] Hruns)
    as (w' & rows & Hrun & _ & _ & Hlen & _ & Hrows).
  exists w', rows. split; [exact Hrun|]. split; [exact Hlen|].
  exact (Hrows 2%nat (IZR 3) 0 0 0 eq_refl).
Defined.

Lemma sweep_writes_all_or_nothing_witness :
  exists e w',
    @bias_variance_analysis_ols tape_source
      (@toy_collaborators tape_source 3 1) (@Build_world tape_source [] ∅)
    = (Raise e, w') /\
    w_fs w' = ∅.
Proof.
  pose (C := @toy_collaborators tape_source 3 1).
  destruct (toy_init 3 3 ltac:(lia)) as (obj & Hinit & Hdeg).
  assert (Hpre : runs (@estimate tape_source C) [1; 2]%Z []
                   [(IZR 1, 0, 0, 0); (IZR 2, 0, 0, 0)] []).
  { repeat (eapply runs_cons; [apply toy_estimate; lia|]). apply runs_nil. }
  exists (External 0), (@Build_world tape_source [] ∅).
  split; [|reflexivity].
  apply (proj1 (@sweep_writes_all_or_nothing tape_source C
                  (@Build_world tape_source [] ∅))
           [1; 2]%Z 3%Z [4; 5; 6; 7; 8; 9; 10; 11; 12; 13; 14; 15]%Z
           _ [] obj [] tt [] (External 0) [] eq_refl Hpre Hinit eq_refl).
  cbn [bootstrap_bias_variance toy_collaborators C].
  rewrite Hdeg. by rewrite decide_True.
Defined.

(** * Further properties of the code *)

Open Scope Z_scope.

(** ** The design matrix beyond arrays of one length *)

Section DesignMatrixMore.
Context {A : Type} `{Scalar A}.
Implicit Types (x y : list A) (X : ndarray2 A).

Lemma zip_with_replicate_r_fmap {B C} (f : A -> B -> C) (u : list A) (b : B) :
  zip_with f u (replicate (length u) b) = (fun a => f a b) <$> u.
Proof. induction u as [|a u IH]; simpl; [done | by rewrite IH]. Qed.

(** A one-element [y] acts as that element repeated. *)
Lemma np_mul_pow_singleton x (b : A) (e1 e2 : Z) :
  np_mul (np_pow x e1) (np_pow [b] e2)
  = np_mul (np_pow x e1) (np_pow (replicate (length x) b) e2).
Proof.
  unfold np_mul, np_pow. rewrite fmap_replicate. simpl.
  destruct (decide (length x = 1%nat)) as [Hx|Hx].
  - by rewrite Hx.
  - rewrite broadcast2_right by (by rewrite length_fmap).
    rewrite broadcast2_same by (by rewrite length_fmap, length_replicate).
    f_equal. rewrite <- (length_fmap (fun a => spow a e1) x).
    by rewrite zip_with_replicate_r_fmap.
Qed.

Lemma generate_design_matrix_ext (degree : Z) x y y' :
  (forall e1 e2, np_mul (np_pow x e1) (np_pow y e2)
                 = np_mul (np_pow x e1) (np_pow y' e2)) ->
  generate_design_matrix degree x y = generate_design_matrix degree x y'.
Proof.
  intros Hmul. unfold generate_design_matrix.
  destruct (np_ones _ _) as [X0|e]; [|done]. simpl.
  apply foldM_ext. intros X i _. apply foldM_ext. intros X' j _.
  by rewrite Hmul.
Qed.

Lemma generate_design_matrix_singleton_y (degree : Z) x (b : A) :
  generate_design_matrix degree x [b]
  = generate_design_matrix degree x (replicate (length x) b).
Proof.
  apply generate_design_matrix_ext. intros e1 e2. apply np_mul_pow_singleton.
Qed.
End DesignMatrixMore.

Section DesignMatrixErrors.
Context {A : Type} `{Scalar A}.
Implicit Types (x y : list A) (X : ndarray2 A).

Lemma broadcast_to_mismatch (n : nat) (v : list A) :
  length v <> n -> length v <> 1%nat -> broadcast_to n v = Raise ValueError.
Proof.
  intros Hn H1. unfold broadcast_to. rewrite decide_False by done.
  destruct v as [|a [|a' v]]; simpl in *; done.
Qed.

(** The first assignment of the loop nest already fails when the shapes
    do not fit. *)
Lemma generate_design_matrix_mismatch (degree : Z) x y :
  1 <= degree -> length y <> length x -> length y <> 1%nat ->
  generate_design_matrix degree x y = Raise ValueError.
Proof.
  intros Hd Hxy Hy. unfold generate_design_matrix, get_number_of_parameters.
  rewrite quot_tri by lia.
  assert (Hp : 3 <= tri degree) by (pose proof (tri_double degree); nia).
  destruct (np_ones_spec (length x) (tri degree))
    as (X0 & -> & Hwf0 & Hn0 & Hp0 & _); [lia|].
  rewrite result_bind_Ok.
  replace (range degree) with (0 :: seqZ 1 (degree - 1))
    by (unfold range; rewrite (seqZ_cons 0 degree) by lia; done).
  cbn [foldM]. change (range (0 + 2)) with [0; 1]. cbn [foldM].
  change (0 - 0 + 1) with 1.
  destruct (decide (length x = 1%nat)) as [Hx|Hx].
  - destruct x as [|a [|a' x]]; simpl in Hx; try lia.
    unfold np_mul, np_pow.
    rewrite (list_fmap_singleton (fun a0 => spow a0 1) a).
    rewrite broadcast2_left by (by rewrite length_fmap).
    rewrite result_bind_Ok. unfold setcol.
    rewrite norm_index_in_range by (rewrite Hp0; change (Z.quot ((0 + 1) * (0 + 2)) 2 + 0) with 1; lia).
    rewrite result_bind_Ok.
    rewrite broadcast_to_mismatch; [done| |].
    + rewrite !length_fmap, Hn0. simpl. done.
    + by rewrite !length_fmap.
  - unfold np_mul, np_pow.
    rewrite (broadcast2_mismatch smul ((fun a => spow a 1) <$> x)
               ((fun a => spow a 0) <$> y))
      by (rewrite !length_fmap; lia).
    done.
Qed.
End DesignMatrixErrors.

(** X1. For a degree of at least 1, [generate_design_matrix] returns a
    matrix exactly when [y] is as long as [x] or has one element; the
    matrix then has [len(x)] rows. For any other [y] it raises
    [ValueError]. *)
Theorem generate_design_matrix_succeeds_iff {A} `{Scalar A}
    (degree : Z) (x y : list A) :
  1 <= degree ->
  ((exists X, generate_design_matrix degree x y = Ok X) <->
   (length y = length x \/ length y = 1%nat)) /\
  (forall X, generate_design_matrix degree x y = Ok X ->
     nrows X = length x /\ Z.of_nat (ncols X) = (degree + 1) * (degree + 2) / 2) /\
  (length y <> length x -> length y <> 1%nat ->
   generate_design_matrix degree x y = Raise ValueError).
Proof.
  intros Hd.
  assert (Hok : length y = length x \/ length y = 1%nat ->
    exists X, generate_design_matrix degree x y = Ok X /\
      nrows X = length x /\ Z.of_nat (ncols X) = tri degree).
  { intros [Hxy|Hy].
    - destruct (generate_design_matrix_spec degree x y) as (X & HX & _ & Hn & Hp & _);
        [done | lia |]. by exists X.
    - destruct y as [|b [|b' y]]; simpl in Hy; try lia.
      rewrite generate_design_matrix_singleton_y.
      destruct (generate_design_matrix_spec degree x (replicate (length x) b))
        as (X & HX & _ & Hn & Hp & _); [by rewrite length_replicate | lia |].
      by exists X. }
  split; [split|split].
  - intros [X HX].
    destruct (decide (length y = length x)) as [|Hne]; [by left|].
    destruct (decide (length y = 1%nat)) as [|Hne1]; [by right|].
    rewrite generate_design_matrix_mismatch in HX by done. done.
  - intros Hshape. destruct (Hok Hshape) as (X & HX & _). by exists X.
  - intros X HX.
    destruct (decide (length y = length x)) as [Hxy|Hne].
    { destruct (Hok (or_introl Hxy)) as (X' & HX' & Hn & Hp).
      rewrite HX in HX'. by injection HX' as <-. }
    destruct (decide (length y = 1%nat)) as [Hy|Hne1].
    { destruct (Hok (or_intror Hy)) as (X' & HX' & Hn & Hp).
      rewrite HX in HX'. by injection HX' as <-. }
    rewrite generate_design_matrix_mismatch in HX by done. done.
  - intros Hne Hne1. by apply generate_design_matrix_mismatch.
Qed.

Lemma generate_design_matrix_succeeds_iff_witness :
  1 <= 2 /\
  generate_design_matrix 2 [2; 3] [5; 7; 11] = Raise ValueError /\
  (exists X, generate_design_matrix 2 [2; 3] [5] = Ok X).
Proof.
  destruct (generate_design_matrix_succeeds_iff 2 [2; 3] [5; 7; 11] ltac:(lia))
    as (_ & _ & Hfail).
  destruct (generate_design_matrix_succeeds_iff 2 [2; 3] [5] ltac:(lia))
    as ([_ Hok] & _).
  split; [lia|]. split.
  - apply Hfail; simpl; lia.
  - apply Hok. right. reflexivity.
Defined.

(** X2. A [y] with one element is stretched over the rows: the design
    matrix is that of [x] and [y] repeated [len(x)] times, whatever the
    degree, and its column [(i+1)(i+2)/2 + j] is [x^(i-j+1)] times the
    one number [y[0]^j]. *)
Theorem generate_design_matrix_stretches_y {A} `{Scalar A}
    (degree : Z) (x : list A) (b : A) :
  generate_design_matrix degree x [b]
  = generate_design_matrix degree x (replicate (length x) b) /\
  (forall i j, 0 <= i < degree -> 0 <= j <= i + 1 ->
     exists X, generate_design_matrix degree x [b] = Ok X /\
       getcol X ((i + 1) * (i + 2) / 2 + j)
       = Ok ((fun u => smul (spow u (i - j + 1)) (spow b j)) <$> x)).
Proof.
  split; [apply generate_design_matrix_singleton_y|].
  intros i j Hi Hj. rewrite generate_design_matrix_singleton_y.
  destruct (generate_design_matrix_spec degree x (replicate (length x) b))
    as (X & HX & _ & _ & _ & _ & Hcols); [by rewrite length_replicate | lia |].
  exists X. split; [done|]. fold (tri i). rewrite Hcols by done.
  unfold monomial. by rewrite zip_with_replicate_r_fmap.
Qed.



(** X4. The feature sets are nested: for arrays of one length and
    degrees [0 <= d <= d'], the matrix of degree [d'] starts with the
    columns of the matrix of degree [d]; one more degree adds [d + 2]
    columns. *)
Theorem generate_design_matrix_nested {A} `{Scalar A}
    (d d' : Z) (x y : list A) :
  length x = length y -> 0 <= d <= d' ->
  exists X X',
    generate_design_matrix d x y = Ok X /\
    generate_design_matrix d' x y = Ok X' /\
    (ncols X <= ncols X')%nat /\
    (d' = d + 1 -> Z.of_nat (ncols X') = Z.of_nat (ncols X) + d + 2) /\
    (forall c, 0 <= c < Z.of_nat (ncols X) -> getcol X' c = getcol X c).
Proof.
  intros Hxy [Hd Hdd'].
  destruct (generate_design_matrix_spec d x y Hxy Hd)
    as (X & HX & _ & _ & Hp & Hc0 & Hcols).
  destruct (generate_design_matrix_spec d' x y Hxy ltac:(lia))
    as (X' & HX' & _ & _ & Hp' & Hc0' & Hcols').
  exists X, X'. split; [done|]. split; [done|].
  assert (Hmono : tri d <= tri d').
  { destruct (decide (d = d')) as [->|]; [lia|].
    pose proof (tri_mono d d'). lia. }
  split; [lia|]. split.
  { intros ->. rewrite Hp, Hp', tri_succ. lia. }
  intros c Hc.
  destruct (decide (c = 0)) as [->|Hc1]; [by rewrite Hc0, Hc0'|].
  assert (Hin : c ∈ seqZ 1 (tri d - 1)) by (apply elem_of_seqZ; lia).
  rewrite <- visited_columns in Hin by lia.
  apply list_elem_of_fmap in Hin as ([i j] & -> & Hij).
  apply elem_of_visited in Hij. simpl.
  rewrite Hcols, Hcols' by lia. done.
Qed.

Lemma generate_design_matrix_nested_witness :
  length [2; 3] = length [5; 7] /\ 0 <= 1 <= 2 /\
  exists X X',
    generate_design_matrix 1 [2; 3] [5; 7] = Ok X /\
    generate_design_matrix 2 [2; 3] [5; 7] = Ok X' /\
    getcol X' 2 = getcol X 2.
Proof.
  split; [reflexivity|]. split; [lia|].
  destruct (generate_design_matrix_nested 1 2 [2; 3] [5; 7] eq_refl ltac:(lia))
    as (X & X' & HX & HX' & _ & _ & Hcols).
  exists X, X'. split; [exact HX|]. split; [exact HX'|].
  apply Hcols. vm_compute in HX. injection HX as <-. simpl. lia.
Defined.

Section Stacking.
Context {A : Type} `{Scalar A}.
Implicit Types (X : ndarray2 A).

Lemma omap_lookup_column (k : nat) (rs : list (list A)) (r : nat) :
  Forall (fun row => (k < length row)%nat) rs ->
  omap (fun row => row !! k) rs !! r = rs !! r ≫= (fun row => row !! k).
Proof.
  intros Hrs. revert r. induction Hrs as [|row rs Hrow _ IH]; intros r.
  - done.
  - destruct (lookup_lt_is_Some_2 row k Hrow) as [e He].
    change (omap (λ row0 : list A, row0 !! k) (row :: rs))
      with (match row !! k with
            | Some e' => e' :: omap (λ row0 : list A, row0 !! k) rs
            | None => omap (λ row0 : list A, row0 !! k) rs
            end).
    rewrite He. destruct r as [|r]; simpl; [by rewrite He | apply IH].
Qed.

(** Two well-formed arrays of one shape with the same columns are the
    same. *)
Lemma ndarray2_rows_ext X X' :
  wf_ndarray2 X -> wf_ndarray2 X' ->
  nrows X = nrows X' -> ncols X = ncols X' ->
  (forall c, 0 <= c < Z.of_nat (ncols X) -> getcol X c = getcol X' c) ->
  rows X = rows X'.
Proof.
  intros [Hn Hp] [Hn' Hp'] Hnn Hpp Hcols. apply list_eq. intros r.
  destruct (rows X !! r) as [row|] eqn:Hr, (rows X' !! r) as [row'|] eqn:Hr'.
  - f_equal. apply list_eq. intros k.
    assert (Hlen : length row = ncols X)
      by (eapply (Forall_lookup_1 _ _ _ _ Hp); done).
    assert (Hlen' : length row' = ncols X')
      by (eapply (Forall_lookup_1 _ _ _ _ Hp'); done).
    destruct (decide (k < ncols X)%nat) as [Hk|Hk].
    + specialize (Hcols (Z.of_nat k) ltac:(lia)).
      rewrite !getcol_in_range in Hcols by lia.
      injection Hcols as Hcols. rewrite Nat2Z.id in Hcols.
      assert (Hat : omap (fun row => row !! k) (rows X) !! r
                    = omap (fun row => row !! k) (rows X') !! r)
        by (by rewrite Hcols).
      rewrite !omap_lookup_column in Hat.
      * by rewrite Hr, Hr' in Hat.
      * eapply Forall_impl; [exact Hp'|]. simpl. intros ? ->. lia.
      * eapply Forall_impl; [exact Hp|]. simpl. intros ? ->. lia.
    + rewrite !lookup_ge_None_2 by lia. done.
  - apply lookup_lt_Some in Hr. apply lookup_ge_None in Hr'. lia.
  - apply lookup_ge_None in Hr. apply lookup_lt_Some in Hr'. lia.
  - done.
Qed.

Lemma monomial_app (a b : Z) (x1 x2 y1 y2 : list A) :
  length x1 = length y1 ->
  monomial a b (x1 ++ x2) (y1 ++ y2)
  = (monomial a b x1 y1 ++ monomial a b x2 y2)%list.
Proof. intros Hxy. unfold monomial. by apply zip_with_app. Qed.

(** X5. The matrix is built row by row from the points: for a degree of
    at least 0, the design matrix of two batches of points put one after
    the other is the design matrix of the first on top of that of the
    second. *)
Theorem generate_design_matrix_stacks (degree : Z) (x1 x2 y1 y2 : list A) :
  length x1 = length y1 -> length x2 = length y2 -> 0 <= degree ->
  exists X1 X2,
    generate_design_matrix degree x1 y1 = Ok X1 /\
    generate_design_matrix degree x2 y2 = Ok X2 /\
    generate_design_matrix degree (x1 ++ x2) (y1 ++ y2)
    = Ok {| nrows := nrows X1 + nrows X2;
            ncols := ncols X1;
            rows := (rows X1 ++ rows X2)%list |}.
Proof.
  intros H1 H2 Hd.
  destruct (generate_design_matrix_spec degree x1 y1 H1 Hd)
    as (X1 & HX1 & [Hn1 Hr1] & Hl1 & Hp1 & Hc01 & Hcols1).
  destruct (generate_design_matrix_spec degree x2 y2 H2 Hd)
    as (X2 & HX2 & [Hn2 Hr2] & Hl2 & Hp2 & Hc02 & Hcols2).
  destruct (generate_design_matrix_spec degree (x1 ++ x2) (y1 ++ y2))
    as (X & HX & Hwf & Hl & Hp & Hc0 & Hcols);
    [rewrite !length_app; lia | done |].
  exists X1, X2. split; [done|]. split; [done|]. rewrite HX. f_equal.
  pose (Xs := {| nrows := nrows X1 + nrows X2; ncols := ncols X1;
                 rows := (rows X1 ++ rows X2)%list |}).
  assert (Hwfs : wf_ndarray2 Xs).
  { split; simpl.
    - rewrite length_app. lia.
    - apply Forall_app. split; [done|].
      eapply Forall_impl; [exact Hr2|]. simpl. intros ? ->. lia. }
  assert (Hgets : forall c, 0 <= c < Z.of_nat (ncols X1) ->
    forall v1 v2, getcol X1 c = Ok v1 -> getcol X2 c = Ok v2 ->
    getcol Xs c = Ok (v1 ++ v2)%list).
  { intros c Hc v1 v2. rewrite !getcol_in_range by (simpl; lia). simpl.
    intros [= <-] [= <-]. by rewrite omap_app. }
  assert (Hrows : rows X = rows Xs).
  { apply ndarray2_rows_ext; try done.
    - simpl. rewrite Hl, length_app. lia.
    - simpl. lia.
    - intros c Hc.
      destruct (decide (c = 0)) as [->|Hc1].
      + rewrite Hc0. erewrite Hgets; [|lia|exact Hc01|exact Hc02].
        by rewrite length_app, replicate_add.
      + assert (Hin : c ∈ seqZ 1 (tri degree - 1))
          by (apply elem_of_seqZ; lia).
        rewrite <- visited_columns in Hin by lia.
        apply list_elem_of_fmap in Hin as ([i j] & -> & Hij).
        apply elem_of_visited in Hij. simpl in *.
        rewrite Hcols by lia.
        erewrite Hgets; [|lia|apply Hcols1; lia|apply Hcols2; lia].
        by rewrite monomial_app. }
  destruct X as [n p rs]. simpl in *. subst rs. f_equal.
  - rewrite Hl, length_app. lia.
  - lia.
Qed.
End Stacking.

Lemma generate_design_matrix_stacks_witness :
  length [2] = length [5] /\ length [3] = length [7] /\ 0 <= 2 /\
  exists X1 X2,
    generate_design_matrix 2 [2] [5] = Ok X1 /\
    generate_design_matrix 2 [3] [7] = Ok X2 /\
    generate_design_matrix 2 [2; 3] [5; 7]
    = Ok {| nrows := nrows X1 + nrows X2; ncols := ncols X1;
            rows := (rows X1 ++ rows X2)%list |}.
Proof.
  split; [reflexivity|]. split; [reflexivity|]. split; [lia|].
  exact (generate_design_matrix_stacks 2 [2] [3] [5] [7] eq_refl eq_refl
           ltac:(lia)).
Defined.

(** ** The Franke function: shapes and range *)

Lemma broadcast2_elem {A} (f : A -> A -> A) (u v l : list A) :
  broadcast2 f u v = Ok l ->
  forall e, e ∈ l -> exists a b, a ∈ u /\ b ∈ v /\ e = f a b.
Proof.
  intros Hl e He.
  destruct (broadcast_cases u v)
    as [Heq|[(a & -> & Hv)|[(b & -> & Hu)|(Hne & Hu & Hv)]]].
  - rewrite broadcast2_same in Hl by done. injection Hl as <-.
    apply elem_of_zip_with in He as (a & b & -> & Ha & Hb). by exists a, b.
  - rewrite broadcast2_left in Hl by done. injection Hl as <-.
    apply list_elem_of_fmap in He as (b & -> & Hb).
    exists a, b. split; [by left|]. done.
  - rewrite broadcast2_right in Hl by done. injection Hl as <-.
    apply list_elem_of_fmap in He as (a & -> & Ha).
    exists a, b. split; [done|]. split; [by left|]. done.
  - by rewrite broadcast2_mismatch in Hl.
Qed.



Open Scope R_scope.

Lemma exp_le_1 (t : R) : t <= 0 -> exp t <= 1.
Proof.
  intros [Ht | ->]; [|rewrite exp_0; lra].
  rewrite <- exp_0. left. by apply exp_increasing.
Qed.

Lemma franke_formula_bounds (a b : R) :
  -0.2 < franke_formula a b /\ (-1/9 <= b -> franke_formula a b < 2).
Proof.
  unfold franke_formula.
  pose proof (pow2_ge_0 (9 * a - 2)). pose proof (pow2_ge_0 (9 * b - 2)).
  pose proof (pow2_ge_0 (9 * a + 1)). pose proof (pow2_ge_0 (9 * a - 7)).
  pose proof (pow2_ge_0 (9 * b - 3)). pose proof (pow2_ge_0 (9 * a - 4)).
  pose proof (pow2_ge_0 (9 * b - 7)).
  pose proof (exp_pos (- (9 * a - 2) ^ 2 / 4 - (9 * b - 2) ^ 2 / 4)).
  pose proof (exp_pos (- (9 * a + 1) ^ 2 / 49 - 0.1 * (9 * b + 1))).
  pose proof (exp_pos (- (9 * a - 7) ^ 2 / 4 - (9 * b - 3) ^ 2 / 4)).
  pose proof (exp_pos (- (9 * a - 4) ^ 2 - (9 * b - 7) ^ 2)).
  pose proof (exp_le_1 (- (9 * a - 4) ^ 2 - (9 * b - 7) ^ 2) ltac:(lra)).
  split; [lra|]. intros Hb.
  pose proof (exp_le_1 (- (9 * a - 2) ^ 2 / 4 - (9 * b - 2) ^ 2 / 4)
                ltac:(lra)).
  pose proof (exp_le_1 (- (9 * a + 1) ^ 2 / 49 - 0.1 * (9 * b + 1))
                ltac:(lra)).
  pose proof (exp_le_1 (- (9 * a - 7) ^ 2 / 4 - (9 * b - 3) ^ 2 / 4)
                ltac:(lra)).
  lra.
Qed.

(** X7. Every value [FrankeFunction] returns is above -0.2, and below 2
    when the [y] coordinates are at least -1/9 (as on the unit square):
    the three positive bumps are at most 0.75, 0.75 and 0.5 high and the
    dip is at most 0.2 deep. *)
Theorem FrankeFunction_range (x y f : list R) :
  FrankeFunction x y = Ok f ->
  Forall (fun v => -0.2 < v) f /\
  (Forall (fun b => -1/9 <= b) y -> Forall (fun v => v < 2) f).
Proof.
  rewrite FrankeFunction_broadcast. intros Hf. split.
  - apply Forall_forall. intros e He.
    destruct (broadcast2_elem _ _ _ _ Hf e He) as (a & b & _ & _ & ->).
    apply franke_formula_bounds.
  - intros Hy. apply Forall_forall. intros e He.
    destruct (broadcast2_elem _ _ _ _ Hf e He) as (a & b & _ & Hb & ->).
    apply franke_formula_bounds.
    by apply (proj1 (Forall_forall _ _) Hy).
Qed.

Lemma FrankeFunction_range_witness :
  exists f, FrankeFunction [0; 1] [1; 0] = Ok f /\
            Forall (fun v => -0.2 < v) f.
Proof.
  assert (Hf : FrankeFunction [0; 1] [1; 0]
               = Ok (zip_with franke_formula [0; 1] [1; 0])).
  { rewrite FrankeFunction_broadcast. reflexivity. }
  exists (zip_with franke_formula [0; 1] [1; 0]). split; [exact Hf|].
  exact (proj1 (FrankeFunction_range _ _ _ Hf)).
Defined.

(** ** Noise: refusals and shapes *)

Section NoiseMore.
Context `{RandomSource}.

Lemma generate_noise_negative (n : nat) (sigma : R) (g : rng) :
  sigma < 0 -> generate_noise n (Some sigma) g = (Raise ValueError, g).
Proof.
  intros Hs. unfold generate_noise, np_random_normal, mbind, M_bind. simpl.
  destruct (Rlt_dec sigma 0); [done | lra].
Qed.

(** X8. A negative noise level is refused before anything is drawn:
    [generate_noise] and [NoisyFrankeFunction] raise [ValueError] and
    leave the global random source as it was, whatever the arrays. *)
Theorem negative_noise_level_raises (x y : list R) (sigma : R) (g : rng) :
  sigma < 0 ->
  generate_noise (length x) (Some sigma) g = (Raise ValueError, g) /\
  NoisyFrankeFunction x y sigma g = (Raise ValueError, g).
Proof.
  intros Hs. split; [by apply generate_noise_negative|].
  unfold NoisyFrankeFunction, mbind at 1, M_bind.
  by rewrite generate_noise_negative.
Qed.

(** X9. The noise is drawn before the function is evaluated: when the
    shapes of [x] and [y] do not broadcast, [NoisyFrankeFunction] raises
    [ValueError], but the global random source has already given
    [len(x)] normal draws. *)
Theorem NoisyFrankeFunction_draws_before_failing
    (x y : list R) (sigma : R) (g : rng) :
  0 <= sigma ->
  length x <> length y -> length x <> 1%nat -> length y <> 1%nat ->
  NoisyFrankeFunction x y sigma g
  = (Raise ValueError, (draws (normal_sample 0 sigma) (length x) g).2).
Proof.
  intros Hs Hne Hx Hy. unfold NoisyFrankeFunction.
  erewrite M_bind_Ok by (by apply generate_noise_Ok).
  rewrite FrankeFunction_broadcast, broadcast2_mismatch by done. done.
Qed.

(** X10. The noise has the shape of [x], not of the result: for an [x]
    with one element and a [y] of another length, one single draw is
    added to every element of the result. *)
Theorem NoisyFrankeFunction_shares_one_draw
    (a : R) (y : list R) (sigma : R) (g : rng) :
  0 <= sigma -> length y <> 1%nat ->
  NoisyFrankeFunction [a] y sigma g
  = (Ok ((fun b => franke_formula a b + (normal_sample 0 sigma g).1) <$> y),
     (normal_sample 0 sigma g).2).
Proof.
  intros Hs Hy. unfold NoisyFrankeFunction.
  erewrite M_bind_Ok by (by apply generate_noise_Ok).
  rewrite FrankeFunction_broadcast, broadcast2_left by done.
  rewrite M_bind_pure_Ok. unfold pure, np_add. simpl.
  destruct (normal_sample 0 sigma g) as [n g']. simpl.
  rewrite broadcast2_right by (by rewrite length_fmap).
  by rewrite <- list_fmap_compose.
Qed.
End NoiseMore.

Lemma negative_noise_level_raises_witness :
  -1 < 0 /\
  @NoisyFrankeFunction tape_source [0; 1] [1; 0] (-1) [1; 2]
  = (Raise ValueError, [1; 2]).
Proof.
  split; [lra|].
  exact (proj2 (@negative_noise_level_raises tape_source [0; 1] [1; 0] (-1)
                  [1; 2] ltac:(lra))).
Defined.

Lemma NoisyFrankeFunction_draws_before_failing_witness :
  0 <= 0.2 /\
  @NoisyFrankeFunction tape_source [0; 1] [1; 0; 1] 0.2 [1; 2; 3]
  = (Raise ValueError, [3]).
Proof.
  split; [lra|].
  exact (@NoisyFrankeFunction_draws_before_failing tape_source
           [0; 1] [1; 0; 1] 0.2 [1; 2; 3] ltac:(lra)
           ltac:(simpl; lia) ltac:(simpl; lia) ltac:(simpl; lia)).
Defined.

Lemma NoisyFrankeFunction_shares_one_draw_witness :
  0 <= 0.2 /\
  @NoisyFrankeFunction tape_source [0] [1; 0] 0.2 [5; 6]
  = (Ok [franke_formula 0 1 + (0 + 0.2 * 5);
         franke_formula 0 0 + (0 + 0.2 * 5)], [6]).
Proof.
  split; [lra|].
  exact (@NoisyFrankeFunction_shares_one_draw tape_source 0 [1; 0] 0.2 [5; 6]
           ltac:(lra) ltac:(simpl; lia)).
Defined.

(** ** The constructor: sizes and draws *)

Section InitMore.
Context `{Collaborators}.

(** X11. Degenerate sizes. A negative [N] is refused with [ValueError]
    before anything is drawn. [N = 0] is accepted when the rescaling is
    off (no split, degree at least 0): the object holds a design matrix
    without rows and no targets, and nothing has been drawn. *)
Theorem FrankeData_init_degenerate_sizes (N : Z) (kw : kwargs) (g : rng) :
  ((N < 0)%Z -> FrankeData_init N kw g = (Raise ValueError, g)) /\
  (N = 0%Z -> kw_scale_data kw = false -> kw_test_size kw = None ->
   (0 <= kw_degree kw)%Z ->
   (kw_random_noise kw = true -> 0 <= kw_noise_level kw) ->
   exists X,
     FrankeData_init N kw g
     = (Ok {| degree := kw_degree kw;
              data := {| X_train := X; z_train := [];
                         X_test := None; z_test := None |} |}, g) /\
     nrows X = 0%nat /\ rows X = [] /\
     Z.of_nat (ncols X) = ((kw_degree kw + 1) * (kw_degree kw + 2) / 2)%Z).
Proof.
  split.
  - intros HN. unfold FrankeData_init, mbind at 1, M_bind, np_random_rand.
    by rewrite decide_False by lia.
  - intros -> Hscale Hts Hdeg Hnl.
    destruct (generate_design_matrix_spec (kw_degree kw) ([] : list R) []
                eq_refl Hdeg) as (X & HX & [Hrows _] & Hn & Hp & _).
    exists X. split; [|split; [done|split; [|done]]].
    2:{ simpl in Hn. rewrite Hn in Hrows. by destruct (rows X). }
    unfold FrankeData_init.
    erewrite M_bind_Ok by reflexivity.
    erewrite M_bind_Ok by reflexivity.
    erewrite M_bind_Ok by reflexivity.
    erewrite M_bind_Ok by reflexivity.
    assert (Htargets :
      (if kw_random_noise kw
       then NoisyFrankeFunction [] [] (kw_noise_level kw)
       else pure (FrankeFunction [] [])) g = (Ok [], g)).
    { destruct (kw_random_noise kw); [|reflexivity].
      rewrite NoisyFrankeFunction_Ok by auto. reflexivity. }
    simpl. erewrite M_bind_Ok by exact Htargets.
    rewrite Hscale. erewrite M_bind_Ok by reflexivity.
    unfold store_data. rewrite HX, Hts. reflexivity.
Qed.

(** X12. What a construction takes from the global random source
    ([N > 0], no split): [2 N] uniform draws and, only when
    [random_noise] is on, [N] normal draws after them. With noise and
    rescaling both off the stored targets are exactly [FrankeFunction] of
    the stored coordinates (columns 1 and 2 of the design matrix). *)
Theorem FrankeData_init_consumes (N : Z) (kw : kwargs) (g : rng) :
  (0 < N)%Z -> (1 <= kw_degree kw)%Z -> kw_test_size kw = None ->
  (kw_random_noise kw = true -> 0 <= kw_noise_level kw) ->
  let g1 := (draws random_sample (Z.to_nat (N * 2)) g).2 in
  exists obj x y,
    FrankeData_init N kw g
    = (Ok obj,
       if kw_random_noise kw
       then (draws (normal_sample 0 (kw_noise_level kw)) (Z.to_nat N) g1).2
       else g1) /\
    getcol (X_train (data obj)) 1 = Ok x /\
    getcol (X_train (data obj)) 2 = Ok y /\
    (kw_random_noise kw = false -> kw_scale_data kw = false ->
     FrankeFunction x y = Ok (z_train (data obj))).
Proof.
  intros HN Hdeg Hts Hnl g1.
  destruct (FrankeData_init_run N kw g HN ltac:(lia) Hts Hnl)
    as (x & y & X & z0 & z & Hx & Hy & Hk & HF & HX & Hz0 & _ & Hz & Hrun).
  assert (Hxy : length x = length y) by congruence.
  destruct (generate_design_matrix_spec (kw_degree kw) x y Hxy ltac:(lia))
    as (X' & HX' & _ & _ & _ & _ & Hcols).
  rewrite HX in HX'. injection HX' as <-.
  eexists _, x, y. split; [exact Hrun|]. cbn [data X_train z_train].
  split. { pose proof (Hcols 0%Z 0%Z ltac:(lia) ltac:(lia)) as Hc.
           change (tri 0 + 0)%Z with 1%Z in Hc.
           change (0 - 0 + 1)%Z with 1%Z in Hc.
           by rewrite monomial_1_0 in Hc. }
  split. { pose proof (Hcols 0%Z 1%Z ltac:(lia) ltac:(lia)) as Hc.
           change (tri 0 + 1)%Z with 2%Z in Hc.
           change (0 - 1 + 1)%Z with 0%Z in Hc.
           by rewrite monomial_0_1 in Hc. }
  intros Hnoise Hscale. rewrite Hnoise in Hz0. rewrite Hscale in Hz.
  by subst z z0.
Qed.
End InitMore.

Lemma FrankeData_init_consumes_witness :
  exists obj,
    @FrankeData_init tape_source (@toy_collaborators tape_source 0 1) 1
      default_kwargs [1/4; 1/2; 3; 7] = (Ok obj, [7]).
Proof.
  destruct (@FrankeData_init_consumes tape_source
              (@toy_collaborators tape_source 0 1) 1%Z default_kwargs
              [1/4; 1/2; 3; 7])
    as (obj & x & y & Hrun & _);
    [lia | simpl; lia | reflexivity
    | intros _; simpl; unfold DEFAULT_NOISE_LEVEL; lra |].
  exists obj. exact Hrun.
Defined.

Lemma FrankeData_init_degenerate_sizes_witness :
  exists X,
    @FrankeData_init tape_source (@toy_collaborators tape_source 0 1) 0
      {| kw_degree := 2; kw_random_noise := true; kw_scale_data := false;
         kw_test_size := None; kw_noise_level := 0.2 |} [1; 2]
    = (Ok {| degree := 2;
             data := {| X_train := X; z_train := [];
                        X_test := None; z_test := None |} |}, [1; 2]) /\
    rows X = [].
Proof.
  destruct (proj2 (@FrankeData_init_degenerate_sizes tape_source
              (@toy_collaborators tape_source 0 1) 0%Z
              {| kw_degree := 2; kw_random_noise := true;
                 kw_scale_data := false; kw_test_size := None;
                 kw_noise_level := 0.2 |} [1; 2])
              eq_refl eq_refl eq_refl ltac:(simpl; lia)
              ltac:(intros _; simpl; lra))
    as (X & Hrun & _ & Hrows & _).
  exists X. split; [exact Hrun | exact Hrows].
Defined.

(** ** [write_to_file] with lists of any length *)

Open Scope Z_scope.

Lemma M_bind_Raise {St A B} (m : M St A) (f : A -> M St B) (s s' : St) (e : exn) :
  m s = (Raise e, s') -> (m ≫= f) s = (Raise e, s').
Proof. intros Hm. unfold mbind, M_bind. by rewrite Hm. Qed.

Lemma py_index_ge {A} (l : list A) (k : nat) :
  (length l <= k)%nat -> py_index l (Z.of_nat k) = Raise IndexError.
Proof.
  intros Hk. unfold py_index, norm_index.
  rewrite decide_False by lia. rewrite decide_False by lia. done.
Qed.

Section TableMore.
Context {X V : Type} (str_x : X -> string) (str_v : V -> string).
Implicit Types (x : list X) (a b c d : list V).

Lemma table_rows_length_min x a b c d :
  length (table_rows str_x str_v x a b c d)
  = (length x `min` (length a `min` (length b `min`
       (length c `min` length d))))%nat.
Proof.
  revert a b c d. induction x as [|xi x IH];
    intros [|ai a] [|bi b] [|ci c] [|di d]; simpl; try lia.
  rewrite IH. lia.
Qed.

(** The loop over the rows, whatever the lengths: it stops at the first
    index one of the lists does not have. *)
Lemma write_rows_loop_any (f : string) x a b c d (n k : nat)
    (content : string) (fs : filesystem) :
  (k + n)%nat = length x ->
  (k <= length a)%nat -> (k <= length b)%nat ->
  (k <= length c)%nat -> (k <= length d)%nat ->
  fs !! f = Some content ->
  forM_ (seqZ (Z.of_nat k) (Z.of_nat n)) (fun i =>
      xi ← pure (py_index x i);
      ai ← pure (py_index a i);
      bi ← pure (py_index b i);
      ci ← pure (py_index c i);
      di ← pure (py_index d i);
      f_write f (str_x xi +:+ "," +:+ str_v ai +:+ "," +:+ str_v bi +:+ ","
                 +:+ str_v ci +:+ "," +:+ str_v di +:+ nl)) fs
  = (if decide ((length x <= length a)%nat /\ (length x <= length b)%nat /\
                (length x <= length c)%nat /\ (length x <= length d)%nat)
     then Ok tt else Raise IndexError,
     <[f := content +:+ foldr String.append ""
              (table_rows str_x str_v (drop k x) (drop k a) (drop k b)
                 (drop k c) (drop k d))]> fs).
Proof.
  revert k content fs. induction n as [|n IH];
    intros k content fs Hk Ha Hb Hc Hd Hfs.
  - simpl. rewrite decide_True by lia. rewrite (drop_ge x) by lia. simpl.
    rewrite string_app_nil_r. by rewrite insert_id.
  - rewrite seqZ_cons by lia.
    replace (Z.succ (Z.of_nat k)) with (Z.of_nat (S k)) by lia.
    replace (Z.pred (Z.of_nat (S n))) with (Z.of_nat n) by lia.
    destruct (lookup_lt_is_Some_2 x k ltac:(lia)) as [xi Hxi].
    rewrite (drop_S x xi k Hxi).
    cbn [forM_].
    assert (Hstop : forall (l : list V),
      (length l <= k)%nat ->
      ~ ((length x <= length a)%nat /\ (length x <= length b)%nat /\
         (length x <= length c)%nat /\ (length x <= length d)%nat) ->
      forall rows : list string, rows = [] ->
      (Raise IndexError : result unit, fs)
      = (if decide ((length x <= length a)%nat /\ (length x <= length b)%nat /\
                    (length x <= length c)%nat /\ (length x <= length d)%nat)
         then Ok tt else Raise IndexError,
         <[f := content +:+ foldr String.append "" rows]> fs)).
    { intros l _ Hnot rows ->. rewrite decide_False by done. simpl.
      rewrite string_app_nil_r. by rewrite insert_id. }
    destruct (a !! k) as [ai|] eqn:Hai.
    2:{ apply lookup_ge_None in Hai.
        erewrite M_bind_Raise;
          [|rewrite (py_index_lookup x k xi Hxi);
            erewrite M_bind_Ok by reflexivity;
            erewrite M_bind_Raise by (unfold pure; by rewrite py_index_ge);
            reflexivity].
        apply (Hstop a Hai); [lia|]. by rewrite (drop_ge a). }
    destruct (b !! k) as [bi|] eqn:Hbi.
    2:{ apply lookup_ge_None in Hbi.
        erewrite M_bind_Raise;
          [|rewrite (py_index_lookup x k xi Hxi), (py_index_lookup a k ai Hai);
            erewrite M_bind_Ok by reflexivity;
            erewrite M_bind_Ok by reflexivity;
            erewrite M_bind_Raise by (unfold pure; by rewrite py_index_ge);
            reflexivity].
        apply (Hstop b Hbi); [lia|]. rewrite (drop_ge b) by done.
        by destruct (drop k a). }
    destruct (c !! k) as [ci|] eqn:Hci.
    2:{ apply lookup_ge_None in Hci.
        erewrite M_bind_Raise;
          [|rewrite (py_index_lookup x k xi Hxi), (py_index_lookup a k ai Hai),
              (py_index_lookup b k bi Hbi);
            erewrite M_bind_Ok by reflexivity;
            erewrite M_bind_Ok by reflexivity;
            erewrite M_bind_Ok by reflexivity;
            erewrite M_bind_Raise by (unfold pure; by rewrite py_index_ge);
            reflexivity].
        apply (Hstop c Hci); [lia|]. rewrite (drop_ge c) by done.
        by destruct (drop k a), (drop k b). }
    destruct (d !! k) as [di|] eqn:Hdi.
    2:{ apply lookup_ge_None in Hdi.
        erewrite M_bind_Raise;
          [|rewrite (py_index_lookup x k xi Hxi), (py_index_lookup a k ai Hai),
              (py_index_lookup b k bi Hbi), (py_index_lookup c k ci Hci);
            erewrite M_bind_Ok by reflexivity;
            erewrite M_bind_Ok by reflexivity;
            erewrite M_bind_Ok by reflexivity;
            erewrite M_bind_Ok by reflexivity;
            erewrite M_bind_Raise by (unfold pure; by rewrite py_index_ge);
            reflexivity].
        apply (Hstop d Hdi); [lia|]. rewrite (drop_ge d) by done.
        by destruct (drop k a), (drop k b), (drop k c). }
    rewrite (drop_S a ai k Hai), (drop_S b bi k Hbi), (drop_S c ci k Hci),
      (drop_S d di k Hdi).
    cbn [table_rows foldr].
    erewrite M_bind_Ok; [|
      rewrite (py_index_lookup x k xi), (py_index_lookup a k ai),
        (py_index_lookup b k bi), (py_index_lookup c k ci),
        (py_index_lookup d k di) by done;
      reflexivity].
    unfold f_write at 1. rewrite Hfs. cbn [default].
    apply lookup_lt_Some in Hai, Hbi, Hci, Hdi.
    rewrite (IH (S k) (content +:+ row_line str_x str_v xi ai bi ci di));
      [|lia..|by rewrite lookup_insert_eq].
    rewrite insert_insert_eq. rewrite string_app_assoc. done.
Qed.
End TableMore.

Lemma write_to_file_any_run {X V : Type}
    (str_x : X -> string) (str_v : V -> string)
    (filename : string) (x : list X)
    (mses_train mses_test biases variances : list V)
    (x_label : string) (fs : filesystem) :
  write_to_file str_x str_v filename x mses_train mses_test biases variances
    x_label fs
  = (if decide ((length x <= length mses_train)%nat /\
                (length x <= length mses_test)%nat /\
                (length x <= length biases)%nat /\
                (length x <= length variances)%nat)
     then Ok tt else Raise IndexError,
     <["output/data/" +:+ filename :=
       (x_label +:+ ",mse_train,mse_test,bias,variance" +:+ nl)
       +:+ foldr String.append ""
             (table_rows str_x str_v x mses_train mses_test biases variances)]>
       fs).
Proof.
  unfold write_to_file. cbv zeta. unfold open_w at 1.
  erewrite M_bind_Ok by reflexivity.
  erewrite M_bind_Ok by reflexivity.
  unfold range.
  rewrite (write_rows_loop_any str_x str_v _ x mses_train mses_test biases
             variances (length x) 0
             (x_label +:+ ",mse_train,mse_test,bias,variance" +:+ nl));
    [|lia..|].
  - rewrite !drop_0. by rewrite !insert_insert_eq.
  - rewrite lookup_insert_eq. rewrite lookup_insert_eq. done.
Qed.

(** X13. [write_to_file] is not atomic. Whatever the lengths of the four
    metric lists, the file ends up holding the header and the rows up to
    the shortest of the five lists; the call returns when every metric
    list is at least as long as [x] (surplus entries are ignored) and
    raises [IndexError], leaving the truncated table behind, when one is
    shorter. *)
Theorem write_to_file_any_lengths {X V : Type}
    (str_x : X -> string) (str_v : V -> string)
    (filename : string) (x : list X)
    (mses_train mses_test biases variances : list V)
    (x_label : string) (fs : filesystem) :
  exists rows,
    write_to_file str_x str_v filename x mses_train mses_test biases
      variances x_label fs
    = (if decide ((length x <= length mses_train)%nat /\
                  (length x <= length mses_test)%nat /\
                  (length x <= length biases)%nat /\
                  (length x <= length variances)%nat)
       then Ok tt else Raise IndexError,
       <["output/data/" +:+ filename :=
         (x_label +:+ ",mse_train,mse_test,bias,variance" +:+ nl)
         +:+ foldr String.append "" rows]> fs) /\
    length rows
    = (length x `min` (length mses_train `min` (length mses_test `min`
         (length biases `min` length variances))))%nat /\
    (forall (i : nat) xi a b c d,
       x !! i = Some xi -> mses_train !! i = Some a ->
       mses_test !! i = Some b -> biases !! i = Some c ->
       variances !! i = Some d ->
       rows !! i = Some (str_x xi +:+ "," +:+ str_v a +:+ "," +:+ str_v b
                         +:+ "," +:+ str_v c +:+ "," +:+ str_v d +:+ nl)).
Proof.
  exists (table_rows str_x str_v x mses_train mses_test biases variances).
  split; [apply write_to_file_any_run|].
  split; [apply table_rows_length_min|].
  intros i xi a b c d Hx Ha Hb Hc Hd.
  by rewrite (table_rows_lookup str_x str_v _ _ _ _ _ i xi a b c d).
Qed.

(** X14. The file is opened for writing, so what it held before never
    survives, not even when the call fails: the outcome does not depend
    on the previous text of the file, and writing the same table a second
    time changes nothing. *)
Theorem write_to_file_overwrites {X V : Type}
    (str_x : X -> string) (str_v : V -> string)
    (filename : string) (x : list X)
    (mses_train mses_test biases variances : list V)
    (x_label : string) (fs : filesystem) (old : string) :
  write_to_file str_x str_v filename x mses_train mses_test biases variances
    x_label (<["output/data/" +:+ filename := old]> fs)
  = write_to_file str_x str_v filename x mses_train mses_test biases variances
      x_label fs /\
  write_to_file str_x str_v filename x mses_train mses_test biases variances
    x_label
    (write_to_file str_x str_v filename x mses_train mses_test biases
       variances x_label fs).2
  = write_to_file str_x str_v filename x mses_train mses_test biases variances
      x_label fs.
Proof.
  split.
  - rewrite !write_to_file_any_run. by rewrite insert_insert_eq.
  - rewrite (write_to_file_any_run str_x str_v filename x mses_train
               mses_test biases variances x_label fs).
    cbn [snd]. rewrite write_to_file_any_run. by rewrite insert_insert_eq.
Qed.

(** ** The sweeps that share one dataset *)

Section SharedSweeps.
Context `{SklearnModels}.

Lemma shared_step (data : FrankeData) (make : Z -> M rng regressor)
    (acc : accumulators) (v : Z) (w : world) :
  (let '(mses_train, mses_test, biases, variances) := acc in
   reg ← lift_rng (make v);
   '(bias, variance, mse_train, mse_test) ←
     lift_rng (bootstrap_bias_variance reg data BIAS_VARIANCE_BOOTSTRAP_SIZE);
   mret ((mses_train ++ [mse_train])%list, (mses_test ++ [mse_test])%list,
         (biases ++ [bias])%list, (variances ++ [variance])%list)) w
  = match estimate_on data make v (w_rng w) with
    | (Ok r, g') =>
        (Ok ((acc.1.1.1 ++ [mse_train_of r])%list,
             (acc.1.1.2 ++ [mse_test_of r])%list,
             (acc.1.2 ++ [bias_of r])%list,
             (acc.2 ++ [variance_of r])%list),
         {| w_rng := g'; w_fs := w_fs w |})
    | (Raise e, g') => (Raise e, {| w_rng := g'; w_fs := w_fs w |})
    end.
Proof.
  destruct acc as [[[tr te] bi] va]. unfold estimate_on.
  unfold mbind, M_bind, lift_rng. simpl.
  destruct (make v (w_rng w)) as [[reg|e] gb]; [|done]. simpl.
  destruct (bootstrap_bias_variance reg data BIAS_VARIANCE_BOOTSTRAP_SIZE gb)
    as [[[[[bias var] mtr] mte]|e] gc]; done.
Qed.

Lemma shared_loop (data : FrankeData) (make : Z -> M rng regressor)
    (l : list Z) (acc : accumulators) (w : world) :
  foldM_M (fun (acc : accumulators) v =>
      let '(mses_train, mses_test, biases, variances) := acc in
      reg ← lift_rng (make v);
      '(bias, variance, mse_train, mse_test) ←
        lift_rng (bootstrap_bias_variance reg data BIAS_VARIANCE_BOOTSTRAP_SIZE);
      mret ((mses_train ++ [mse_train])%list, (mses_test ++ [mse_test])%list,
            (biases ++ [bias])%list, (variances ++ [variance])%list))
    l acc w
  = match mapM_M (estimate_on data make) l (w_rng w) with
    | (Ok rs, g') =>
        (Ok ((acc.1.1.1 ++ (mse_train_of <$> rs))%list,
             (acc.1.1.2 ++ (mse_test_of <$> rs))%list,
             (acc.1.2 ++ (bias_of <$> rs))%list,
             (acc.2 ++ (variance_of <$> rs))%list),
         {| w_rng := g'; w_fs := w_fs w |})
    | (Raise e, g') => (Raise e, {| w_rng := g'; w_fs := w_fs w |})
    end.
Proof.
  match goal with |- context [foldM_M ?f] => set (step := f) end.
  assert (Hstep : forall acc v w,
    step acc v w
    = match estimate_on data make v (w_rng w) with
      | (Ok r, g') =>
          (Ok ((acc.1.1.1 ++ [mse_train_of r])%list,
               (acc.1.1.2 ++ [mse_test_of r])%list,
               (acc.1.2 ++ [bias_of r])%list,
               (acc.2 ++ [variance_of r])%list),
           {| w_rng := g'; w_fs := w_fs w |})
      | (Raise e, g') => (Raise e, {| w_rng := g'; w_fs := w_fs w |})
      end) by (intros; apply shared_step).
  clearbody step.
  revert acc w. induction l as [|v l IH]; intros acc w.
  - destruct acc as [[[tr te] bi] va], w as [g fs]. simpl.
    by rewrite !app_nil_r.
  - cbn [foldM_M mapM_M]. unfold mbind, M_bind. rewrite Hstep.
    destruct (estimate_on data make v (w_rng w)) as [[r|e] g1]; [|done].
    rewrite IH. cbn [w_rng w_fs fst snd].
    destruct (mapM_M (estimate_on data make) l g1) as [[rs|e] g2]; [|done].
    cbn [fmap list_fmap mret M_ret].
    by rewrite <- !app_assoc.
Qed.

(** A sweep of the shape the three functions have meets
    [shared_sweep_spec]. *)
Lemma shared_sweep_meets_spec (run : M world unit)
    (make : Z -> M rng regressor) (values : list Z)
    (filename x_label : string) :
  (forall w, run w = shared_outcome make values filename x_label w) ->
  shared_sweep_spec run make values filename x_label.
Proof.
  intros Hrun w. rewrite Hrun. unfold shared_outcome. split; [|split].
  - intros e w'.
    destruct (FrankeData_init _ _ _) as [[data|e'] g1]; [|by intros [= _ <-]].
    destruct (mapM_M _ _ _) as [[rs|e'] g']; [done | by intros [= _ <-]].
  - intros e g1 ->. done.
  - intros data g1 ->. split.
    + intros rs g2 Hruns. pose proof (runs_length _ _ _ _ _ Hruns) as Hlen.
      apply mapM_M_runs in Hruns. rewrite Hruns. split; [done|].
      rewrite table_rows_length; rewrite ?length_fmap, ?Hlen; done.
    + intros pre v post rs g2 e g3 -> Hpre Hv.
      by rewrite (mapM_M_raise _ pre post v g1 g2 g3 rs e Hpre Hv).
Qed.

(** The part of a sweep after the dataset is there. *)
Lemma shared_sweep_tail (data : FrankeData) (make : Z -> M rng regressor)
    (values : list Z) (filename x_label : string) (w : world) :
  ('(mses_train, mses_test, biases, variances) ←
     foldM_M (fun (acc : accumulators) v =>
       let '(mses_train, mses_test, biases, variances) := acc in
       reg ← lift_rng (make v);
       '(bias, variance, mse_train, mse_test) ←
         lift_rng (bootstrap_bias_variance reg data BIAS_VARIANCE_BOOTSTRAP_SIZE);
       mret ((mses_train ++ [mse_train])%list, (mses_test ++ [mse_test])%list,
             (biases ++ [bias])%list, (variances ++ [variance])%list))
       values ([], [], [], []);
   lift_fs (write_to_file pretty float_str filename values
              mses_train mses_test biases variances x_label)) w
  = match mapM_M (estimate_on data make) values (w_rng w) with
    | (Ok rs, g') =>
        (Ok tt,
         {| w_rng := g';
            w_fs := <["output/data/" +:+ filename :=
                      table_text pretty float_str x_label values
                        (mse_train_of <$> rs) (mse_test_of <$> rs)
                        (bias_of <$> rs) (variance_of <$> rs)]> (w_fs w) |})
    | (Raise e, g') => (Raise e, {| w_rng := g'; w_fs := w_fs w |})
    end.
Proof.
  unfold mbind at 1, M_bind at 1. rewrite shared_loop.
  destruct (mapM_M (estimate_on data make) values (w_rng w))
    as [[rs|e] g'] eqn:Hrs; [|done].
  apply mapM_M_runs, runs_length in Hrs. cbn [fst snd app].
  unfold lift_fs. cbn [w_rng w_fs].
  rewrite write_to_file_run by (rewrite !length_fmap, Hrs; done).
  done.
Qed.

Lemma const_fmap_range (c n : Z) :
  (fun _ : Z => c) <$> range n = replicate (Z.to_nat n) c.
Proof.
  assert (Hconst : forall l : list Z,
            (fun _ : Z => c) <$> l = replicate (length l) c).
  { induction l as [|k l IH]; simpl; [done | f_equal; exact IH]. }
  unfold range. by rewrite Hconst, length_seqZ.
Qed.

Lemma mlp_layer_size_run (w : world) :
  bias_variance_analysis_mlp_layer_size w
  = shared_outcome (fun v => MLPRegressor [v; v; v] 1000)
      [10; 20; 30; 40; 50; 60; 70; 80; 90]
      "bias_variance_mlp_layer_size.csv" "layer size" w.
Proof.
  unfold bias_variance_analysis_mlp_layer_size, shared_outcome.
  unfold mbind at 1, M_bind at 1, lift_rng at 1.
  destruct (FrankeData_init DATA_SIZE shared_kwargs (w_rng w))
    as [[data|e] g1]; [|done].
  change (range3 10 100 10) with (Ok [10; 20; 30; 40; 50; 60; 70; 80; 90]).
  erewrite M_bind_Ok by reflexivity.
  change (range 3) with [0; 1; 2]. cbn [fmap list_fmap].
  etrans; [apply (shared_sweep_tail data
                    (fun v => MLPRegressor [v; v; v] 1000))|done].
Qed.

Lemma mlp_number_of_layers_run (w : world) :
  bias_variance_analysis_mlp_number_of_layers w
  = shared_outcome (fun v => MLPRegressor ((fun _ => 50) <$> range v) 1000)
      [1; 2; 3; 4; 5]
      "bias_variance_mlp_number_of_layers.csv" "number of layers" w.
Proof.
  unfold bias_variance_analysis_mlp_number_of_layers, shared_outcome.
  cbv zeta. unfold mbind at 1, M_bind at 1, lift_rng at 1.
  destruct (FrankeData_init DATA_SIZE shared_kwargs (w_rng w))
    as [[data|e] g1]; [|done].
  change (range2 1 6) with [1; 2; 3; 4; 5].
  etrans; [apply (shared_sweep_tail data
    (fun v => MLPRegressor ((fun _ => 50) <$> range v) 1000))|done].
Qed.

Lemma ensamble_run (w : world) :
  bias_variance_analysis_ensamble w
  = shared_outcome GradientBoostingRegressor
      [1; 2; 3; 4; 5; 6; 7; 8; 9; 10]
      "bias_variance_ensamble.csv" "depth" w.
Proof.
  unfold bias_variance_analysis_ensamble, shared_outcome.
  cbv zeta. unfold mbind at 1, M_bind at 1, lift_rng at 1.
  destruct (FrankeData_init DATA_SIZE shared_kwargs (w_rng w))
    as [[data|e] g1]; [|done].
  change (range2 1 11) with [1; 2; 3; 4; 5; 6; 7; 8; 9; 10].
  etrans; [apply (shared_sweep_tail data GradientBoostingRegressor)|done].
Qed.

(** X15. The three sweeps over network width, network depth and tree
    depth build one dataset, before the loop and from the state at
    entry, and hand that same dataset to every call of the estimator;
    the regressor is built anew for each value (its [hidden_layer_sizes]
    yields the swept width three times, or 50 as many times as the swept
    number; the trees have the swept depth). They sweep 10, 20, ..., 90, then 1..5, then 1..10, in order,
    and write the complete table last: if the dataset, a regressor or a
    call of the estimator raises, the exception is passed on and no file
    has changed. *)
Theorem other_sweeps_share_one_dataset :
  shared_sweep_spec bias_variance_analysis_mlp_layer_size
    (fun v => MLPRegressor [v; v; v] 1000)
    [10; 20; 30; 40; 50; 60; 70; 80; 90]
    "bias_variance_mlp_layer_size.csv" "layer size" /\
  shared_sweep_spec bias_variance_analysis_mlp_number_of_layers
    (fun v => MLPRegressor ((fun _ => 50) <$> range v) 1000)
    [1; 2; 3; 4; 5]
    "bias_variance_mlp_number_of_layers.csv" "number of layers" /\
  (forall v, (fun _ : Z => 50) <$> range v = replicate (Z.to_nat v) 50) /\
  shared_sweep_spec bias_variance_analysis_ensamble
    GradientBoostingRegressor
    [1; 2; 3; 4; 5; 6; 7; 8; 9; 10]
    "bias_variance_ensamble.csv" "depth".
Proof.
  split; [|split; [|split; [intros v; apply const_fmap_range|]]];
    apply shared_sweep_meets_spec; intros w.
  - apply mlp_layer_size_run.
  - apply mlp_number_of_layers_run.
  - apply ensamble_run.
Qed.

Lemma shared_outcome_files (make : Z -> M rng regressor) (values : list Z)
    (filename x_label : string) (w : world) :
  (forall e w', shared_outcome make values filename x_label w = (Raise e, w') ->
     w_fs w' = w_fs w) /\
  (forall u w', shared_outcome make values filename x_label w = (Ok u, w') ->
     exists t, w_fs w' = <["output/data/" +:+ filename := t]> (w_fs w)).
Proof.
  unfold shared_outcome. split.
  - intros e w'.
    destruct (FrankeData_init _ _ _) as [[data|e'] g1]; [|by intros [= _ <-]].
    destruct (mapM_M _ _ _) as [[rs|e'] g']; [done | by intros [= _ <-]].
  - intros u w'.
    destruct (FrankeData_init _ _ _) as [[data|e'] g1]; [|done].
    destruct (mapM_M _ _ _) as [[rs|e'] g']; [|done].
    intros [= _ <-]. by eexists.
Qed.

(** X16. [bias_variance_analysis_mlp] runs the width sweep and then the
    depth sweep, each with a dataset of its own. It is not all or
    nothing as a whole: when the first sweep raises, the second is not
    run and no file has changed; when the first returns and the second
    raises, the table of the first stays on disk and the second file is
    untouched; when both return, both tables are there, in two different
    files. *)
Theorem bias_variance_analysis_mlp_outcomes (w : world) :
  (forall e w1,
     bias_variance_analysis_mlp_layer_size w = (Raise e, w1) ->
     bias_variance_analysis_mlp w = (Raise e, w1) /\ w_fs w1 = w_fs w) /\
  (forall u w1,
     bias_variance_analysis_mlp_layer_size w = (Ok u, w1) ->
     bias_variance_analysis_mlp w
     = bias_variance_analysis_mlp_number_of_layers w1 /\
     exists t1,
       w_fs w1 = <["output/data/bias_variance_mlp_layer_size.csv" := t1]> (w_fs w) /\
       (forall e w2,
          bias_variance_analysis_mlp_number_of_layers w1 = (Raise e, w2) ->
          w_fs w2
          = <["output/data/bias_variance_mlp_layer_size.csv" := t1]> (w_fs w)) /\
       (forall u' w2,
          bias_variance_analysis_mlp_number_of_layers w1 = (Ok u', w2) ->
          exists t2,
            w_fs w2 !! "output/data/bias_variance_mlp_layer_size.csv" = Some t1 /\
            w_fs w2 !! "output/data/bias_variance_mlp_number_of_layers.csv"
            = Some t2 /\
            (forall f,
               f <> "output/data/bias_variance_mlp_layer_size.csv" ->
               f <> "output/data/bias_variance_mlp_number_of_layers.csv" ->
               w_fs w2 !! f = w_fs w !! f))).
Proof.
  split.
  - intros e w1 Hfirst. split.
    + unfold bias_variance_analysis_mlp. by erewrite M_bind_Raise.
    + rewrite mlp_layer_size_run in Hfirst.
      exact (proj1 (shared_outcome_files _ _ _ _ w) e w1 Hfirst).
  - intros u w1 Hfirst. split.
    + unfold bias_variance_analysis_mlp. by erewrite M_bind_Ok.
    + rewrite mlp_layer_size_run in Hfirst.
      destruct (proj2 (shared_outcome_files _ _ _ _ w) u w1 Hfirst) as [t1 Ht1].
      exists t1. split; [exact Ht1|]. split.
      * intros e w2 Hsecond. rewrite mlp_number_of_layers_run in Hsecond.
        rewrite (proj1 (shared_outcome_files _ _ _ _ w1) e w2 Hsecond).
        exact Ht1.
      * intros u' w2 Hsecond. rewrite mlp_number_of_layers_run in Hsecond.
        destruct (proj2 (shared_outcome_files _ _ _ _ w1) u' w2 Hsecond)
          as [t2 Ht2].
        exists t2. rewrite Ht2, Ht1. split; [|split].
        -- rewrite lookup_insert_ne by done. by rewrite lookup_insert_eq.
        -- by rewrite lookup_insert_eq.
        -- intros f Hf1 Hf2. by rewrite !lookup_insert_ne.
Qed.

(** X17. [main] prints the banner with the bootstrap size and then runs
    the polynomial-degree sweep, nothing else: its result is that of the
    sweep, the banner is printed whether or not the sweep raises, and no
    file other than [output/data/bias_variance_ols.csv] is ever
    changed. *)
Theorem main_runs_the_ols_sweep_only (p : process) :
  main p
  = ((bias_variance_analysis_ols (p_world p)).1,
     {| p_stdout := p_stdout p
                    +:+ ("Running with boostrap size: "
                         +:+ pretty BIAS_VARIANCE_BOOTSTRAP_SIZE) +:+ nl;
        p_world := (bias_variance_analysis_ols (p_world p)).2 |}) /\
  (forall f, f <> "output/data/bias_variance_ols.csv" ->
     w_fs (p_world (main p).2) !! f = w_fs (p_world p) !! f).
Proof.
  assert (Hmain : main p
    = ((bias_variance_analysis_ols (p_world p)).1,
       {| p_stdout := p_stdout p
                      +:+ ("Running with boostrap size: "
                           +:+ pretty BIAS_VARIANCE_BOOTSTRAP_SIZE) +:+ nl;
          p_world := (bias_variance_analysis_ols (p_world p)).2 |})).
  { unfold main, mbind, M_bind, print, lift_world. cbn [p_world p_stdout].
    by destruct (bias_variance_analysis_ols (p_world p)) as [r w']. }
  split; [exact Hmain|].
  intros f Hf. rewrite Hmain. cbn [snd p_world].
  rewrite sweep_run.
  destruct (mapM_M estimate (range2 1 16) (w_rng (p_world p)))
    as [[rs|e] g']; cbn [snd w_fs]; [|done].
  by rewrite lookup_insert_ne.
Qed.
End SharedSweeps.

Lemma other_sweeps_share_one_dataset_witness :
  exists w',
    @bias_variance_analysis_ensamble tape_source
      (@toy_collaborators tape_source 0 1) (@toy_models tape_source 0 1)
      (@Build_world tape_source [] ∅) = (Ok tt, w') /\
    is_Some (w_fs w' !! "output/data/bias_variance_ensamble.csv").
Proof.
  pose (C := @toy_collaborators tape_source 0 1).
  pose (K := @toy_models tape_source 0 1).
  destruct (@FrankeData_init_run tape_source C 1
              (@shared_kwargs tape_source C) [])
    as (x & y & X & z0 & z & _ & _ & _ & _ & _ & _ & _ & _ & Hinit);
    [lia | simpl; lia | reflexivity
    | intros _; simpl; unfold DEFAULT_NOISE_LEVEL; lra |].
  simpl in Hinit.
  destruct (proj2 (proj2 (proj2 (@other_sweeps_share_one_dataset
                                   tape_source C K)))
              (@Build_world tape_source [] ∅)) as (_ & _ & Hok).
  destruct (Hok _ _ Hinit) as [Hruns _].
  destruct (Hruns ((fun _ => (IZR 1, 0, 0, 0)%R) <$> seq 0 10) []) as [Hrun _].
  { cbn [fmap list_fmap seq].
    repeat (eapply runs_cons; [reflexivity|]). apply runs_nil. }
  eexists. split; [exact Hrun|]. cbn [w_fs].
  rewrite lookup_insert_eq. by eexists.
Defined.

(** ** [create_csv]: the rows and the seed *)


Lemma csv_lines_length (all_files : list string) :
  length (csv_lines all_files)
  = (length (filter (fun f => String.prefix "fall" f) all_files) / 2
     + length (filter (fun f => String.prefix "adl" f) all_files) / 2)%nat.
Proof.
  unfold csv_lines. cbn [mbind list_bind mret]. 
  rewrite !length_app, !length_fmap. unfold range. rewrite !length_seqZ.
  cbn [length]. rewrite Nat.add_0_r.
  rewrite <- !(Nat2Z.inj_div _ 2), !Nat2Z.id. done.
Qed.

Lemma elem_of_csv_lines (all_files : list string) (line : list string) :
  line ∈ csv_lines all_files ->
  exists filter_name i,
    (filter_name = "fall" \/ filter_name = "adl") /\
    0 <= i < Z.of_nat (length (filter (fun f => String.prefix filter_name f)
                                 all_files)) / 2 /\
    line = (sorted (filter (fun file => contains (format_02d (i + 1)) file)
                      (filter (fun f => String.prefix filter_name f)
                         all_files))
            ++ [str_bool (String.eqb filter_name "fall")])%list.
Proof.
  unfold csv_lines. intros Hin.
  apply list_elem_of_bind in Hin as (g & Hline & Hg).
  apply list_elem_of_fmap in Hline as (i & -> & Hi).
  exists g, i. split.
  - apply elem_of_cons in Hg as [->|Hg]; [by left|].
    apply elem_of_cons in Hg as [->|Hg]; [by right|].
    by apply elem_of_nil in Hg.
  - split; [|done]. unfold range in Hi. apply elem_of_seqZ in Hi. lia.
Qed.

Section CreateCsvFacts.
Context `{PyRandom} `{OperatingSystem}.

Lemma write_lines_loop (f : string) (lines : list (list string))
    (s : py_random) (fs : filesystem) (c : string) :
  fs !! f = Some c ->
  forM_ lines
    (fun line => lift_file (f_write f (String.concat "," line +:+ nl)))
    {| fw_random := s; fw_fs := fs |}
  = (Ok tt, {| fw_random := s; fw_fs := <[f := c +:+ csv_text lines]> fs |}).
Proof.
  revert fs c. induction lines as [|line lines IH]; intros fs c Hc.
  - cbn. unfold csv_text. cbn. rewrite string_app_nil_r.
    by rewrite insert_id.
  - cbn [forM_]. unfold mbind, M_bind.
    unfold lift_file at 1, f_write at 1. cbn [fw_fs fw_random].
    rewrite Hc. cbn [default].
    erewrite IH by apply lookup_insert_eq.
    rewrite insert_insert_eq. unfold csv_text. cbn [fmap list_fmap foldr].
    by rewrite string_app_assoc.
Qed.

Lemma create_csv_run (filepath : string) (random_seed : option Z)
    (w : fall_world) (all_files : list string) :
  os_listdir filepath (fw_fs w) = Ok all_files ->
  let s0 := match random_seed with
            | Some k => if decide (k = 0) then fw_random w else seed_state k
            | None => fw_random w
            end in
  create_csv filepath random_seed w
  = (Ok tt,
     {| fw_random := (shuffle (csv_lines all_files) s0).2;
        fw_fs := <[os_path_join filepath "fall_labels.csv" :=
                   "filename_x,filename_y,isfall" +:+ nl
                   +:+ csv_text (shuffle (csv_lines all_files) s0).1]>
                   (fw_fs w) |}).
Proof.
  intros Hdir s0. unfold create_csv.
  assert (Hseed :
    (match random_seed with
     | Some k => if decide (k = 0) then mret tt else random_seed_call k
     | None => mret tt
     end : M fall_world unit) w
    = (Ok tt, {| fw_random := s0; fw_fs := fw_fs w |})).
  { subst s0. destruct w as [s fs]. destruct random_seed as [k|]; [|done].
    by destruct (decide (k = 0)). }
  unfold mbind at 1, M_bind at 1. rewrite Hseed.
  unfold mbind at 1, M_bind at 1. unfold listdir at 1. cbn [fw_fs].
  rewrite Hdir. cbv zeta.
  unfold mbind at 1, M_bind at 1. unfold lift_file at 1, open_w.
  cbn [fw_fs fw_random].
  unfold mbind at 1, M_bind at 1. unfold lift_file at 1, f_write at 1.
  cbn [fw_fs fw_random]. rewrite lookup_insert_eq. cbn [default].
  rewrite insert_insert_eq.
  unfold mbind at 1, M_bind at 1. unfold random_shuffle. cbn [fw_fs fw_random].
  destruct (shuffle (csv_lines all_files) s0) as [lines s1] eqn:Hsh.
  cbn [fst snd].
  erewrite write_lines_loop by apply lookup_insert_eq.
  rewrite insert_insert_eq.
  change ("" +:+ ?x) with x. done.
Qed.
End CreateCsvFacts.

Lemma sorted_pair (x y : string) :
  exists a b, sorted [x; y] = [a; b] /\ String.leb a b = true /\
              (a = x /\ b = y \/ a = y /\ b = x).
Proof.
  unfold sorted. cbn [foldr insort].
  destruct (String.leb x y) eqn:Hxy.
  - exists x, y. auto.
  - exists y, x. split; [done|]. split; [|auto].
    destruct (String.leb_total x y) as [Hle|Hle]; [congruence|done].
Qed.

Lemma length_2_inv {A} (l : list A) :
  length l = 2%nat -> exists x y, l = [x; y].
Proof. destruct l as [|x [|y [|z l]]]; try done. by exists x, y. Qed.

Section CreateCsvProps.
Context `{PyRandom} `{OperatingSystem}.

(** X18. When the directory can be listed, [create_csv] succeeds and
    touches one file only, [fall_labels.csv] in that directory, which it
    creates or overwrites: the header and then one row per pair, the rows
    being the grouped rows in some order. There are as many rows as half
    the "fall" names plus half the "adl" names, each half rounded down. *)
Theorem create_csv_writes_shuffled_rows (filepath : string)
    (random_seed : option Z) (w : fall_world) (all_files : list string) :
  os_listdir filepath (fw_fs w) = Ok all_files ->
  exists lines s',
    lines ≡ₚ csv_lines all_files /\
    length lines
    = (length (filter (fun f => String.prefix "fall" f) all_files) / 2
       + length (filter (fun f => String.prefix "adl" f) all_files) / 2)%nat /\
    create_csv filepath random_seed w
    = (Ok tt,
       {| fw_random := s';
          fw_fs := <[os_path_join filepath "fall_labels.csv" :=
                     "filename_x,filename_y,isfall" +:+ nl
                     +:+ csv_text lines]> (fw_fs w) |}).
Proof.
  intros Hdir.
  pose proof (create_csv_run filepath random_seed w all_files Hdir) as Hrun.
  cbv zeta in Hrun.
  eexists _, _. split; [|split; [|exact Hrun]].
  - apply shuffle_Permutation.
  - rewrite <- csv_lines_length. apply Permutation_length, shuffle_Permutation.
Qed.

(** X19. A seed of 0 is not applied: [create_csv] then behaves as with
    [None] and the order of the rows depends on the state the global
    generator is in. With any other integer seed the outcome is the same
    whatever that state was. *)
Theorem create_csv_seed_zero_is_no_seed (filepath : string) :
  create_csv filepath (Some 0) = create_csv filepath None /\
  forall k w1 w2,
    k <> 0 -> fw_fs w1 = fw_fs w2 ->
    create_csv filepath (Some k) w1 = create_csv filepath (Some k) w2.
Proof.
  split; [done|].
  intros k [s1 fs1] [s2 fs2] Hk Hfs. cbn in Hfs. subst fs2.
  unfold create_csv. destruct (decide (k = 0)); [done|].
  unfold mbind at 1 7, M_bind at 1 7. done.
Qed.

(** X20. When the directory cannot be listed, [create_csv] raises the
    exception of [os.listdir] and writes nothing, but the global generator
    has already been reseeded (for a seed other than [None] and 0). *)
Theorem create_csv_listdir_failure (filepath : string)
    (random_seed : option Z) (w : fall_world) (e : exn) :
  os_listdir filepath (fw_fs w) = Raise e ->
  create_csv filepath random_seed w
  = (Raise e,
     {| fw_random := match random_seed with
                     | Some k =>
                         if decide (k = 0) then fw_random w else seed_state k
                     | None => fw_random w
                     end;
        fw_fs := fw_fs w |}).
Proof.
  intros Hdir. unfold create_csv. destruct w as [s fs]. cbn [fw_fs fw_random] in *.
  unfold mbind at 1, M_bind at 1.
  destruct random_seed as [k|]; [destruct (decide (k = 0))|];
    cbn; unfold mbind, M_bind, listdir; cbn; by rewrite Hdir.
Qed.
End CreateCsvProps.

(** X21. When every number from 1 to half the size of a group occurs
    in exactly two names of the group, every row has the three fields of
    the header: two names of the directory that start with the same
    prefix, the smaller first, and ["True"] for "fall", ["False"] for
    "adl". *)
Theorem create_csv_rows_three_fields (all_files : list string) :
  (forall filter_name i,
     filter_name = "fall" \/ filter_name = "adl" ->
     0 <= i < Z.of_nat (length (filter (fun f => String.prefix filter_name f)
                                  all_files)) / 2 ->
     length (filter (fun file => contains (format_02d (i + 1)) file)
               (filter (fun f => String.prefix filter_name f) all_files))
     = 2%nat) ->
  forall line,
    line ∈ csv_lines all_files ->
    exists a b filter_name,
      line = [a; b; str_bool (String.eqb filter_name "fall")] /\
      (filter_name = "fall" \/ filter_name = "adl") /\
      String.leb a b = true /\
      a ∈ all_files /\ b ∈ all_files /\
      String.prefix filter_name a = true /\
      String.prefix filter_name b = true.
Proof.
  intros Hpairs line Hline.
  apply elem_of_csv_lines in Hline as (g & i & Hg & Hi & ->).
  destruct (length_2_inv _ (Hpairs g i Hg Hi)) as (x & y & Hxy).
  assert (Hin : forall z, z ∈ [x; y] ->
                          z ∈ all_files /\ String.prefix g z = true).
  { intros z Hz. rewrite <- Hxy in Hz.
    apply list_elem_of_filter in Hz as [_ Hz].
    apply list_elem_of_filter in Hz as [Hz ?].
    split; [done|]. by apply Is_true_true. }
  rewrite Hxy.
  destruct (sorted_pair x y) as (a & b & -> & Hab & Hcase).
  exists a, b, g. 
  assert (a ∈ [x; y] /\ b ∈ [x; y]) as [Ha Hb].
  { destruct Hcase as [[-> ->]|[-> ->]]; split;
      rewrite !elem_of_cons; auto. }
  destruct (Hin a Ha), (Hin b Hb). done.
Qed.

(** X22. The name of the output file itself starts with "fall": in a
    listing that has [fall_labels.csv] besides the names [all_files], it
    counts as a recording, and there is one more row than for [all_files]
    alone exactly when the number of "fall" names in [all_files] is odd. *)
Theorem create_csv_counts_its_own_output (all_files all_files' : list string) :
  all_files' ≡ₚ "fall_labels.csv" :: all_files ->
  length (csv_lines all_files')
  = (length (csv_lines all_files)
     + length (filter (fun f => String.prefix "fall" f) all_files) mod 2)%nat.
Proof.
  intros Hperm. rewrite !csv_lines_length.
  rewrite Hperm. rewrite !filter_cons.
  destruct (decide (String.prefix "fall" "fall_labels.csv")) as [_|Hn];
    [|by destruct Hn].
  destruct (decide (String.prefix "adl" "fall_labels.csv")) as [Hy|_];
    [by destruct Hy|].
  cbn [length].
  set (n := length (filter (fun f => String.prefix "fall" f) all_files)).
  set (m := length (filter (fun f => String.prefix "adl" f) all_files)).
  pose proof (Nat.div_mod_eq n 2%nat).
  pose proof (Nat.div_mod_eq (S n) 2%nat).
  pose proof (Nat.mod_upper_bound n 2%nat ltac:(lia)).
  pose proof (Nat.mod_upper_bound (S n) 2%nat ltac:(lia)).
  assert (S n `mod` 2 = 1 - n `mod` 2)%nat; [|lia].
  destruct (Nat.eq_dec (n `mod` 2)%nat 0%nat) as [E|E].
  - rewrite E.
    replace (S n) with (1 + (n `div` 2) * 2)%nat by lia.
    by rewrite Nat.Div0.mod_add.
  - assert (n `mod` 2 = 1)%nat as E1 by lia. rewrite E1.
    replace (S n) with (0 + (n `div` 2 + 1) * 2)%nat by lia.
    by rewrite Nat.Div0.mod_add.
Qed.

Lemma create_csv_writes_shuffled_rows_witness :
  exists lines s',
    lines ≡ₚ csv_lines example_dir /\
    length lines
    = (length (filter (fun f => String.prefix "fall" f) example_dir) / 2
       + length (filter (fun f => String.prefix "adl" f) example_dir) / 2)%nat /\
    @create_csv toy_random (toy_os {["data" := example_dir]}) "data" (Some 42)
      (@Build_fall_world toy_random 7 ∅)
    = (Ok tt,
       @Build_fall_world toy_random s'
         (<[os_path_join "data" "fall_labels.csv" :=
            "filename_x,filename_y,isfall" +:+ nl +:+ csv_text lines]> ∅)).
Proof.
  apply (@create_csv_writes_shuffled_rows toy_random
           (toy_os {["data" := example_dir]}) "data" (Some 42)
           (@Build_fall_world toy_random 7 ∅) example_dir).
  reflexivity.
Defined.

Lemma create_csv_listdir_failure_witness :
  @create_csv toy_random (toy_os ∅) "data" (Some 42)
    (@Build_fall_world toy_random 7 ∅)
  = (Raise (External 2), @Build_fall_world toy_random 42 ∅).
Proof.
  apply (@create_csv_listdir_failure toy_random (toy_os ∅) "data" (Some 42)
           (@Build_fall_world toy_random 7 ∅) (External 2)).
  reflexivity.
Defined.

Lemma create_csv_rows_three_fields_witness :
  exists a b filter_name,
    ["fall-02-cam0-d"; "fall-02-cam0-rgb"; "True"]
    = [a; b; str_bool (String.eqb filter_name "fall")] /\
    (filter_name = "fall" \/ filter_name = "adl") /\
    String.leb a b = true /\
    a ∈ example_dir /\ b ∈ example_dir /\
    String.prefix filter_name a = true /\
    String.prefix filter_name b = true.
Proof.
  apply (create_csv_rows_three_fields example_dir).
  - intros g i [-> | ->] Hi.
    + assert (i = 0 \/ i = 1) as [-> | ->]; [|reflexivity..].
      change (0 <= i < 2) in Hi. lia.
    + assert (i = 0) as ->; [|reflexivity].
      change (0 <= i < 1) in Hi. lia.
  - vm_compute. right. left.
Defined.

Lemma create_csv_counts_its_own_output_witness :
  length (csv_lines ["fall-01-a"; "fall-01-b"; "fall-02-a"; "fall_labels.csv"])
  = (length (csv_lines ["fall-01-a"; "fall-01-b"; "fall-02-a"])
     + length (filter (fun f => String.prefix "fall" f)
                 ["fall-01-a"; "fall-01-b"; "fall-02-a"]) mod 2)%nat.
Proof.
  apply (create_csv_counts_its_own_output
           ["fall-01-a"; "fall-01-b"; "fall-02-a"]).
  symmetry.
  apply (Permutation_cons_append ["fall-01-a"; "fall-01-b"; "fall-02-a"]).
Defined.
